(** * WhyChem: the per-frame player-state and level pipeline of [main.py]

    A shallow embedding of [PlayerCharacter.update_animation] and of the
    [GameView] event handlers ([process_keychange], [on_key_press],
    [on_key_release], [load_level], [setup], [on_update]), followed by
    [center_camera_to_player], [on_draw], the fading menu views
    ([FadingView], [StartView], [EndView], [EndView2]) and the window that
    [main] opens.

    Conventions.
    - The positions and velocities of the player are idealised to rationals
      [Q]: the code compares and assigns them, and takes half the viewport
      off a position in [center_camera_to_player].  The numbers the parallax
      computes with (the camera positions and the left edge of a tile
      sprite) are doubles: IEEE 754 binary64 as the standard library
      specifies it, with its rounding, signed zeros, infinities and NaN.
    - Python exceptions that the code itself can raise (list index out of
      range, missing dictionary key) are [None] in the [option] monad.
    - The arcade collaborators (physics engine, camera, collision test,
      tile-map loader, audio) are not code of this repository.  Their
      answers enter as explicit inputs ([Physics], [Frame], [load_tilemap]);
      the calls made to the audio and view collaborators are recorded in an
      effect log. *)

From Stdlib Require Import QArith Qabs ZArith String Bool Lia SpecFloat.
From stdpp Require Import base option list gmap strings sorting.

Open Scope string_scope.
Open Scope Z_scope.

(** ** Python helpers *)

(** [l[i]] for a Python list: negative indices count from the end, anything
    else out of range raises [IndexError]. *)
Definition py_index {A : Type} (l : list A) (i : Z) : option A :=
  let n := Z.of_nat (length l) in
  if 0 <=? i then l !! Z.to_nat i
  else if - n <=? i then l !! Z.to_nat (n + i)
  else None.

Definition Qlt_bool (x y : Q) : bool := negb (Qle_bool y x).

(** ** Doubles *)

(** Python's [float], where the code's own arithmetic is read back: binary64
    with 53 bits of precision, rounding to the nearest even. *)
Abbreviation float := spec_float.

(** [float(z)] for a Python [int], as in [int * float]; an integer literal
    where a double is expected stands for its double. *)
Definition float_of_Z (z : Z) : float := binary_normalize 53 1024 z 0 false.

Coercion float_of_Z : Z >-> spec_float.

Definition fadd : float → float → float := SFadd 53 1024.
Definition fsub : float → float → float := SFsub 53 1024.
Definition fmul : float → float → float := SFmul 53 1024.
Definition fdiv : float → float → float := SFdiv 53 1024.

(** The literal [0.25], which is 2^52 * 2^-54. *)
Definition QUARTER : float := S754_finite false 4503599627370496 (-54).



(** ** Constants *)

Definition SCREEN_WIDTH : Q := 1000.
Definition SCREEN_HEIGHT : Q := 650.

Definition TILE_SCALING : Q := 4.
Definition SPRITE_PIXEL_SIZE : Q := 128.
Definition GRID_PIXEL_SIZE : Q := SPRITE_PIXEL_SIZE * TILE_SCALING.

Definition PLAYER_MOVEMENT_SPEED : Q := 7.
Definition GRAVITY : Q := 1.4.
Definition PLAYER_JUMP_SPEED : Q := 30.

Definition PLAYER_START_X : Q := SCREEN_WIDTH / 4.
(** [PLAYER_START_X] as the double [1000 / 4], where the camera position is
    set from it. *)
Definition PLAYER_START_X_float : float := fdiv 1000 4.
Definition PLAYER_START_Y : Q := SCREEN_HEIGHT / 4.

Inductive Facing := RIGHT_FACING | LEFT_FACING.

Definition Facing_eqb (a b : Facing) : bool :=
  match a, b with
  | RIGHT_FACING, RIGHT_FACING | LEFT_FACING, LEFT_FACING => true
  | _, _ => false
  end.

Definition LAYER_NAME_PLATFORMS : string := "Platforms".
Definition LAYER_NAME_PLATFORMS_1 : string := "Platforms_1".
Definition LAYER_NAME_PLATFORMS_2 : string := "Platforms_2".
Definition LAYER_NAME_COINS : string := "Coins".
Definition LAYER_NAME_PLAYER : string := "Player".
Definition LAYER_NAME_DECORATIONS : string := "Decorations".
Definition NON_BACKGROUND_LAYERS : list string :=
  [LAYER_NAME_PLATFORMS; LAYER_NAME_PLATFORMS_1; LAYER_NAME_PLATFORMS_2;
   LAYER_NAME_PLAYER; LAYER_NAME_COINS; LAYER_NAME_DECORATIONS].

Definition END_OF_MAP : list Q := [7.25; 12.26; 12.26; 12.26]%Q.

(** ** Textures *)

(** A loaded image, named by its file and whether it is mirrored. *)
Record Texture := Image { filename : string; flipped_horizontally : bool }.

Definition load_texture (f : string) : Texture := Image f false.

Definition load_texture_pair (f : string) : Texture * Texture :=
  (Image f false, Image f true).

(** [pair[direction]] with [RIGHT_FACING = 0] and [LEFT_FACING = 1]. *)
Definition pair_at (pr : Texture * Texture) (d : Facing) : Texture :=
  match d with RIGHT_FACING => fst pr | LEFT_FACING => snd pr end.

Definition main_path : string :=
  "resources/images/female_person_scientist/femalePerson".

Definition idle_texture_pair := load_texture_pair (main_path +:+ "_idle.png").
Definition jump_texture_pair := load_texture_pair (main_path +:+ "_jump.png").
Definition fall_texture_pair := load_texture_pair (main_path +:+ "_fall.png").

Definition walk_textures : list (Texture * Texture) :=
  (fun i => load_texture_pair (main_path +:+ "_walk" +:+ i +:+ ".png"))
    <$> ["0"; "1"; "2"; "3"; "4"; "5"; "6"; "7"].

Definition climbing_textures : list Texture :=
  [load_texture (main_path +:+ "_climb0.png");
   load_texture (main_path +:+ "_climb1.png")].

(** ** PlayerCharacter *)

Record PlayerCharacter := mkPlayer {
  center_x : Q;
  center_y : Q;
  change_x : Q;
  change_y : Q;
  (** distance from the centre to the right edge of the scaled hit box *)
  hit_box_right : Q;
  character_face_direction : Facing;
  cur_texture : Z;
  jumping : bool;
  climbing : bool;
  is_on_ladder : bool;
  (** assigned only by [on_update]; absent before the first frame *)
  can_jump : option bool;
  texture : Texture
}.

Definition set_center_x (v : Q) (p : PlayerCharacter) :=
  mkPlayer v (center_y p) (change_x p) (change_y p) (hit_box_right p)
    (character_face_direction p) (cur_texture p) (jumping p) (climbing p)
    (is_on_ladder p) (can_jump p) (texture p).
Definition set_center_y (v : Q) (p : PlayerCharacter) :=
  mkPlayer (center_x p) v (change_x p) (change_y p) (hit_box_right p)
    (character_face_direction p) (cur_texture p) (jumping p) (climbing p)
    (is_on_ladder p) (can_jump p) (texture p).
Definition set_change_x (v : Q) (p : PlayerCharacter) :=
  mkPlayer (center_x p) (center_y p) v (change_y p) (hit_box_right p)
    (character_face_direction p) (cur_texture p) (jumping p) (climbing p)
    (is_on_ladder p) (can_jump p) (texture p).
Definition set_change_y (v : Q) (p : PlayerCharacter) :=
  mkPlayer (center_x p) (center_y p) (change_x p) v (hit_box_right p)
    (character_face_direction p) (cur_texture p) (jumping p) (climbing p)
    (is_on_ladder p) (can_jump p) (texture p).
Definition set_character_face_direction (v : Facing) (p : PlayerCharacter) :=
  mkPlayer (center_x p) (center_y p) (change_x p) (change_y p)
    (hit_box_right p) v (cur_texture p) (jumping p) (climbing p)
    (is_on_ladder p) (can_jump p) (texture p).
Definition set_cur_texture (v : Z) (p : PlayerCharacter) :=
  mkPlayer (center_x p) (center_y p) (change_x p) (change_y p)
    (hit_box_right p) (character_face_direction p) v (jumping p) (climbing p)
    (is_on_ladder p) (can_jump p) (texture p).
Definition set_climbing (v : bool) (p : PlayerCharacter) :=
  mkPlayer (center_x p) (center_y p) (change_x p) (change_y p)
    (hit_box_right p) (character_face_direction p) (cur_texture p)
    (jumping p) v (is_on_ladder p) (can_jump p) (texture p).
Definition set_is_on_ladder (v : bool) (p : PlayerCharacter) :=
  mkPlayer (center_x p) (center_y p) (change_x p) (change_y p)
    (hit_box_right p) (character_face_direction p) (cur_texture p)
    (jumping p) (climbing p) v (can_jump p) (texture p).
Definition set_can_jump (v : bool) (p : PlayerCharacter) :=
  mkPlayer (center_x p) (center_y p) (change_x p) (change_y p)
    (hit_box_right p) (character_face_direction p) (cur_texture p)
    (jumping p) (climbing p) (is_on_ladder p) (Some v) (texture p).
Definition set_texture (v : Texture) (p : PlayerCharacter) :=
  mkPlayer (center_x p) (center_y p) (change_x p) (change_y p)
    (hit_box_right p) (character_face_direction p) (cur_texture p)
    (jumping p) (climbing p) (is_on_ladder p) (can_jump p) v.

(** [sprite.right]: the right edge of the hit box of an unrotated sprite. *)
Definition right (p : PlayerCharacter) : Q := center_x p + hit_box_right p.

(** [PlayerCharacter()]: a sprite at the origin, at rest, facing right, showing
    the idle texture.  [hb] is the right extent of the hit box of that
    texture, an asset of the game. *)
Definition PlayerCharacter_init (hb : Q) : PlayerCharacter :=
  {| center_x := 0; center_y := 0; change_x := 0; change_y := 0;
     hit_box_right := hb;
     character_face_direction := RIGHT_FACING;
     cur_texture := 0;
     jumping := false; climbing := false; is_on_ladder := false;
     can_jump := None;
     texture := pair_at idle_texture_pair RIGHT_FACING |}.

(** The facing test at the head of [update_animation]. *)
Definition update_facing (p : PlayerCharacter) : PlayerCharacter :=
  if Qlt_bool (change_x p) 0
     && Facing_eqb (character_face_direction p) RIGHT_FACING
  then set_character_face_direction LEFT_FACING p
  else if Qlt_bool 0 (change_x p)
          && Facing_eqb (character_face_direction p) LEFT_FACING
  then set_character_face_direction RIGHT_FACING p
  else p.

(** The two statements that bring the climbing flag up to date. *)
Definition update_climbing (p : PlayerCharacter) : PlayerCharacter :=
  let p := if is_on_ladder p then set_climbing true p else p in
  if negb (is_on_ladder p) && climbing p then set_climbing false p else p.

(** [self.cur_texture += 1; if self.cur_texture > 7: self.cur_texture = 0] *)
Definition advance_texture (p : PlayerCharacter) : PlayerCharacter :=
  let p := set_cur_texture (cur_texture p + 1) p in
  if 7 <? cur_texture p then set_cur_texture 0 p else p.

Definition update_animation (p : PlayerCharacter) : option PlayerCharacter :=
  (* Figure out if we need to flip face left or right *)
  let p := update_facing p in
  (* Climbing animation *)
  let p := update_climbing p in
  let p := if climbing p && Qlt_bool 1 (Qabs (change_y p))
           then advance_texture p else p in
  if climbing p then
    t ← py_index climbing_textures (cur_texture p / 4);
    Some (set_texture t p)
  (* Jumping animation *)
  else if Qlt_bool 0 (change_y p) && negb (is_on_ladder p) then
    Some (set_texture
            (pair_at jump_texture_pair (character_face_direction p)) p)
  else if Qlt_bool (change_y p) 0 && negb (is_on_ladder p) then
    Some (set_texture
            (pair_at fall_texture_pair (character_face_direction p)) p)
  (* Idle animation *)
  else if Qeq_bool (change_x p) 0 then
    Some (set_texture
            (pair_at idle_texture_pair (character_face_direction p)) p)
  (* Walking animation *)
  else
    let p := advance_texture p in
    pr ← py_index walk_textures (cur_texture p);
    Some (set_texture (pair_at pr (character_face_direction p)) p).

(** ** Sprites, sounds and the collaborators' answers *)

(** A tile sprite of the map.  [sprite_id] stands for the identity of the
    Python object; [left] is the double that [sprite.left] reads and that an
    assignment to [sprite.left] writes. *)
Record Sprite := mkSprite { sprite_id : nat; left : float }.

Definition set_left (v : float) (s : Sprite) : Sprite :=
  mkSprite (sprite_id s) v.

Inductive Sound := collect_coin_sound | jump_sound | victory_sound | theme_music.

(** Calls made to the audio, clock and window collaborators. *)
Inductive Effect :=
| play_sound (s : Sound) (looping : bool)
| stop_sound (s : Sound)
| sleep (seconds : Z)
| show_view_EndView.

(** What the physics engine answers at one moment: [is_on_ladder()] and
    [can_jump(y_distance)]. *)
Record Physics := mkPhysics {
  phys_is_on_ladder : bool;
  phys_can_jump : Z → bool
}.

(** What the collaborators do and answer during one [on_update]: where
    [physics_engine.update()] leaves the player, the engine's answers there,
    [camera.position[0]], and the collision test of the player against a
    sprite. *)
Record Frame := mkFrame {
  moved_center_x : Q;
  moved_center_y : Q;
  moved_change_x : Q;
  moved_change_y : Q;
  frame_physics : Physics;
  camera_position_x : float;
  check_for_collision : Sprite → bool
}.

Module key.
Inductive t :=
| UP | W | DOWN | S | LEFT | A | RIGHT | D | SPACE | OTHER (code : Z).
End key.

(** ** GameView *)

(** The view as the event loop sees it, that is once [setup] has run.  The
    scene maps a layer name to the tile sprites of that layer; the player
    object, which arcade also lists under the layer [Player], is held in
    [player_sprite] only.  [effects] has the newest call first. *)
Record GameView := mkGameView {
  left_pressed : bool;
  right_pressed : bool;
  up_pressed : bool;
  down_pressed : bool;
  jump_needs_reset : bool;
  scene : gmap string (list Sprite);
  player_sprite : PlayerCharacter;
  end_of_map : Q;
  score : Z;
  level : Z;
  max_level : Z;
  level_over : bool;
  next_level : bool;
  camera_x_prev : float;
  background_layer_names : list string;
  effects : list Effect
}.

Definition set_left_pressed (v : bool) (g : GameView) : GameView :=
  mkGameView v (right_pressed g) (up_pressed g) (down_pressed g)
    (jump_needs_reset g) (scene g) (player_sprite g) (end_of_map g) (score g)
    (level g) (max_level g) (level_over g) (next_level g) (camera_x_prev g)
    (background_layer_names g) (effects g).
Definition set_right_pressed (v : bool) (g : GameView) : GameView :=
  mkGameView (left_pressed g) v (up_pressed g) (down_pressed g)
    (jump_needs_reset g) (scene g) (player_sprite g) (end_of_map g) (score g)
    (level g) (max_level g) (level_over g) (next_level g) (camera_x_prev g)
    (background_layer_names g) (effects g).
Definition set_up_pressed (v : bool) (g : GameView) : GameView :=
  mkGameView (left_pressed g) (right_pressed g) v (down_pressed g)
    (jump_needs_reset g) (scene g) (player_sprite g) (end_of_map g) (score g)
    (level g) (max_level g) (level_over g) (next_level g) (camera_x_prev g)
    (background_layer_names g) (effects g).
Definition set_down_pressed (v : bool) (g : GameView) : GameView :=
  mkGameView (left_pressed g) (right_pressed g) (up_pressed g) v
    (jump_needs_reset g) (scene g) (player_sprite g) (end_of_map g) (score g)
    (level g) (max_level g) (level_over g) (next_level g) (camera_x_prev g)
    (background_layer_names g) (effects g).
Definition set_jump_needs_reset (v : bool) (g : GameView) : GameView :=
  mkGameView (left_pressed g) (right_pressed g) (up_pressed g)
    (down_pressed g) v (scene g) (player_sprite g) (end_of_map g) (score g)
    (level g) (max_level g) (level_over g) (next_level g) (camera_x_prev g)
    (background_layer_names g) (effects g).
Definition set_scene (v : gmap string (list Sprite)) (g : GameView) : GameView :=
  mkGameView (left_pressed g) (right_pressed g) (up_pressed g)
    (down_pressed g) (jump_needs_reset g) v (player_sprite g) (end_of_map g)
    (score g) (level g) (max_level g) (level_over g) (next_level g)
    (camera_x_prev g) (background_layer_names g) (effects g).
Definition set_player_sprite (v : PlayerCharacter) (g : GameView) : GameView :=
  mkGameView (left_pressed g) (right_pressed g) (up_pressed g)
    (down_pressed g) (jump_needs_reset g) (scene g) v (end_of_map g) (score g)
    (level g) (max_level g) (level_over g) (next_level g) (camera_x_prev g)
    (background_layer_names g) (effects g).
Definition set_end_of_map (v : Q) (g : GameView) : GameView :=
  mkGameView (left_pressed g) (right_pressed g) (up_pressed g)
    (down_pressed g) (jump_needs_reset g) (scene g) (player_sprite g) v
    (score g) (level g) (max_level g) (level_over g) (next_level g)
    (camera_x_prev g) (background_layer_names g) (effects g).
Definition set_score (v : Z) (g : GameView) : GameView :=
  mkGameView (left_pressed g) (right_pressed g) (up_pressed g)
    (down_pressed g) (jump_needs_reset g) (scene g) (player_sprite g)
    (end_of_map g) v (level g) (max_level g) (level_over g) (next_level g)
    (camera_x_prev g) (background_layer_names g) (effects g).
Definition set_level (v : Z) (g : GameView) : GameView :=
  mkGameView (left_pressed g) (right_pressed g) (up_pressed g)
    (down_pressed g) (jump_needs_reset g) (scene g) (player_sprite g)
    (end_of_map g) (score g) v (max_level g) (level_over g) (next_level g)
    (camera_x_prev g) (background_layer_names g) (effects g).
Definition set_level_over (v : bool) (g : GameView) : GameView :=
  mkGameView (left_pressed g) (right_pressed g) (up_pressed g)
    (down_pressed g) (jump_needs_reset g) (scene g) (player_sprite g)
    (end_of_map g) (score g) (level g) (max_level g) v (next_level g)
    (camera_x_prev g) (background_layer_names g) (effects g).
Definition set_next_level (v : bool) (g : GameView) : GameView :=
  mkGameView (left_pressed g) (right_pressed g) (up_pressed g)
    (down_pressed g) (jump_needs_reset g) (scene g) (player_sprite g)
    (end_of_map g) (score g) (level g) (max_level g) (level_over g) v
    (camera_x_prev g) (background_layer_names g) (effects g).
Definition set_camera_x_prev (v : float) (g : GameView) : GameView :=
  mkGameView (left_pressed g) (right_pressed g) (up_pressed g)
    (down_pressed g) (jump_needs_reset g) (scene g) (player_sprite g)
    (end_of_map g) (score g) (level g) (max_level g) (level_over g)
    (next_level g) v (background_layer_names g) (effects g).
Definition set_background_layer_names (v : list string) (g : GameView) : GameView :=
  mkGameView (left_pressed g) (right_pressed g) (up_pressed g)
    (down_pressed g) (jump_needs_reset g) (scene g) (player_sprite g)
    (end_of_map g) (score g) (level g) (max_level g) (level_over g)
    (next_level g) (camera_x_prev g) v (effects g).
Definition set_effects (v : list Effect) (g : GameView) : GameView :=
  mkGameView (left_pressed g) (right_pressed g) (up_pressed g)
    (down_pressed g) (jump_needs_reset g) (scene g) (player_sprite g)
    (end_of_map g) (score g) (level g) (max_level g) (level_over g)
    (next_level g) (camera_x_prev g) (background_layer_names g) v.

Definition emit (e : Effect) (g : GameView) : GameView :=
  set_effects (e :: effects g) g.

(** Number of [arcade.play_sound] calls made so far for the sound [s]. *)
Definition is_play (s : Sound) (e : Effect) : bool :=
  match e, s with
  | play_sound collect_coin_sound _, collect_coin_sound
  | play_sound jump_sound _, jump_sound
  | play_sound victory_sound _, victory_sound
  | play_sound theme_music _, theme_music => true
  | _, _ => false
  end.

Definition played (s : Sound) (g : GameView) : nat :=
  length (List.filter (is_play s) (effects g)).

(** *** Key handling *)

Definition process_keychange (q : Physics) (g : GameView) : GameView :=
  if negb (level_over g) then
    (* Process up/down *)
    let g :=
      if up_pressed g && negb (down_pressed g) then
        if phys_is_on_ladder q then
          set_player_sprite
            (set_change_y PLAYER_MOVEMENT_SPEED (player_sprite g)) g
        else if phys_can_jump q 10 && negb (jump_needs_reset g) then
          let g := set_player_sprite
                     (set_change_y PLAYER_JUMP_SPEED (player_sprite g)) g in
          let g := set_jump_needs_reset true g in
          emit (play_sound jump_sound false) g
        else g
      else if down_pressed g && negb (up_pressed g) then
        if phys_is_on_ladder q then
          set_player_sprite
            (set_change_y (- PLAYER_MOVEMENT_SPEED) (player_sprite g)) g
        else g
      else g in
    (* Process up/down when on a ladder and no movement *)
    let g :=
      if phys_is_on_ladder q then
        if negb (up_pressed g) && negb (down_pressed g) then
          set_player_sprite (set_change_y 0 (player_sprite g)) g
        else if up_pressed g && down_pressed g then
          set_player_sprite (set_change_y 0 (player_sprite g)) g
        else g
      else g in
    (* Process left/right *)
    if right_pressed g && negb (left_pressed g) then
      set_player_sprite
        (set_change_x PLAYER_MOVEMENT_SPEED (player_sprite g)) g
    else if left_pressed g && negb (right_pressed g) then
      set_player_sprite
        (set_change_x (- PLAYER_MOVEMENT_SPEED) (player_sprite g)) g
    else
      set_player_sprite (set_change_x 0 (player_sprite g)) g
  else g.

(** The flag a key press sets, before [process_keychange] is called. *)
Definition key_down (k : key.t) (g : GameView) : GameView :=
  match k with
  | key.UP | key.W => set_up_pressed true g
  | key.DOWN | key.S => set_down_pressed true g
  | key.LEFT | key.A => set_left_pressed true g
  | key.RIGHT | key.D => set_right_pressed true g
  | key.SPACE => if level_over g then set_next_level true g else g
  | key.OTHER _ => g
  end.

Definition on_key_press (k : key.t) (q : Physics) (g : GameView) : GameView :=
  process_keychange q (key_down k g).

(** The flags a key release clears, before [process_keychange] is called. *)
Definition key_up (k : key.t) (g : GameView) : GameView :=
  match k with
  | key.UP | key.W => set_jump_needs_reset false (set_up_pressed false g)
  | key.DOWN | key.S => set_down_pressed false g
  | key.LEFT | key.A => set_left_pressed false g
  | key.RIGHT | key.D => set_right_pressed false g
  | key.SPACE | key.OTHER _ => g
  end.

Definition on_key_release (k : key.t) (q : Physics) (g : GameView) : GameView :=
  process_keychange q (key_up k g).

(** *** Parallax *)

(** [delta / ((count + 4) * 0.25)] in doubles, [delta] being
    [self.camera_x - self.camera_x_prev]: the sum [count + 4] is an integer,
    converted for the product with [0.25].  The divisor is above zero for
    every [count], so the division never raises [ZeroDivisionError]. *)
Definition parallax_offset (delta : float) (count : nat) : float :=
  fdiv delta (fmul (float_of_Z (Z.of_nat count + 4)) QUARTER).

(** [sprite.left += delta / ((count + 4) * 0.25)] for every sprite of a
    layer. *)
Definition shift_layer (delta : float) (count : nat) (l : list Sprite) :=
  (λ s, set_left (fadd (left s) (parallax_offset delta count)) s) <$> l.

(** The body of [for count, sprite_name in enumerate(...)], from index
    [count] on.  A name missing from the scene is a [KeyError]. *)
Fixpoint parallax_from (count : nat) (names : list string) (lvl : Z)
    (delta : float) (sc : gmap string (list Sprite))
    : option (gmap string (list Sprite)) :=
  match names with
  | [] => Some sc
  | sprite_name :: rest =>
      sc ← (if (lvl =? 4) && (count =? 3)%nat then Some sc
            else l ← sc !! sprite_name;
                 Some (<[sprite_name := shift_layer delta count l]> sc));
      parallax_from (Datatypes.S count) rest lvl delta sc
  end.

(** *** Coins *)

(** [coin.remove_from_sprite_lists()]: a coin is a member of the sprite list
    of the layer [Coins] and of no other. *)
Definition remove_from_sprite_lists (coin : Sprite)
    (sc : gmap string (list Sprite)) : gmap string (list Sprite) :=
  alter (List.filter (λ s, negb (sprite_id s =? sprite_id coin)%nat))
        LAYER_NAME_COINS sc.

Definition collect (g : GameView) (coin : Sprite) : GameView :=
  let g := set_score (score g + 10) g in
  let g := set_scene (remove_from_sprite_lists coin (scene g)) g in
  emit (play_sound collect_coin_sound false) g.

(** *** Scene animation *)

(** [scene.update_animation(delta_time, names)]: every named layer must
    exist; the layer [Player] holds the player, whose [update_animation] is
    the one above; tile sprites keep their identity and position. *)
Fixpoint scene_update_animation (names : list string) (g : GameView)
    : option GameView :=
  match names with
  | [] => Some g
  | name :: rest =>
      _ ← scene g !! name;
      g ← (if String.eqb name LAYER_NAME_PLAYER
           then p ← update_animation (player_sprite g);
                Some (set_player_sprite p g)
           else Some g);
      scene_update_animation rest g
  end.

(** [scene.add_sprite(name, sprite)] for the player: the layer is created
    when the map does not have it. *)
Definition add_player_layer (sc : gmap string (list Sprite))
    : gmap string (list Sprite) :=
  match sc !! LAYER_NAME_PLAYER with
  | Some _ => sc
  | None => <[LAYER_NAME_PLAYER := []]> sc
  end.

(** [sorted([name for name in scene.name_mapping.keys()
            if name not in NON_BACKGROUND_LAYERS])] *)
Definition sorted_background_layers (sc : gmap string (list Sprite))
    : list string :=
  merge_sort String.leb
    (filter (λ name, name ∉ NON_BACKGROUND_LAYERS) (map_to_list sc).*1).

(** The player [load_level] creates and places at the start. *)
Definition start_player (hb : Q) : PlayerCharacter :=
  let player := PlayerCharacter_init hb in
  let player := set_center_x PLAYER_START_X player in
  set_center_y PLAYER_START_Y player.

Section Game.

(** The assets: the layers of the tile map of each level, and the right
    extent of the hit box of the idle texture. *)
Variable load_tilemap : Z → gmap string (list Sprite).
Variable idle_hit_box_right : Q.

Definition load_level (lvl : Z) (g : GameView) : option GameView :=
  (* Read in the tiled map *)
  let tile_map := load_tilemap lvl in
  let sc := tile_map in
  (* Set up the player *)
  let player := start_player idle_hit_box_right in
  let sc := add_player_layer sc in
  (* Calculate the right edge of the map in pixels *)
  e ← py_index END_OF_MAP (lvl - 1);
  let eom := (e * GRID_PIXEL_SIZE)%Q in
  sc ← (if 1 <? lvl then
          p ← tile_map !! LAYER_NAME_PLATFORMS;
          p1 ← tile_map !! (LAYER_NAME_PLATFORMS +:+ "_1");
          p2 ← tile_map !! (LAYER_NAME_PLATFORMS +:+ "_2");
          Some (<[LAYER_NAME_PLATFORMS := (p ++ p1 ++ p2)%list]> sc)
        else Some sc);
  (* the physics engine takes the player and the platforms *)
  _ ← tile_map !! LAYER_NAME_PLATFORMS;
  let names := sorted_background_layers sc in
  let g := set_scene sc g in
  let g := set_player_sprite player g in
  let g := set_end_of_map eom g in
  let g := set_background_layer_names names g in
  Some (set_camera_x_prev PLAYER_START_X_float g).

Definition setup (g : GameView) : option GameView :=
  g ← load_level (level g) g;
  let g := set_score 0 g in
  Some (emit (play_sound theme_music true) g).

(** [GameView()] followed by [setup()]; the scene and the player, which
    are [None] between the two calls, are filled in by [load_level]. *)
Definition GameView_init : option GameView :=
  setup {| left_pressed := false; right_pressed := false;
           up_pressed := false; down_pressed := false;
           jump_needs_reset := false;
           scene := ∅;
           player_sprite := PlayerCharacter_init idle_hit_box_right;
           end_of_map := 0;
           score := 0;
           level := 1; max_level := 4;
           level_over := false; next_level := false;
           camera_x_prev := PLAYER_START_X_float;
           background_layer_names := [];
           effects := [] |}.

(** *** The frame *)

(** The transition to the next level, taken when space was pressed. *)
Definition advance_level (g : GameView) : option GameView :=
  let g := set_level_over false g in
  let g := set_next_level false g in
  let g := set_level (level g + 1) g in
  g ← load_level (level g) g;
  let g := set_player_sprite (set_center_x SCREEN_WIDTH (player_sprite g)) g in
  let g := set_player_sprite
             (set_center_y (SCREEN_HEIGHT / 2) (player_sprite g)) g in
  let g := set_player_sprite (set_change_x 0 (player_sprite g)) g in
  Some (set_player_sprite (set_change_y 0 (player_sprite g)) g).

(** The branch of [on_update] taken at the end of the map. *)
Definition update_level (g : GameView) : option GameView :=
  let g :=
    if (level g =? 4) && negb (level_over g) then
      emit (sleep 2) (emit (play_sound victory_sound false) g)
    else g in
  if level g <? max_level g then
    let g := set_level_over true g in
    if next_level g then advance_level g else Some g
  else
    let g := emit (stop_sound theme_music) g in
    let g := set_level_over true g in
    if next_level g then Some (emit show_view_EndView g) else Some g.

(** The first part of the branch of [on_update] taken before the end of the
    map: the physics engine moves the player, the jump and ladder flags of
    the player are written, and [process_keychange] runs. *)
Definition play_moved (f : Frame) (g : GameView) : GameView :=
  (* Move the player with the physics engine *)
  let p := player_sprite g in
  let p := set_center_x (moved_center_x f) p in
  let p := set_center_y (moved_center_y f) p in
  let p := set_change_x (moved_change_x f) p in
  let p := set_change_y (moved_change_y f) p in
  let g := set_player_sprite p g in
  let q := frame_physics f in
  (* Update animations *)
  let g :=
    if phys_can_jump q 5
    then set_player_sprite (set_can_jump false (player_sprite g)) g
    else set_player_sprite (set_can_jump true (player_sprite g)) g in
  if phys_is_on_ladder q && negb (phys_can_jump q 5) then
    process_keychange q
      (set_player_sprite (set_is_on_ladder true (player_sprite g)) g)
  else
    process_keychange q
      (set_player_sprite (set_is_on_ladder false (player_sprite g)) g).

(** The layer names [on_update] hands to [scene.update_animation]. *)
Definition animated_layers (g : GameView) : list string :=
  if level g =? 1
  then [LAYER_NAME_COINS; LAYER_NAME_PLAYER; LAYER_NAME_DECORATIONS]
  else NON_BACKGROUND_LAYERS ++ background_layer_names g.

(** The branch of [on_update] taken before the end of the map. *)
Definition update_play (f : Frame) (g : GameView) : option GameView :=
  let g := play_moved f g in
  (* Parallax background *)
  let camera_x := camera_position_x f in
  g ← (if 1 <? level g then
         sc ← parallax_from 0 (background_layer_names g) (level g)
                (fsub camera_x (camera_x_prev g)) (scene g);
         Some (set_scene sc g)
       else Some g);
  let g := set_camera_x_prev camera_x g in
  (* Update Animations *)
  g ← scene_update_animation (animated_layers g) g;
  (* See if we hit any coins *)
  coins ← scene g !! LAYER_NAME_COINS;
  let coin_hit_list := List.filter (check_for_collision f) coins in
  (* Loop through each coin we hit (if any) and remove it *)
  Some (foldl collect g coin_hit_list).

Definition on_update (f : Frame) (g : GameView) : option GameView :=
  if Qle_bool (end_of_map g) (right (player_sprite g))
  then update_level g
  else update_play f g.

(** *** The event loop *)

Inductive Event :=
| KeyPress (k : key.t) (q : Physics)
| KeyRelease (k : key.t) (q : Physics)
| Update (f : Frame).

Definition step (e : Event) (g : GameView) : option GameView :=
  match e with
  | KeyPress k q => Some (on_key_press k q g)
  | KeyRelease k q => Some (on_key_release k q g)
  | Update f => on_update f g
  end.

Fixpoint run (evs : list Event) (g : GameView) : option GameView :=
  match evs with
  | [] => Some g
  | e :: evs => g ← step e g; run evs g
  end.

End Game.

(** ** Sequences of animation calls *)

(** Between two calls of [update_animation] the rest of the game sets the
    velocity and the ladder flag of the player; nothing else that the call
    reads is written outside it. *)
Record Motion := mkMotion {
  motion_change_x : Q;
  motion_change_y : Q;
  motion_is_on_ladder : bool
}.

Definition animate (m : Motion) (p : PlayerCharacter) : option PlayerCharacter :=
  update_animation
    (set_is_on_ladder (motion_is_on_ladder m)
       (set_change_y (motion_change_y m)
          (set_change_x (motion_change_x m) p))).

(** The player after each call of a sequence. *)
Fixpoint animations (ms : list Motion) (p : PlayerCharacter)
    : option (list PlayerCharacter) :=
  match ms with
  | [] => Some []
  | m :: ms => p' ← animate m p; ps ← animations ms p'; Some (p' :: ps)
  end.

Definition Texture_eqb (a b : Texture) : bool :=
  String.eqb (filename a) (filename b)
  && Bool.eqb (flipped_horizontally a) (flipped_horizontally b).

(** The texture is one of the sixteen walking images. *)
Definition is_walk_texture (t : Texture) : bool :=
  existsb (λ pr, Texture_eqb t (fst pr) || Texture_eqb t (snd pr)) walk_textures.

Definition is_climbing_texture (t : Texture) : bool :=
  existsb (Texture_eqb t) climbing_textures.

(** The climbing flags a one-call lag would give: set while the ladder flag
    is set, and still set in the first call after the ladder flag has gone.
    This follows the wording of the specification, not the code. *)
Fixpoint lagging_climbing_flags (previous : bool) (on_ladder : list bool)
    : list bool :=
  match on_ladder with
  | [] => []
  | o :: rest => (o || previous) :: lagging_climbing_flags o rest
  end.

(** The player moved to the re-entry point and stopped, the same object
    otherwise.  This follows the wording of the specification, not the
    code. *)
Definition repositioned (p : PlayerCharacter) : PlayerCharacter :=
  set_change_y 0 (set_change_x 0
    (set_center_y (SCREEN_HEIGHT / 2) (set_center_x SCREEN_WIDTH p))).

(** The value of the frame counter after
    [self.cur_texture += 1; if self.cur_texture > 7: self.cur_texture = 0]. *)
Definition next_cur_texture (c : Z) : Z := if 7 <? c + 1 then 0 else c + 1.

(** The tests that lead [update_animation] to its walking branch once the
    player is off the ladder: no vertical velocity, some horizontal one. *)
Definition walks (p : PlayerCharacter) : bool :=
  negb (Qlt_bool 0 (change_y p)) && negb (Qlt_bool (change_y p) 0)
  && negb (Qeq_bool (change_x p) 0).

(** The frame counter moves in this call: the walking pose was selected with
    a horizontal velocity, or the player climbs with a vertical speed above
    one. *)
Definition animation_advances (after : PlayerCharacter) : Prop :=
  (¬ (change_x after == 0)%Q ∧ is_walk_texture (texture after) = true)
  ∨ (climbing after = true ∧ (1 < Qabs (change_y after))%Q).

(** ** Reading events and states *)

Definition is_up_key (k : key.t) : bool :=
  match k with key.UP | key.W => true | _ => false end.

Definition is_up_press (e : Event) : bool :=
  match e with KeyPress k _ => is_up_key k | _ => false end.

Definition is_up_release (e : Event) : bool :=
  match e with KeyRelease k _ => is_up_key k | _ => false end.

Definition is_space_press (e : Event) : bool :=
  match e with KeyPress key.SPACE _ => true | _ => false end.

Definition is_update (e : Event) : bool :=
  match e with Update _ => true | _ => false end.

(** The test at the head of [on_update]. *)
Definition reached_end_of_map (g : GameView) : bool :=
  Qle_bool (end_of_map g) (right (player_sprite g)).

(** The sprite list of the layer [Coins]. *)
Definition coins (g : GameView) : list Sprite :=
  default [] (scene g !! LAYER_NAME_COINS).

(** The tests under which [process_keychange] takes its jump branch. *)
Definition jumps (q : Physics) (g : GameView) : bool :=
  negb (level_over g) && up_pressed g && negb (down_pressed g)
  && negb (phys_is_on_ladder q) && phys_can_jump q 10
  && negb (jump_needs_reset g).

(** The vertical velocity [process_keychange] leaves when the level is not
    over. *)
Definition keychange_change_y (q : Physics) (g : GameView) : Q :=
  if phys_is_on_ladder q then
    if up_pressed g && negb (down_pressed g) then PLAYER_MOVEMENT_SPEED
    else if down_pressed g && negb (up_pressed g)
         then (- PLAYER_MOVEMENT_SPEED)%Q
         else 0%Q
  else if jumps q g then PLAYER_JUMP_SPEED
  else change_y (player_sprite g).

(** The horizontal velocity [process_keychange] leaves when the level is not
    over. *)
Definition keychange_change_x (g : GameView) : Q :=
  if right_pressed g && negb (left_pressed g) then PLAYER_MOVEMENT_SPEED
  else if left_pressed g && negb (right_pressed g)
       then (- PLAYER_MOVEMENT_SPEED)%Q
       else 0%Q.

(** Two states agree on everything but the five input flags
    ([left_pressed], [right_pressed], [up_pressed], [down_pressed],
    [jump_needs_reset]) and [next_level]. *)
Definition same_outside_input (g g' : GameView) : Prop :=
  player_sprite g' = player_sprite g ∧ scene g' = scene g
  ∧ end_of_map g' = end_of_map g ∧ score g' = score g
  ∧ level g' = level g ∧ max_level g' = max_level g
  ∧ level_over g' = level_over g ∧ camera_x_prev g' = camera_x_prev g
  ∧ background_layer_names g' = background_layer_names g
  ∧ effects g' = effects g.

(** The jump branch of [process_keychange] is taken in this event. *)
Definition jumped (e : Event) (g : GameView) : bool :=
  match e with
  | KeyPress k q => jumps q (key_down k g)
  | KeyRelease k q => jumps q (key_up k g)
  | Update f => negb (reached_end_of_map g) && jumps (frame_physics f) g
  end.





(** The states the game keeps to once a level is loaded from a map that has
    the layers the code names: the frame counter of the player is in [0,7];
    the background layers are distinct, none of them is a foreground layer,
    and each is in the scene; the layers that are animated are in the scene;
    the coins are distinct objects. *)
Definition well_formed (g : GameView) : Prop :=
  (0 ≤ cur_texture (player_sprite g) ≤ 7)
  ∧ NoDup (background_layer_names g)
  ∧ Forall (λ name,
              (name ∉ NON_BACKGROUND_LAYERS) ∧ is_Some (scene g !! name))
      (background_layer_names g)
  ∧ Forall (λ name, is_Some (scene g !! name)) (animated_layers g)
  ∧ NoDup (sprite_id <$> coins g).

(** What the coin theorem asks of a state: the layer [Coins] is not among
    the background layers, and its sprites are distinct objects. *)
Definition coins_well_formed (g : GameView) : Prop :=
  (LAYER_NAME_COINS ∉ background_layer_names g)
  ∧ NoDup (sprite_id <$> coins g).

(** ** States of a running game *)

(** What holds of the flags whenever the game runs: an advance is requested
    only while the level is over, the level is over only with the player at
    the end of the map, the jump latch is closed only while up is held, and
    the level number is between 1 and the last level. *)
Definition consistent (g : GameView) : Prop :=
  (next_level g = true → level_over g = true)
  ∧ (level_over g = true → reached_end_of_map g = true)
  ∧ (jump_needs_reset g = true → up_pressed g = true)
  ∧ 1 ≤ level g ≤ max_level g.

(** The map of level [lvl] has the layers the code looks up by name, and its
    coins are distinct objects. *)
Definition map_loads (tm : gmap string (list Sprite)) (lvl : Z) : Prop :=
  is_Some (tm !! LAYER_NAME_PLATFORMS)
  ∧ is_Some (tm !! LAYER_NAME_COINS)
  ∧ is_Some (tm !! LAYER_NAME_DECORATIONS)
  ∧ (1 < lvl → is_Some (tm !! LAYER_NAME_PLATFORMS_1)
               ∧ is_Some (tm !! LAYER_NAME_PLATFORMS_2))
  ∧ NoDup (sprite_id <$> default [] (tm !! LAYER_NAME_COINS)).

(** A well-formed state of a game of four levels. *)
Definition playable (g : GameView) : Prop :=
  well_formed g ∧ 1 ≤ level g ≤ 4 ∧ max_level g = 4.

(** The number of times the end view was shown. *)
Definition is_show_view (e : Effect) : bool :=
  match e with show_view_EndView => true | _ => false end.

Definition shown_EndView (g : GameView) : nat :=
  length (List.filter is_show_view (effects g)).

(** The key events of one group of keys ([UP]/[W], [DOWN]/[S], [LEFT]/[A],
    [RIGHT]/[D]): the flag the group writes, and whether an event is a
    press or a release of a key of the group. *)
Inductive Direction := dir_up | dir_down | dir_left | dir_right.

Definition direction_of (k : key.t) : option Direction :=
  match k with
  | key.UP | key.W => Some dir_up
  | key.DOWN | key.S => Some dir_down
  | key.LEFT | key.A => Some dir_left
  | key.RIGHT | key.D => Some dir_right
  | _ => None
  end.

Definition Direction_eqb (a b : Direction) : bool :=
  match a, b with
  | dir_up, dir_up | dir_down, dir_down
  | dir_left, dir_left | dir_right, dir_right => true
  | _, _ => false
  end.

Definition moves (d : Direction) (k : key.t) : bool :=
  match direction_of k with
  | Some d' => Direction_eqb d d'
  | None => false
  end.

Definition pressed (d : Direction) (g : GameView) : bool :=
  match d with
  | dir_up => up_pressed g
  | dir_down => down_pressed g
  | dir_left => left_pressed g
  | dir_right => right_pressed g
  end.

(** The flag of direction [d] once the events [evs] have been handled, when
    it was [b] before: the last press or release of a key of the group
    decides. *)
Fixpoint held_after (d : Direction) (evs : list Event) (b : bool) : bool :=
  match evs with
  | [] => b
  | KeyPress k _ :: evs =>
      held_after d evs
        (if moves d k then true else b)
  | KeyRelease k _ :: evs =>
      held_after d evs
        (if moves d k then false else b)
  | Update _ :: evs => held_after d evs b
  end.

(** ** The camera *)

(** [center_camera_to_player]: the point handed to [camera.move_to], for a
    camera with the given viewport. *)
Definition center_camera_to_player (viewport_width viewport_height : Q)
    (g : GameView) : Q * Q :=
  let screen_center_x :=
    (center_x (player_sprite g) - viewport_width / 2)%Q in
  let screen_center_y :=
    (center_y (player_sprite g) - viewport_height / 2)%Q in
  let screen_center_x :=
    if Qlt_bool screen_center_x 0 then 0%Q else screen_center_x in
  let screen_center_y :=
    if Qlt_bool screen_center_y 0 then 0%Q else screen_center_y in
  (screen_center_x, screen_center_y).

(** ** Drawing *)

Inductive Color := BLACK | WHITE.

(** A text object of the layer [Text] of a map file, with the attributes
    [on_draw] computes with. *)
Record TiledObject := mkTiledObject {
  t_text : string;
  t_font_family : string;
  t_coordinates : Q * Q
}.

Inductive HudText :=
| Score (score : Z)
| Well_done (score : Z)
| Press_space.

(** The drawing calls of [on_draw], in order. *)
Inductive Drawn :=
| scene_draw
| scene_draw_Player
| draw_map_text (text : string) (x y : Q) (font : string)
| draw_text (text : HudText) (x y : Q) (color : Color) (font_size : Z).

Definition y_scale : list Q := [0.62; 1; 1; 1.3]%Q.

(** [GameView.on_draw]; [text_objects] are the objects of the layer [Text]
    that [parse] reads from the map file of the level. *)
Definition on_draw (text_objects : list TiledObject) (g : GameView)
    : option (list Drawn) :=
  (* Determine font color *)
  let font_color := if level g =? 1 then BLACK else WHITE in
  (* Manually draw text *)
  texts ← mapM (λ t_obj,
             let font :=
               if String.eqb (t_font_family t_obj) "Chalkduster"
               then "Chalkduster" else "American Typewriter" in
             s ← py_index y_scale (level g - 1);
             Some (draw_map_text (t_text t_obj)
                     (fst (t_coordinates t_obj) / 32
                      * GRID_PIXEL_SIZE / TILE_SCALING)%Q
                     (snd (t_coordinates t_obj) / 32
                      * GRID_PIXEL_SIZE / TILE_SCALING * s)%Q
                     font))
            text_objects;
  (* Draw our score on the screen *)
  let score_text := draw_text (Score (score g)) 10 10 font_color 18 in
  let over :=
    if level_over g then
      ((if level g =? 4
        then [draw_text (Well_done (score g))
                (SCREEN_WIDTH / 2) (3 * SCREEN_HEIGHT / 4) font_color 30]
        else [])
       ++ [draw_text Press_space
             (SCREEN_WIDTH / 2) (SCREEN_HEIGHT / 2) font_color 30])%list
    else [] in
  Some ([scene_draw] ++ texts ++ [scene_draw_Player; score_text] ++ over)%list.

(** ** The fading views *)

Definition FADE_RATE : Z := 5.

Record FadingView := mkFadingView {
  fade_out : option Z;
  fade_in : option Z
}.

Definition FadingView_init : FadingView :=
  {| fade_out := None; fade_in := Some 255 |}.

(** [update_fade(next_view)]: the view after the call and the view that was
    shown, if one was.  [next_view] is the result of [next_view()] followed
    by [setup()], which raises when the level does not load. *)
Definition update_fade {V : Type} (next_view : option (option V))
    (v : FadingView) : option (FadingView * option V) :=
  '(v, shown) ←
    match fade_out v with
    | Some o =>
        let v := mkFadingView (Some (o + FADE_RATE)) (fade_in v) in
        match fade_out v, next_view with
        | Some o, Some make =>
            if 255 <? o
            then game_view ← make; Some (v, Some game_view)
            else Some (v, None)
        | _, _ => Some (v, None)
        end
    | None => Some (v, None)
    end;
  let v :=
    match fade_in v with
    | Some i =>
        let v := mkFadingView (fade_out v) (Some (i - FADE_RATE)) in
        if i - FADE_RATE <=? 0 then mkFadingView (fade_out v) None else v
    | None => v
    end in
  Some (v, shown).

(** [draw_fading]: the alpha values of the black rectangles drawn over the
    view. *)
Definition draw_fading (v : FadingView) : list Z :=
  (match fade_out v with Some a => [a] | None => [] end)
  ++ (match fade_in v with Some a => [a] | None => [] end).

(** [on_key_press] of [StartView], [EndView] and [EndView2], which have the
    same text. *)
Definition menu_on_key_press (k : key.t) (v : FadingView) : FadingView :=
  match fade_out v, k with
  | None, key.SPACE => mkFadingView (Some 0) (fade_in v)
  | _, _ => v
  end.

(** ** The window *)

(** The view the window shows. *)
Inductive View :=
| StartView (v : FadingView)
| Game (g : GameView)
| EndView (v : FadingView)
| EndView2 (v : FadingView).

(** The calls [g'] has added to the effect log of [g] hold
    [window.show_view(end_view)]. *)
Definition shows_EndView (g g' : GameView) : bool :=
  existsb is_show_view
    (take (length (effects g') - length (effects g)) (effects g')).

Section Window.

Variable load_tilemap : Z → gmap string (list Sprite).
Variable idle_hit_box_right : Q.

(** [on_update] of the view that is shown. *)
Definition View_on_update (f : Frame) (w : View) : option View :=
  match w with
  | StartView v =>
      '(v, shown) ←
        update_fade
          (Some (g ← GameView_init load_tilemap idle_hit_box_right;
                 Some (Game g))) v;
      Some (default (StartView v) shown)
  | Game g =>
      g' ← on_update load_tilemap idle_hit_box_right f g;
      Some (if shows_EndView g g' then EndView FadingView_init else Game g')
  | EndView v =>
      '(v, shown) ← update_fade (Some (Some (EndView2 FadingView_init))) v;
      Some (default (EndView v) shown)
  | EndView2 v =>
      '(v, shown) ← update_fade (Some (Some (StartView FadingView_init))) v;
      Some (default (EndView2 v) shown)
  end.

(** The window hands an event to the view it shows; a menu view has no
    handler for a key release. *)
Definition window_step (e : Event) (w : View) : option View :=
  match e with
  | Update f => View_on_update f w
  | KeyPress k q =>
      match w with
      | StartView v => Some (StartView (menu_on_key_press k v))
      | Game g => Some (Game (on_key_press k q g))
      | EndView v => Some (EndView (menu_on_key_press k v))
      | EndView2 v => Some (EndView2 (menu_on_key_press k v))
      end
  | KeyRelease k q =>
      match w with
      | Game g => Some (Game (on_key_release k q g))
      | _ => Some w
      end
  end.

Fixpoint window_run (evs : list Event) (w : View) : option View :=
  match evs with
  | [] => Some w
  | e :: evs => w ← window_step e w; window_run evs w
  end.

End Window.

(** [main]: the window opens on the start view. *)
Definition main : View := StartView FadingView_init.

(** The fading state of a menu view. *)
Definition fading (w : View) : option FadingView :=
  match w with
  | StartView v | EndView v | EndView2 v => Some v
  | Game _ => None
  end.

(** What a list of drawing calls shows of the texts at the end of a
    level. *)
Definition draws_well_done (l : list Drawn) : bool :=
  existsb (λ d, match d with
                | draw_text (Well_done _) _ _ _ _ => true
                | _ => false
                end) l.

Definition draws_press_space (l : list Drawn) : bool :=
  existsb (λ d, match d with
                | draw_text Press_space _ _ _ _ => true
                | _ => false
                end) l.

(** The score a list of drawing calls displays, in the order drawn. *)
Definition drawn_scores (l : list Drawn) : list Z :=
  omap (λ d, match d with
             | draw_text (Score s) _ _ _ _
             | draw_text (Well_done s) _ _ _ _ => Some s
             | _ => None
             end) l.

(** [n] calls of [update_fade] on a view that stays shown. *)
Fixpoint update_fade_times {V : Type} (next_view : option (option V))
    (n : nat) (v : FadingView) : option FadingView :=
  match n with
  | O => Some v
  | S n => '(v, _) ← update_fade next_view v; update_fade_times next_view n v
  end.

Definition count_updates (evs : list Event) : nat :=
  length (List.filter is_update evs).

(** The menu view [w] with the fading state [v]. *)
Definition with_fading (v : FadingView) (w : View) : View :=
  match w with
  | StartView _ => StartView v
  | EndView _ => EndView v
  | EndView2 _ => EndView2 v
  | Game g => Game g
  end.

(** What holds of the view the window shows: a game is in a consistent
    state of a game of four levels, with a score that is not negative, and
    has not shown the end view; a menu view draws its fading rectangles
    with alpha values that are colour components. *)
Definition window_ok (w : View) : Prop :=
  match w with
  | Game g =>
      consistent g ∧ max_level g = 4 ∧ 0 ≤ score g
      ∧ shown_EndView g = 0%nat
  | StartView v | EndView v | EndView2 v =>
      Forall (λ a, 0 ≤ a ≤ 255) (draw_fading v)
  end.

(** ** A small game to run the definitions on *)

Module Demo.

(** Every level has the layers the code asks for, two coins and five
    background layers, which sort as Clouds, Hills, Mountains, Sky, Trees. *)
Definition tilemap (lvl : Z) : gmap string (list Sprite) :=
  list_to_map
    [("Platforms", [mkSprite 0 0]);
     ("Platforms_1", [mkSprite 1 512]);
     ("Platforms_2", [mkSprite 2 1024]);
     ("Coins", [mkSprite 10 600; mkSprite 11 900]);
     ("Decorations", []);
     ("Mountains", [mkSprite 20 0]);
     ("Clouds", [mkSprite 21 0; mkSprite 22 2048]);
     ("Hills", [mkSprite 23 0]);
     ("Sky", [mkSprite 24 0]);
     ("Trees", [mkSprite 25 0])].

Definition hit_box : Q := 40.

(** The player stands on the ground, away from any ladder. *)
Definition grounded : Physics := mkPhysics false (λ _, true).

(** The player hangs on a ladder. *)
Definition on_ladder : Physics := mkPhysics true (λ _, false).

(** A frame in which the physics engine leaves the player at rest at [x],
    the camera is at [cam] and the player touches the sprites with the
    identities [hit]. *)
Definition frame (x : Q) (cam : float) (hit : list nat) : Frame :=
  mkFrame x 162.5 0 0 grounded cam
    (λ s, bool_decide (sprite_id s ∈ hit)).

(** Level [lvl] as [load_level] leaves it, with the player at rest at [x]. *)
Definition playing (lvl : Z) (x : Q) : GameView :=
  {| left_pressed := false; right_pressed := false;
     up_pressed := false; down_pressed := false;
     jump_needs_reset := false;
     scene := add_player_layer (tilemap lvl);
     player_sprite := set_center_x x (start_player hit_box);
     end_of_map := (12.26 * GRID_PIXEL_SIZE)%Q;
     score := 0;
     level := lvl; max_level := 4;
     level_over := false; next_level := false;
     camera_x_prev := PLAYER_START_X_float;
     background_layer_names :=
       sorted_background_layers (add_player_layer (tilemap lvl));
     effects := [play_sound theme_music true] |}.

End Demo.

(** * Properties *)

(** ** Doubles *)










(** ** [update_animation] *)

Lemma Qlt_bool_iff (x y : Q) : Qlt_bool x y = true ↔ (x < y)%Q.
Proof.
  unfold Qlt_bool. rewrite negb_true_iff. split.
  - intros H. apply Qnot_le_lt. intros Hle.
    apply Qle_bool_iff in Hle. congruence.
  - intros H. destruct (Qle_bool y x) eqn:E; [|done].
    apply Qle_bool_iff in E. exfalso. exact (Qlt_not_le _ _ H E).
Qed.

Lemma Qlt_bool_false_iff (x y : Q) : Qlt_bool x y = false ↔ (y <= x)%Q.
Proof.
  unfold Qlt_bool. rewrite negb_false_iff. apply Qle_bool_iff.
Qed.

Lemma next_cur_texture_mod (c : Z) :
  0 ≤ c ≤ 7 → next_cur_texture c = (c + 1) mod 8 ∧ 0 ≤ next_cur_texture c ≤ 7.
Proof.
  intros Hc. unfold next_cur_texture.
  destruct (Z.ltb_spec 7 (c + 1)).
  - assert (c = 7) as -> by lia. done.
  - rewrite Z.mod_small by lia. lia.
Qed.

Lemma advance_texture_cur (p : PlayerCharacter) :
  cur_texture (advance_texture p) = next_cur_texture (cur_texture p).
Proof.
  unfold advance_texture, next_cur_texture. simpl.
  by destruct (7 <? cur_texture p + 1).
Qed.

Lemma small_cases (c : Z) :
  0 ≤ c ≤ 7 →
  c = 0 ∨ c = 1 ∨ c = 2 ∨ c = 3 ∨ c = 4 ∨ c = 5 ∨ c = 6 ∨ c = 7.
Proof. lia. Qed.

Lemma climbing_textures_index (c : Z) :
  0 ≤ c ≤ 7 →
  ∃ t, py_index climbing_textures (c / 4) = Some t
       ∧ is_climbing_texture t = true ∧ is_walk_texture t = false.
Proof.
  intros Hc. destruct (small_cases c Hc) as [->|[->|[->|[->|[->|[->|[->| ->]]]]]]];
    vm_compute; eauto.
Qed.

Lemma walk_textures_index (c : Z) (d : Facing) :
  0 ≤ c ≤ 7 →
  ∃ pr, py_index walk_textures c = Some pr
        ∧ is_walk_texture (pair_at pr d) = true
        ∧ is_climbing_texture (pair_at pr d) = false.
Proof.
  intros Hc. destruct (small_cases c Hc) as [->|[->|[->|[->|[->|[->|[->| ->]]]]]]];
    destruct d; vm_compute; eauto.
Qed.

Lemma update_facing_fields (p : PlayerCharacter) :
  change_x (update_facing p) = change_x p
  ∧ change_y (update_facing p) = change_y p
  ∧ is_on_ladder (update_facing p) = is_on_ladder p
  ∧ climbing (update_facing p) = climbing p
  ∧ cur_texture (update_facing p) = cur_texture p
  ∧ center_x (update_facing p) = center_x p
  ∧ center_y (update_facing p) = center_y p
  ∧ hit_box_right (update_facing p) = hit_box_right p.
Proof.
  unfold update_facing.
  destruct (_ && _); [done|]. by destruct (_ && _).
Qed.

Lemma update_climbing_fields (p : PlayerCharacter) :
  climbing (update_climbing p) = is_on_ladder p
  ∧ change_x (update_climbing p) = change_x p
  ∧ change_y (update_climbing p) = change_y p
  ∧ is_on_ladder (update_climbing p) = is_on_ladder p
  ∧ cur_texture (update_climbing p) = cur_texture p
  ∧ character_face_direction (update_climbing p) = character_face_direction p
  ∧ center_x (update_climbing p) = center_x p
  ∧ center_y (update_climbing p) = center_y p
  ∧ hit_box_right (update_climbing p) = hit_box_right p.
Proof.
  unfold update_climbing.
  destruct (is_on_ladder p) eqn:Hl; simpl; rewrite ?Hl; simpl.
  - done.
  - destruct (climbing p) eqn:Hc; simpl; rewrite ?Hl, ?Hc; done.
Qed.

Lemma advance_texture_fields (p : PlayerCharacter) :
  climbing (advance_texture p) = climbing p
  ∧ change_x (advance_texture p) = change_x p
  ∧ change_y (advance_texture p) = change_y p
  ∧ is_on_ladder (advance_texture p) = is_on_ladder p
  ∧ character_face_direction (advance_texture p) = character_face_direction p
  ∧ center_x (advance_texture p) = center_x p
  ∧ center_y (advance_texture p) = center_y p
  ∧ hit_box_right (advance_texture p) = hit_box_right p.
Proof.
  unfold advance_texture. simpl. by destruct (7 <? _).
Qed.

Lemma update_animation_step (p : PlayerCharacter) :
  0 ≤ cur_texture p ≤ 7 →
  ∃ p', update_animation p = Some p'
    ∧ change_x p' = change_x p ∧ change_y p' = change_y p
    ∧ is_on_ladder p' = is_on_ladder p
    ∧ center_x p' = center_x p ∧ center_y p' = center_y p
    ∧ hit_box_right p' = hit_box_right p
    ∧ character_face_direction p'
      = character_face_direction (update_facing p)
    ∧ climbing p' = is_on_ladder p
    ∧ 0 ≤ cur_texture p' ≤ 7
    ∧ (if is_on_ladder p then
         is_climbing_texture (texture p') = true
         ∧ is_walk_texture (texture p') = false
         ∧ cur_texture p'
           = (if Qlt_bool 1 (Qabs (change_y p))
              then next_cur_texture (cur_texture p) else cur_texture p)
       else
         is_climbing_texture (texture p') = false
         ∧ is_walk_texture (texture p') = walks p
         ∧ cur_texture p'
           = (if walks p
              then next_cur_texture (cur_texture p) else cur_texture p)).
Proof.
  intros Hc. unfold update_animation, walks.
  destruct (update_facing_fields p) as (Fx & Fy & Fl & Fc & Ft & Fcx & Fcy & Fh).
  set (p1 := update_facing p) in *.
  destruct (update_climbing_fields p1)
    as (Cc & Cx & Cy & Cl & Ct & Cf & Ccx & Ccy & Ch).
  set (p2 := update_climbing p1) in *.
  destruct (advance_texture_fields p2)
    as (Ac & Ax & Ay & Al & Af & Acx & Acy & Ah).
  pose proof (advance_texture_cur p2) as At.
  destruct (next_cur_texture_mod _ Hc) as [_ Hn].
  assert (Hfin : ∀ t q, 
    (q = p2 ∨ q = advance_texture p2) →
    change_x (set_texture t q) = change_x p
    ∧ change_y (set_texture t q) = change_y p
    ∧ is_on_ladder (set_texture t q) = is_on_ladder p
    ∧ center_x (set_texture t q) = center_x p
    ∧ center_y (set_texture t q) = center_y p
    ∧ hit_box_right (set_texture t q) = hit_box_right p
    ∧ character_face_direction (set_texture t q)
      = character_face_direction p1
    ∧ climbing (set_texture t q) = is_on_ladder p).
  { intros t q [-> | ->]; simpl;
      rewrite ?Ac, ?Ax, ?Ay, ?Al, ?Af, ?Acx, ?Acy, ?Ah;
      rewrite Cc, Cx, Cy, Cl, Cf, Ccx, Ccy, Ch; done. }
  rewrite Cc, Fl.
  destruct (is_on_ladder p) eqn:Hl; cbn [andb negb]; rewrite ?Cy, ?Fy.
  - (* on the ladder: the climbing pose *)
    destruct (Qlt_bool 1 (Qabs (change_y p))) eqn:Hdy.
    + rewrite Ac, Cc, Fl.
      destruct (climbing_textures_index (cur_texture (advance_texture p2)))
        as (t & -> & Ht1 & Ht2).
      { rewrite At, Ct, Ft. done. }
      simpl. eexists. split; [done|].
      destruct (Hfin t (advance_texture p2)) as (?&?&?&?&?&?&?&?); [by right|].
      simpl (cur_texture _). simpl (texture _). rewrite At, Ct, Ft.
      repeat split; try done; lia.
    + rewrite Cc, Fl.
      destruct (climbing_textures_index (cur_texture p2)) as (t & -> & Ht1 & Ht2).
      { rewrite Ct, Ft. done. }
      simpl. eexists. split; [done|].
      destruct (Hfin t p2) as (?&?&?&?&?&?&?&?); [by left|].
      simpl (cur_texture _). simpl (texture _). rewrite Ct, Ft.
      repeat split; try done; lia.
  - (* off the ladder *)
    rewrite ?Cc, ?Fl, ?Cl, ?Fl. simpl.
    rewrite ?andb_true_r, ?Cy, ?Fy, ?Cx, ?Fx.
    destruct (Qlt_bool 0 (change_y p)) eqn:Hup; simpl.
    { eexists. split; [done|].
      destruct (Hfin (pair_at jump_texture_pair (character_face_direction p2)) p2)
        as (?&?&?&?&?&?&?&?); [by left|].
      simpl (cur_texture _). simpl (texture _). rewrite Ct, Ft.
      repeat split; try done; try lia; by destruct (character_face_direction p2). }
    destruct (Qlt_bool (change_y p) 0) eqn:Hdown; simpl.
    { eexists. split; [done|].
      destruct (Hfin (pair_at fall_texture_pair (character_face_direction p2)) p2)
        as (?&?&?&?&?&?&?&?); [by left|].
      simpl (cur_texture _). simpl (texture _). rewrite Ct, Ft.
      repeat split; try done; try lia; by destruct (character_face_direction p2). }
    destruct (Qeq_bool (change_x p) 0) eqn:Hx; simpl.
    { eexists. split; [done|].
      destruct (Hfin (pair_at idle_texture_pair (character_face_direction p2)) p2)
        as (?&?&?&?&?&?&?&?); [by left|].
      simpl (cur_texture _). simpl (texture _). rewrite Ct, Ft.
      repeat split; try done; try lia; by destruct (character_face_direction p2). }
    destruct (walk_textures_index (cur_texture (advance_texture p2))
                (character_face_direction (advance_texture p2)))
      as (pr & -> & Ht1 & Ht2).
    { rewrite At, Ct, Ft. done. }
    simpl. eexists. split; [done|].
    destruct (Hfin (pair_at pr (character_face_direction (advance_texture p2)))
                (advance_texture p2)) as (?&?&?&?&?&?&?&?); [by right|].
    simpl (cur_texture _). simpl (texture _). rewrite At, Ct, Ft.
    repeat split; try done; lia.
Qed.

(** Whatever the frame counter, a call that returns has put the facing and
    the climbing flag where the first two blocks of the method put them. *)
Lemma update_animation_flags (p p' : PlayerCharacter) :
  update_animation p = Some p' →
  character_face_direction p' = character_face_direction (update_facing p)
  ∧ climbing p' = is_on_ladder p
  ∧ is_on_ladder p' = is_on_ladder p
  ∧ change_x p' = change_x p
  ∧ change_y p' = change_y p.
Proof.
  unfold update_animation.
  destruct (update_facing_fields p) as (Fx & Fy & Fl & Fc & Ft & Fcx & Fcy & Fh).
  set (p1 := update_facing p) in *.
  destruct (update_climbing_fields p1)
    as (Cc & Cx & Cy & Cl & Ct & Cf & Ccx & Ccy & Ch).
  set (p2 := update_climbing p1) in *.
  destruct (advance_texture_fields p2)
    as (Ac & Ax & Ay & Al & Af & Acx & Acy & Ah).
  set (p3 := if climbing p2 && Qlt_bool 1 (Qabs (change_y p2))
             then advance_texture p2 else p2).
  assert (H3 : character_face_direction p3 = character_face_direction p1
               ∧ climbing p3 = is_on_ladder p
               ∧ is_on_ladder p3 = is_on_ladder p
               ∧ change_x p3 = change_x p ∧ change_y p3 = change_y p).
  { subst p3. destruct (_ && _);
      rewrite ?Ac, ?Ax, ?Ay, ?Al, ?Af, Cc, Cx, Cy, Cl, Cf, Fx, Fy, Fl; done. }
  destruct H3 as (Hf & Hc & Hl & Hx & Hy).
  destruct (advance_texture_fields p3)
    as (Bc & Bx & By & Bl & Bf & _).
  assert (Hq : ∀ t q, q = p3 ∨ q = advance_texture p3 →
    character_face_direction (set_texture t q)
    = character_face_direction p1
    ∧ climbing (set_texture t q) = is_on_ladder p
    ∧ is_on_ladder (set_texture t q) = is_on_ladder p
    ∧ change_x (set_texture t q) = change_x p
    ∧ change_y (set_texture t q) = change_y p).
  { intros t q [-> | ->]; simpl;
      rewrite ?Bc, ?Bx, ?By, ?Bl, ?Bf, Hf, Hc, Hl, Hx, Hy; done. }
  clear - Hq. intros H.
  repeat match type of H with
         | (if ?b then _ else _) = _ => destruct b
         | (?m ≫= _) = _ => destruct m; simpl in H
         end;
    try discriminate; injection H as <-; apply Hq; auto.
Qed.

Lemma sign_cases (x : Q) :
  ((x < 0)%Q ∧ Qlt_bool x 0 = true ∧ Qlt_bool 0 x = false)
  ∨ ((0 < x)%Q ∧ Qlt_bool x 0 = false ∧ Qlt_bool 0 x = true)
  ∨ ((x == 0)%Q ∧ Qlt_bool x 0 = false ∧ Qlt_bool 0 x = false).
Proof.
  destruct (Qlt_le_dec x 0) as [Hn | Hn];
    [| destruct (Qlt_le_dec 0 x) as [Hp | Hp]].
  - left. split; [done|]. split; [by apply Qlt_bool_iff|].
    apply Qlt_bool_false_iff. by apply Qlt_le_weak.
  - right; left. split; [done|]. split; [|by apply Qlt_bool_iff].
    apply Qlt_bool_false_iff. by apply Qlt_le_weak.
  - right; right. split; [by apply Qle_antisym|].
    split; by apply Qlt_bool_false_iff.
Qed.

Lemma Qlt_both_absurd (x : Q) : (x < 0)%Q → (0 < x)%Q → False.
Proof. intros H1 H2. exact (Qlt_irrefl _ (Qlt_trans _ _ _ H1 H2)). Qed.

Lemma Qlt_zero_absurd_l (x : Q) : (x < 0)%Q → (x == 0)%Q → False.
Proof. intros H1 H2. rewrite H2 in H1. exact (Qlt_irrefl _ H1). Qed.

Lemma Qlt_zero_absurd_r (x : Q) : (0 < x)%Q → (x == 0)%Q → False.
Proof. intros H1 H2. rewrite H2 in H1. exact (Qlt_irrefl _ H1). Qed.

(** C9.  When a call of [update_animation] returns, the facing has gone to
    Left if the player moved left while facing Right, to Right if the player
    moved right while facing Left, and is the same in every other case; so it
    never changes while the horizontal velocity is zero. *)
Theorem facing_flips_only_against_motion (p p' : PlayerCharacter) :
  update_animation p = Some p' →
  ((change_x p < 0)%Q → character_face_direction p = RIGHT_FACING →
     character_face_direction p' = LEFT_FACING)
  ∧ ((0 < change_x p)%Q → character_face_direction p = LEFT_FACING →
     character_face_direction p' = RIGHT_FACING)
  ∧ (character_face_direction p' ≠ character_face_direction p →
     ((change_x p < 0)%Q ∧ character_face_direction p = RIGHT_FACING
      ∧ character_face_direction p' = LEFT_FACING)
     ∨ ((0 < change_x p)%Q ∧ character_face_direction p = LEFT_FACING
        ∧ character_face_direction p' = RIGHT_FACING))
  ∧ ((change_x p == 0)%Q →
     character_face_direction p' = character_face_direction p).
Proof.
  intros H. apply update_animation_flags in H as (-> & _).
  unfold update_facing.
  destruct (sign_cases (change_x p))
    as [(Hs & -> & ->) | [(Hs & -> & ->) | (Hs & -> & ->)]];
    destruct (character_face_direction p) eqn:Hf; simpl; rewrite ?Hf;
    repeat split; intros;
    try done;
    try (exfalso; eauto using Qlt_both_absurd, Qlt_zero_absurd_l,
           Qlt_zero_absurd_r; fail);
    auto.
Qed.

Lemma update_animation_advance (p : PlayerCharacter) :
  0 ≤ cur_texture p ≤ 7 →
  ∃ p', update_animation p = Some p'
    ∧ 0 ≤ cur_texture p' ≤ 7
    ∧ (animation_advances p' →
       cur_texture p' = (cur_texture p + 1) mod 8)
    ∧ (¬ animation_advances p' → cur_texture p' = cur_texture p).
Proof.
  intros Hc.
  destruct (update_animation_step p Hc)
    as (p' & Hp' & Hx & Hy & Hl & _ & _ & _ & _ & Hcl & Hr & Hcases).
  destruct (next_cur_texture_mod _ Hc) as [Hmod _].
  exists p'. split; [done|]. split; [done|].
  unfold animation_advances. rewrite Hx, Hy, Hcl.
  destruct (is_on_ladder p).
  - destruct Hcases as (_ & Hw & Hcur). rewrite Hw, Hcur.
    destruct (Qlt_bool 1 (Qabs (change_y p))) eqn:Hdy.
    + split; [by rewrite Hmod|].
      intros Hn. exfalso. apply Hn. right. split; [done|].
      by apply Qlt_bool_iff.
    + split; [|done].
      intros [[_ ?] | [_ Hlt]]; [done|].
      apply Qlt_bool_iff in Hlt. congruence.
  - destruct Hcases as (_ & Hw & Hcur). rewrite Hw, Hcur.
    destruct (walks p) eqn:Hwalk.
    + split; [by rewrite Hmod|].
      intros Hn. exfalso. apply Hn. left. split; [|done].
      unfold walks in Hwalk. apply andb_true_iff in Hwalk as [_ Hx0].
      apply negb_true_iff in Hx0. by apply Qeq_bool_neq.
    + split; [|done]. intros [[_ ?] | [? _]]; done.
Qed.

Lemma animate_cur_texture (m : Motion) (p : PlayerCharacter) :
  0 ≤ cur_texture p ≤ 7 →
  ∃ p', animate m p = Some p'
    ∧ 0 ≤ cur_texture p' ≤ 7
    ∧ (animation_advances p' →
       cur_texture p' = (cur_texture p + 1) mod 8)
    ∧ (¬ animation_advances p' → cur_texture p' = cur_texture p).
Proof.
  intros Hc. unfold animate.
  exact (update_animation_advance
           (set_is_on_ladder (motion_is_on_ladder m)
              (set_change_y (motion_change_y m)
                 (set_change_x (motion_change_x m) p))) Hc).
Qed.

(** C3.  Along every sequence of [update_animation] calls that starts with
    the frame counter in [0,7] (a new player has 0), every call returns, the
    counter is in [0,7] after every call, it goes up by one modulo 8 in the
    calls where the walking pose is selected with a horizontal velocity or
    the player climbs with a vertical speed above one, and it keeps its value
    in every other call. *)
Theorem cur_texture_in_range_and_advance (ms : list Motion)
    (p : PlayerCharacter) :
  0 ≤ cur_texture p ≤ 7 →
  ∃ ps, animations ms p = Some ps
    ∧ length ps = length ms
    ∧ ∀ k before after,
        (p :: ps) !! k = Some before → ps !! k = Some after →
        0 ≤ cur_texture after ≤ 7
        ∧ (animation_advances after →
           cur_texture after = (cur_texture before + 1) mod 8)
        ∧ (¬ animation_advances after →
           cur_texture after = cur_texture before).
Proof.
  revert p. induction ms as [|m ms IH]; intros p Hc.
  - exists []. split; [done|]. split; [done|]. intros k ? ? _ Hk.
    by rewrite lookup_nil in Hk.
  - destruct (animate_cur_texture m p Hc) as (p' & Hp' & Hc' & Hadv & Hkeep).
    destruct (IH p' Hc') as (ps & Hps & Hlen & Hall).
    exists (p' :: ps). simpl. rewrite Hp'. simpl. rewrite Hps. simpl.
    split; [done|]. split; [by rewrite Hlen|].
    intros [|k] before after Hb Ha; simpl in Hb, Ha.
    + injection Hb as <-. injection Ha as <-. done.
    + by apply (Hall k).
Qed.

Lemma cur_texture_in_range_and_advance_witness :
  ∃ ps, animations [mkMotion 7 0 false; mkMotion 0 7 true; mkMotion 0 0 false]
          (PlayerCharacter_init 40) = Some ps
        ∧ cur_texture <$> ps = [1; 2; 2].
Proof.
  destruct (cur_texture_in_range_and_advance
              [mkMotion 7 0 false; mkMotion 0 7 true; mkMotion 0 0 false]
              (PlayerCharacter_init 40)) as (ps & Hps & _).
  { simpl. lia. }
  exists ps. split; [exact Hps|].
  vm_compute in Hps. injection Hps as <-. reflexivity.
Defined.

(** C7, as amended.  There is no lag: along every sequence of calls that
    starts with the frame counter in [0,7], every call returns and leaves the
    climbing flag equal to the ladder flag of that very call, set when the
    player is on a ladder and cleared in the first call in which it is not;
    the climbing pose is selected in exactly the calls made on a ladder. *)
Theorem climbing_flag_follows_ladder (ms : list Motion)
    (p : PlayerCharacter) :
  0 ≤ cur_texture p ≤ 7 →
  ∃ ps, animations ms p = Some ps
    ∧ climbing <$> ps = motion_is_on_ladder <$> ms
    ∧ (λ p', is_climbing_texture (texture p')) <$> ps
      = motion_is_on_ladder <$> ms.
Proof.
  revert p. induction ms as [|m ms IH]; intros p Hc.
  - by exists [].
  - destruct (update_animation_step
                (set_is_on_ladder (motion_is_on_ladder m)
                   (set_change_y (motion_change_y m)
                      (set_change_x (motion_change_x m) p))) Hc)
      as (p' & Hp' & _ & _ & _ & _ & _ & _ & _ & Hcl & Hc' & Hpose).
    simpl in Hcl, Hpose.
    destruct (IH p' Hc') as (ps & Hps & Hflags & Hposes).
    exists (p' :: ps). split.
    { simpl. unfold animate. rewrite Hp'. simpl. by rewrite Hps. }
    rewrite !fmap_cons, Hcl, Hflags, Hposes. split; [done|].
    f_equal. by destruct (motion_is_on_ladder m); destruct Hpose as (-> & _).
Qed.

Lemma climbing_flag_follows_ladder_witness :
  ∃ ps, animations [mkMotion 0 0 true; mkMotion 0 0 false; mkMotion 0 7 true]
          (PlayerCharacter_init 40) = Some ps
        ∧ climbing <$> ps = [true; false; true].
Proof.
  destruct (climbing_flag_follows_ladder
              [mkMotion 0 0 true; mkMotion 0 0 false; mkMotion 0 7 true]
              (PlayerCharacter_init 40)) as (ps & Hps & Hflags & _).
  { simpl. lia. }
  exists ps. split; [exact Hps | exact Hflags].
Defined.

Lemma climbing_flag_cleared_without_lag :
  ∃ ps, animations [mkMotion 0 0 true; mkMotion 0 0 false]
          (PlayerCharacter_init 40) = Some ps
        ∧ climbing <$> ps = [true; false]
        ∧ texture <$> ps !! 1%nat
          = Some (pair_at idle_texture_pair RIGHT_FACING)
        ∧ lagging_climbing_flags false [true; false] = [true; true].
Proof. eexists. split; [vm_compute; reflexivity|]. vm_compute. repeat split. Qed.

Lemma facing_flips_only_against_motion_witness :
  ∃ p', update_animation (set_change_x (-7) (PlayerCharacter_init 40)) = Some p'
        ∧ character_face_direction p' = LEFT_FACING.
Proof.
  eexists. split; [vm_compute; reflexivity|].
  apply (facing_flips_only_against_motion
           (set_change_x (-7) (PlayerCharacter_init 40))); [vm_compute| |]; reflexivity.
Defined.

(** ** Key handling *)

(** [process_keychange] in one piece: nothing when the level is over, and
    otherwise the two velocities, the jump latch and the jump sound. *)
Lemma process_keychange_eq (q : Physics) (g : GameView) :
  process_keychange q g
  = if level_over g then g
    else
      {| left_pressed := left_pressed g; right_pressed := right_pressed g;
         up_pressed := up_pressed g; down_pressed := down_pressed g;
         jump_needs_reset := jumps q g || jump_needs_reset g;
         scene := scene g;
         player_sprite :=
           set_change_x (keychange_change_x g)
             (set_change_y (keychange_change_y q g) (player_sprite g));
         end_of_map := end_of_map g; score := score g; level := level g;
         max_level := max_level g; level_over := level_over g;
         next_level := next_level g; camera_x_prev := camera_x_prev g;
         background_layer_names := background_layer_names g;
         effects :=
           ((if jumps q g then [play_sound jump_sound false] else [])
            ++ effects g)%list |}.
Proof.
  destruct g as [l r u d j sc p e s lv ml lo nl cx bg ef].
  unfold keychange_change_x, keychange_change_y, process_keychange, jumps.
  cbn [level_over up_pressed down_pressed jump_needs_reset left_pressed
       right_pressed].
  destruct lo, u, d, j, (phys_is_on_ladder q), (phys_can_jump q 10);
    try reflexivity; destruct l, r; reflexivity.
Qed.

Lemma jumps_level_over (q : Physics) (g : GameView) :
  level_over g = true → jumps q g = false.
Proof. intros H. unfold jumps. by rewrite H. Qed.

Lemma process_keychange_level_over (q : Physics) (g : GameView) :
  level_over g = true → process_keychange q g = g.
Proof. intros H. unfold process_keychange. by rewrite H. Qed.

(** What [process_keychange] keeps. *)
Lemma process_keychange_frame (q : Physics) (g : GameView) :
  let g' := process_keychange q g in
  left_pressed g' = left_pressed g ∧ right_pressed g' = right_pressed g
  ∧ up_pressed g' = up_pressed g ∧ down_pressed g' = down_pressed g
  ∧ scene g' = scene g ∧ end_of_map g' = end_of_map g
  ∧ score g' = score g ∧ level g' = level g ∧ max_level g' = max_level g
  ∧ level_over g' = level_over g ∧ next_level g' = next_level g
  ∧ camera_x_prev g' = camera_x_prev g
  ∧ background_layer_names g' = background_layer_names g
  ∧ jump_needs_reset g' = jumps q g || jump_needs_reset g
  ∧ effects g'
    = ((if jumps q g then [play_sound jump_sound false] else [])
       ++ effects g)%list.
Proof.
  cbv zeta. rewrite process_keychange_eq.
  destruct (level_over g) eqn:Hlo; [|by cbn].
  by rewrite (jumps_level_over q g Hlo).
Qed.

Lemma process_keychange_player (q : Physics) (g : GameView) :
  let p := player_sprite g in
  let p' := player_sprite (process_keychange q g) in
  center_x p' = center_x p ∧ center_y p' = center_y p
  ∧ hit_box_right p' = hit_box_right p
  ∧ character_face_direction p' = character_face_direction p
  ∧ cur_texture p' = cur_texture p ∧ jumping p' = jumping p
  ∧ climbing p' = climbing p ∧ is_on_ladder p' = is_on_ladder p
  ∧ can_jump p' = can_jump p ∧ texture p' = texture p
  ∧ (jumps q g = true → change_y p' = PLAYER_JUMP_SPEED).
Proof.
  cbv zeta. rewrite process_keychange_eq.
  destruct (level_over g) eqn:Hlo.
  - rewrite (jumps_level_over q g Hlo). by repeat split.
  - cbn. repeat split. intros Hj. unfold keychange_change_y. rewrite Hj.
    unfold jumps in Hj. by destruct (phys_is_on_ladder q); 
      [rewrite !andb_false_r in Hj|].
Qed.

(** C6.  With the level not over and the player on a ladder,
    [process_keychange] leaves the vertical velocity at
    [PLAYER_MOVEMENT_SPEED] when up is pressed without down, at its opposite
    when down is pressed without up, and at 0 when both or neither are
    pressed; the left and right keys have no part in it. *)
Theorem ladder_vertical_velocity (q : Physics) (g : GameView) :
  level_over g = false → phys_is_on_ladder q = true →
  change_y (player_sprite (process_keychange q g))
  = (if up_pressed g && negb (down_pressed g) then PLAYER_MOVEMENT_SPEED
     else if down_pressed g && negb (up_pressed g)
          then (- PLAYER_MOVEMENT_SPEED)%Q
          else 0%Q)
  ∧ ∀ l r : bool,
      change_y (player_sprite
                  (process_keychange q
                     (set_left_pressed l (set_right_pressed r g))))
      = change_y (player_sprite (process_keychange q g)).
Proof.
  intros Hlo Hlad.
  assert (Hy : ∀ g0, level_over g0 = false →
            change_y (player_sprite (process_keychange q g0))
            = (if up_pressed g0 && negb (down_pressed g0)
               then PLAYER_MOVEMENT_SPEED
               else if down_pressed g0 && negb (up_pressed g0)
                    then (- PLAYER_MOVEMENT_SPEED)%Q
                    else 0%Q)).
  { intros g0 H0. rewrite process_keychange_eq, H0. cbn.
    unfold keychange_change_y. by rewrite Hlad. }
  split; [by apply Hy|].
  intros l r. rewrite !Hy by done. done.
Qed.

Lemma ladder_vertical_velocity_witness :
  change_y (player_sprite
              (process_keychange Demo.on_ladder
                 (mkGameView true false true true false ∅
                    (set_change_y 3 (PlayerCharacter_init 40))
                    0 0 1 4 false false 0 [] [])))
  = 0%Q.
Proof.
  apply (ladder_vertical_velocity Demo.on_ladder
           (mkGameView true false true true false ∅
              (set_change_y 3 (PlayerCharacter_init 40))
              0 0 1 4 false false 0 [] [])); reflexivity.
Defined.

(** C10.  While [level_over] is set, a key press or release leaves the
    player, and so both velocity components, as they are: [process_keychange]
    does nothing.  Besides the input flags kept under "what key is pressed"
    (the four direction flags and [jump_needs_reset], which only the release
    of up clears), the one thing a key event changes is [next_level], set
    when space is pressed. *)
Theorem level_over_freezes_keys (k : key.t) (q : Physics) (g : GameView) :
  level_over g = true →
  process_keychange q g = g
  ∧ same_outside_input g (on_key_press k q g)
  ∧ same_outside_input g (on_key_release k q g)
  ∧ change_x (player_sprite (on_key_press k q g)) = change_x (player_sprite g)
  ∧ change_y (player_sprite (on_key_press k q g)) = change_y (player_sprite g)
  ∧ change_x (player_sprite (on_key_release k q g))
    = change_x (player_sprite g)
  ∧ change_y (player_sprite (on_key_release k q g))
    = change_y (player_sprite g)
  ∧ next_level (on_key_press k q g)
    = (next_level g || is_space_press (KeyPress k q))
  ∧ next_level (on_key_release k q g) = next_level g
  ∧ jump_needs_reset (on_key_press k q g) = jump_needs_reset g
  ∧ jump_needs_reset (on_key_release k q g)
    = (jump_needs_reset g && negb (is_up_key k)).
Proof.
  intros Hlo.
  assert (Hp : on_key_press k q g = key_down k g).
  { unfold on_key_press. apply process_keychange_level_over.
    unfold key_down. rewrite Hlo. by destruct k. }
  assert (Hr : on_key_release k q g = key_up k g).
  { unfold on_key_release. apply process_keychange_level_over.
    by destruct k. }
  split; [by apply process_keychange_level_over|].
  rewrite Hp, Hr. unfold same_outside_input, key_down, key_up.
  rewrite Hlo. destruct k; cbn; rewrite ?orb_true_r, ?orb_false_r, ?andb_true_r,
    ?andb_false_r; done.
Qed.

Lemma level_over_freezes_keys_witness :
  next_level
    (on_key_press key.SPACE Demo.grounded
       (mkGameView false true true false true ∅
          (set_change_x 7 (PlayerCharacter_init 40))
          0 30 2 4 true false 0 [] [])) = true
  ∧ change_x
      (player_sprite
         (on_key_release key.RIGHT Demo.grounded
            (mkGameView false true true false true ∅
               (set_change_x 7 (PlayerCharacter_init 40))
               0 30 2 4 true false 0 [] []))) = 7%Q.
Proof.
  pose proof (level_over_freezes_keys key.SPACE Demo.grounded
                (mkGameView false true true false true ∅
                   (set_change_x 7 (PlayerCharacter_init 40))
                   0 30 2 4 true false 0 [] []) eq_refl) as Hs.
  pose proof (level_over_freezes_keys key.RIGHT Demo.grounded
                (mkGameView false true true false true ∅
                   (set_change_x 7 (PlayerCharacter_init 40))
                   0 30 2 4 true false 0 [] []) eq_refl) as Hr.
  split.
  - exact (proj1 (proj2 (proj2 (proj2 (proj2 (proj2 (proj2 (proj2 Hs)))))))).
  - exact (proj1 (proj2 (proj2 (proj2 (proj2 (proj2 Hr)))))).
Defined.

(** ** The pieces of a frame *)

Lemma played_emit (s : Sound) (e : Effect) (g : GameView) :
  played s (emit e g) = ((if is_play s e then 1 else 0) + played s g)%nat.
Proof. unfold played, emit. cbn. by destruct (is_play s e). Qed.

(** [play_moved] leaves everything but the player, the jump latch and the
    jump sound. *)
Lemma play_moved_frame (f : Frame) (g : GameView) :
  let g' := play_moved f g in
  left_pressed g' = left_pressed g ∧ right_pressed g' = right_pressed g
  ∧ up_pressed g' = up_pressed g ∧ down_pressed g' = down_pressed g
  ∧ scene g' = scene g ∧ end_of_map g' = end_of_map g
  ∧ score g' = score g ∧ level g' = level g ∧ max_level g' = max_level g
  ∧ level_over g' = level_over g ∧ next_level g' = next_level g
  ∧ camera_x_prev g' = camera_x_prev g
  ∧ background_layer_names g' = background_layer_names g
  ∧ jump_needs_reset g'
    = jumps (frame_physics f) g || jump_needs_reset g
  ∧ effects g'
    = ((if jumps (frame_physics f) g then [play_sound jump_sound false]
        else []) ++ effects g)%list.
Proof.
  cbv zeta. unfold play_moved.
  set (q := frame_physics f).
  set (g0 := set_player_sprite _ g).
  set (g1 := if phys_can_jump q 5 then _ else _).
  assert (H1 : ∃ p, g1 = set_player_sprite p g).
  { subst g1. destruct (phys_can_jump q 5); by eexists. }
  destruct H1 as [p1 ->].
  assert (H2 : ∃ p, (if phys_is_on_ladder q && negb (phys_can_jump q 5)
                     then process_keychange q
                            (set_player_sprite
                               (set_is_on_ladder true
                                  (player_sprite (set_player_sprite p1 g)))
                               (set_player_sprite p1 g))
                     else process_keychange q
                            (set_player_sprite
                               (set_is_on_ladder false
                                  (player_sprite (set_player_sprite p1 g)))
                               (set_player_sprite p1 g)))
                    = process_keychange q (set_player_sprite p g)).
  { destruct (_ && _); by eexists. }
  destruct H2 as [p2 ->].
  pose proof (process_keychange_frame q (set_player_sprite p2 g)) as H.
  cbv zeta in H. exact H.
Qed.

(** Collecting a list of coins: ten points and one sound for each, and the
    coins taken out of the layer [Coins]. *)
Lemma foldl_collect_frame (l : list Sprite) (g : GameView) :
  let g' := foldl collect g l in
  left_pressed g' = left_pressed g ∧ right_pressed g' = right_pressed g
  ∧ up_pressed g' = up_pressed g ∧ down_pressed g' = down_pressed g
  ∧ jump_needs_reset g' = jump_needs_reset g
  ∧ player_sprite g' = player_sprite g
  ∧ end_of_map g' = end_of_map g
  ∧ level g' = level g ∧ max_level g' = max_level g
  ∧ level_over g' = level_over g ∧ next_level g' = next_level g
  ∧ camera_x_prev g' = camera_x_prev g
  ∧ background_layer_names g' = background_layer_names g
  ∧ score g' = score g + 10 * Z.of_nat (length l)
  ∧ effects g'
    = (replicate (length l) (play_sound collect_coin_sound false)
       ++ effects g)%list
  ∧ scene g'
    = foldl (λ sc c, remove_from_sprite_lists c sc) (scene g) l.
Proof.
  cbv zeta. revert g. induction l as [|c l IH]; intros g.
  - cbn. repeat split; lia.
  - cbn [foldl length]. 
    destruct (IH (collect g c)) as
      (H1&H2&H3&H4&H5&H6&H7&H8&H9&H10&H11&H12&H13&H14&H15&H16).
    rewrite H1, H2, H3, H4, H5, H6, H7, H8, H9, H10, H11, H12, H13, H14, H15,
      H16.
    cbn. repeat split; try lia.
    change (play_sound collect_coin_sound false :: effects g)
      with ([play_sound collect_coin_sound false] ++ effects g)%list.
    rewrite app_assoc. f_equal.
    clear. induction (length l) as [|n IHn]; [done|].
    cbn. by rewrite IHn.
Qed.

(** [scene.update_animation] writes the player and nothing else. *)
Lemma scene_update_animation_frame (names : list string) (g g' : GameView) :
  scene_update_animation names g = Some g' →
  ∃ p', g' = set_player_sprite p' g.
Proof.
  revert g. induction names as [|n names IH]; intros g H.
  - cbn in H. injection H as <-. exists (player_sprite g). by destruct g.
  - cbn in H. destruct (scene g !! n); [|done]. cbn in H.
    destruct (String.eqb n LAYER_NAME_PLAYER).
    + destruct (update_animation (player_sprite g)) as [p|]; [|done].
      cbn in H. apply IH in H as [p' ->]. by exists p'.
    + cbn in H. by apply IH.
Qed.

(** The parallax writes the scene and nothing else; every layer keeps as
    many sprites, with the same identities. *)
Lemma parallax_from_dom (names : list string) (count : nat) (lvl : Z)
    (delta : float) (sc sc' : gmap string (list Sprite)) (name : string) :
  parallax_from count names lvl delta sc = Some sc' →
  fmap sprite_id <$> (sc' !! name) = fmap sprite_id <$> (sc !! name).
Proof.
  revert count sc. induction names as [|n names IH]; intros count sc H.
  - cbn in H. by injection H as <-.
  - cbn in H. destruct ((lvl =? 4) && (count =? 3)%nat).
    + cbn in H. by apply IH in H.
    + destruct (sc !! n) as [l|] eqn:Hn; [|done]. cbn in H.
      apply IH in H. rewrite H.
      destruct (decide (n = name)) as [->|Hne].
      * rewrite lookup_insert_eq, Hn. cbn. f_equal.
        unfold shift_layer. rewrite <- list_fmap_compose.
        by apply list_fmap_ext.
      * by rewrite lookup_insert_ne.
Qed.

Lemma played_app (s : Sound) (l : list Effect) (g g' : GameView) :
  effects g' = (l ++ effects g)%list →
  played s g' = (length (List.filter (is_play s) l) + played s g)%nat.
Proof.
  intros H. unfold played. by rewrite H, List.filter_app, length_app.
Qed.

Lemma played_same (s : Sound) (g g' : GameView) :
  effects g' = effects g → played s g' = played s g.
Proof. intros H. unfold played. by rewrite H. Qed.

Lemma filter_is_play_replicate (s : Sound) (n : nat) (e : Effect) :
  length (List.filter (is_play s) (replicate n e))
  = if is_play s e then n else 0%nat.
Proof.
  induction n as [|n IH]; cbn; [by destruct (is_play s e)|].
  destruct (is_play s e); cbn; by rewrite ?IH.
Qed.

(** A frame before the end of the map, in one piece: the scene after the
    parallax, the player after the animation, then the coins. *)
Lemma update_play_inv (f : Frame) (g g' : GameView) :
  update_play f g = Some g' →
  ∃ sc p' cs,
    (if 1 <? level g
     then parallax_from 0 (background_layer_names g) (level g)
            (fsub (camera_position_x f) (camera_x_prev g)) (scene g) = Some sc
     else sc = scene g)
    ∧ scene_update_animation (animated_layers g)
        (set_camera_x_prev (camera_position_x f)
           (set_scene sc (play_moved f g)))
      = Some (set_player_sprite p'
                (set_camera_x_prev (camera_position_x f)
                   (set_scene sc (play_moved f g))))
    ∧ sc !! LAYER_NAME_COINS = Some cs
    ∧ g' = foldl collect
             (set_player_sprite p'
                (set_camera_x_prev (camera_position_x f)
                   (set_scene sc (play_moved f g))))
             (List.filter (check_for_collision f) cs).
Proof.
  unfold update_play. cbv zeta.
  destruct (play_moved_frame f g)
    as (_&_&_&_&Hsc&_&_&Hlv&_&_&_&Hcx&Hbg&_).
  cbv zeta in *. rewrite Hlv, Hbg, Hcx, Hsc.
  set (g0 := play_moved f g) in *.
  intros H.
  assert (∃ sc, (if 1 <? level g
                 then parallax_from 0 (background_layer_names g) (level g)
                        (fsub (camera_position_x f) (camera_x_prev g)) (scene g)
                      = Some sc
                 else sc = scene g)
                ∧ (if 1 <? level g
                   then parallax_from 0 (background_layer_names g) (level g)
                          (fsub (camera_position_x f) (camera_x_prev g)) (scene g)
                        ≫= λ sc, Some (set_scene sc g0)
                   else Some g0) = Some (set_scene sc g0)) as (sc & Hpar & Heq).
  { destruct (1 <? level g).
    - destruct (parallax_from _ _ _ _ _) as [sc|]; [|done]. by exists sc.
    - exists (scene g). split; [done|]. f_equal. rewrite <- Hsc.
      by destruct g0. }
  rewrite Heq in H. cbn [mbind option_bind] in H.
  assert (Hal : animated_layers
                  (set_camera_x_prev (camera_position_x f) (set_scene sc g0))
                = animated_layers g).
  { unfold animated_layers. cbn. by rewrite Hlv, Hbg. }
  rewrite Hal in H.
  destruct (scene_update_animation _ _) as [g2|] eqn:Hanim; [|done].
  cbn [mbind option_bind] in H.
  destruct (scene_update_animation_frame _ _ _ Hanim) as [p' ->].
  cbn [scene set_player_sprite set_camera_x_prev set_scene] in H.
  destruct (sc !! LAYER_NAME_COINS) as [cs|] eqn:Hcs; [|done].
  cbn [mbind option_bind] in H. injection H as <-.
  by exists sc, p', cs.
Qed.

(** What a frame before the end of the map keeps, and what it adds to the
    score and to the sounds. *)
Lemma update_play_frame (f : Frame) (g g' : GameView) :
  update_play f g = Some g' →
  left_pressed g' = left_pressed g ∧ right_pressed g' = right_pressed g
  ∧ up_pressed g' = up_pressed g ∧ down_pressed g' = down_pressed g
  ∧ end_of_map g' = end_of_map g
  ∧ level g' = level g ∧ max_level g' = max_level g
  ∧ level_over g' = level_over g ∧ next_level g' = next_level g
  ∧ background_layer_names g' = background_layer_names g
  ∧ camera_x_prev g' = camera_position_x f
  ∧ jump_needs_reset g'
    = jumps (frame_physics f) g || jump_needs_reset g
  ∧ ∃ hits : list Sprite,
      score g' = score g + 10 * Z.of_nat (length hits)
      ∧ effects g'
        = (replicate (length hits) (play_sound collect_coin_sound false)
           ++ (if jumps (frame_physics f) g
               then [play_sound jump_sound false] else [])
           ++ effects g)%list.
Proof.
  intros H. destruct (update_play_inv f g g' H) as (sc & p' & cs & _ & _ & _ & ->).
  destruct (play_moved_frame f g)
    as (H1&H2&H3&H4&H5&H6&H7&H8&H9&H10&H11&H12&H13&H14&H15).
  cbv zeta in *.
  match goal with |- context [foldl collect ?g0 ?l] =>
    destruct (foldl_collect_frame l g0)
      as (F1&F2&F3&F4&F5&F6&F7&F8&F9&F10&F11&F12&F13&F14&F15&F16)
  end.
  cbv zeta in *.
  rewrite F1, F2, F3, F4, F5, F7, F8, F9, F10, F11, F12, F13.
  cbn. rewrite H1, H2, H3, H4, H6, H8, H9, H10, H11, H13, H14.
  repeat split; try done.
  eexists. split; [by rewrite F14; cbn; rewrite H7|].
  rewrite F15. cbn. by rewrite H15.
Qed.

(** The sounds of a frame before the end of the map: one per coin, one when
    the player jumps, never the victory sound. *)
Lemma update_play_played (f : Frame) (g g' : GameView) :
  update_play f g = Some g' →
  played victory_sound g' = played victory_sound g
  ∧ played jump_sound g'
    = ((if jumps (frame_physics f) g then 1 else 0)
       + played jump_sound g)%nat
  ∧ ∃ n : nat,
      score g' = score g + 10 * Z.of_nat n
      ∧ played collect_coin_sound g'
        = (n + played collect_coin_sound g)%nat.
Proof.
  intros H. apply update_play_frame in H
    as (_&_&_&_&_&_&_&_&_&_&_&_&hits&Hs&Hef).
  unfold played. rewrite Hef, !List.filter_app, !length_app,
    !filter_is_play_replicate.
  repeat split; try by destruct (jumps _ _).
  exists (length hits). split; [done|]. by destruct (jumps _ _).
Qed.

(** ** What [update_animation] leaves alone *)

Lemma update_facing_body (p : PlayerCharacter) :
  can_jump (update_facing p) = can_jump p
  ∧ jumping (update_facing p) = jumping p
  ∧ texture (update_facing p) = texture p.
Proof.
  unfold update_facing.
  destruct (_ && _); [done|]. by destruct (_ && _).
Qed.

Lemma update_climbing_body (p : PlayerCharacter) :
  can_jump (update_climbing p) = can_jump p
  ∧ jumping (update_climbing p) = jumping p
  ∧ texture (update_climbing p) = texture p.
Proof.
  unfold update_climbing.
  destruct (is_on_ladder p) eqn:Hl; simpl; rewrite ?Hl; simpl; [done|].
  by destruct (climbing p).
Qed.

Lemma advance_texture_body (p : PlayerCharacter) :
  can_jump (advance_texture p) = can_jump p
  ∧ jumping (advance_texture p) = jumping p
  ∧ texture (advance_texture p) = texture p.
Proof. unfold advance_texture. simpl. by destruct (7 <? _). Qed.

(** [update_animation] chooses a pose; it never moves the sprite and never
    writes its velocity, its hit box or the jump and ladder attributes. *)
Lemma update_animation_keeps (p p' : PlayerCharacter) :
  update_animation p = Some p' →
  center_x p' = center_x p ∧ center_y p' = center_y p
  ∧ hit_box_right p' = hit_box_right p
  ∧ can_jump p' = can_jump p ∧ jumping p' = jumping p
  ∧ change_x p' = change_x p ∧ change_y p' = change_y p
  ∧ is_on_ladder p' = is_on_ladder p
  ∧ climbing p' = is_on_ladder p.
Proof.
  intros H.
  destruct (update_animation_flags p p' H) as (_ & Hcl & Hl & Hx & Hy).
  revert H. unfold update_animation.
  destruct (update_facing_fields p) as (_&_&_&_&_&Fcx&Fcy&Fh).
  destruct (update_facing_body p) as (Fj & Fjj & _).
  set (p1 := update_facing p) in *.
  destruct (update_climbing_fields p1) as (_&_&_&_&_&_&Ccx&Ccy&Ch).
  destruct (update_climbing_body p1) as (Cj & Cjj & _).
  set (p2 := update_climbing p1) in *.
  destruct (advance_texture_fields p2) as (_&_&_&_&_&Acx&Acy&Ah).
  destruct (advance_texture_body p2) as (Aj & Ajj & _).
  set (p3 := if climbing p2 && Qlt_bool 1 (Qabs (change_y p2))
             then advance_texture p2 else p2).
  assert (H3 : center_x p3 = center_x p ∧ center_y p3 = center_y p
               ∧ hit_box_right p3 = hit_box_right p
               ∧ can_jump p3 = can_jump p ∧ jumping p3 = jumping p).
  { subst p3. destruct (_ && _);
      rewrite ?Acx, ?Acy, ?Ah, ?Aj, ?Ajj, Ccx, Ccy, Ch, Cj, Cjj,
        Fcx, Fcy, Fh, Fj, Fjj; done. }
  destruct H3 as (H1 & H2 & H4 & H5 & H6).
  destruct (advance_texture_fields p3) as (_&_&_&_&_&Bcx&Bcy&Bh).
  destruct (advance_texture_body p3) as (Bj & Bjj & _).
  assert (Hq : ∀ t q, q = p3 ∨ q = advance_texture p3 →
    center_x (set_texture t q) = center_x p
    ∧ center_y (set_texture t q) = center_y p
    ∧ hit_box_right (set_texture t q) = hit_box_right p
    ∧ can_jump (set_texture t q) = can_jump p
    ∧ jumping (set_texture t q) = jumping p).
  { intros t q [-> | ->]; simpl;
      rewrite ?Bcx, ?Bcy, ?Bh, ?Bj, ?Bjj, H1, H2, H4, H5, H6; done. }
  clear - Hq Hcl Hl Hx Hy. intros H.
  assert (Hk : center_x p' = center_x p ∧ center_y p' = center_y p
               ∧ hit_box_right p' = hit_box_right p
               ∧ can_jump p' = can_jump p ∧ jumping p' = jumping p).
  { repeat match type of H with
           | (if ?b then _ else _) = _ => destruct b
           | (?m ≫= _) = _ => destruct m; simpl in H
           end;
      try discriminate; injection H as <-; apply Hq; auto. }
  destruct Hk as (?&?&?&?&?). done.
Qed.

(** [scene.update_animation] keeps the same of the player; the climbing flag
    is brought up to date when the layer [Player] is among the names. *)
Lemma scene_update_animation_keeps (names : list string) (g : GameView)
    (p' : PlayerCharacter) :
  scene_update_animation names g = Some (set_player_sprite p' g) →
  let p := player_sprite g in
  center_x p' = center_x p ∧ center_y p' = center_y p
  ∧ hit_box_right p' = hit_box_right p
  ∧ can_jump p' = can_jump p ∧ jumping p' = jumping p
  ∧ change_x p' = change_x p ∧ change_y p' = change_y p
  ∧ is_on_ladder p' = is_on_ladder p
  ∧ (((LAYER_NAME_PLAYER ∉ names) ∧ climbing p' = climbing p)
     ∨ climbing p' = is_on_ladder p).
Proof.
  cbv zeta. revert g. induction names as [|n names IH]; intros g H.
  - cbn in H. injection H as H.
    assert (p' = player_sprite g) as ->.
    { change p' with (player_sprite (set_player_sprite p' g)).
      by rewrite <- H. }
    repeat split; try done. left. split; [apply not_elem_of_nil|done].
  - cbn in H. destruct (scene g !! n); [|done]. cbn in H.
    destruct (String.eqb_spec n LAYER_NAME_PLAYER) as [-> | Hne].
    + destruct (update_animation (player_sprite g)) as [p1|] eqn:Hp1;
        [|done].
      cbn in H.
      apply update_animation_keeps in Hp1
        as (A1&A2&A3&A4&A5&A6&A7&A8&A9).
      assert (H' : scene_update_animation names (set_player_sprite p1 g)
                   = Some (set_player_sprite p' (set_player_sprite p1 g)))
        by (rewrite H; by destruct g).
      apply IH in H' as (B1&B2&B3&B4&B5&B6&B7&B8&B9).
      cbn [player_sprite set_player_sprite] in *.
      rewrite B1, B2, B3, B4, B5, B6, B7, B8, A1, A2, A3, A4, A5, A6, A7, A8.
      repeat split; try done. right.
      destruct B9 as [[_ B9] | B9]; [by rewrite B9|by rewrite B9, A8].
    + cbn in H. apply IH in H as (B1&B2&B3&B4&B5&B6&B7&B8&B9).
      repeat split; try done.
      destruct B9 as [[B9 B10] | B9]; [left|by right].
      split; [|done]. by apply not_elem_of_cons.
Qed.

(** The player [play_moved] leaves: where the physics engine put it, with
    the jump and ladder attributes written from the engine's answers and the
    velocity that [process_keychange] sets. *)
Lemma play_moved_player (f : Frame) (g : GameView) :
  let p' := player_sprite (play_moved f g) in
  center_x p' = moved_center_x f ∧ center_y p' = moved_center_y f
  ∧ can_jump p' = Some (negb (phys_can_jump (frame_physics f) 5))
  ∧ is_on_ladder p'
    = phys_is_on_ladder (frame_physics f)
      && negb (phys_can_jump (frame_physics f) 5)
  ∧ change_x p'
    = (if level_over g then moved_change_x f else keychange_change_x g)
  ∧ cur_texture p' = cur_texture (player_sprite g)
  ∧ hit_box_right p' = hit_box_right (player_sprite g).
Proof.
  cbv zeta. unfold play_moved. cbv zeta.
  destruct (phys_is_on_ladder (frame_physics f)),
    (phys_can_jump (frame_physics f) 5); cbn [andb negb];
    rewrite process_keychange_eq; cbn [level_over set_player_sprite];
    destruct (level_over g); cbn; done.
Qed.


(** ** Loading a level and the end of the map *)

Section Frames.

Variable load_tilemap : Z → gmap string (list Sprite).
Variable idle_hit_box_right : Q.

Lemma load_level_unfold (lvl : Z) (g : GameView) :
  load_level load_tilemap idle_hit_box_right lvl g
  = ltac:(let t := eval unfold load_level in
                   (load_level load_tilemap idle_hit_box_right lvl g) in
          exact t).
Proof. reflexivity. Qed.

Lemma setup_unfold (g : GameView) :
  setup load_tilemap idle_hit_box_right g
  = ltac:(let t := eval unfold setup in
                   (setup load_tilemap idle_hit_box_right g) in
          exact t).
Proof. reflexivity. Qed.

Lemma advance_level_unfold (g : GameView) :
  advance_level load_tilemap idle_hit_box_right g
  = ltac:(let t := eval unfold advance_level in
                   (advance_level load_tilemap idle_hit_box_right g) in
          exact t).
Proof. reflexivity. Qed.

Lemma update_level_unfold (g : GameView) :
  update_level load_tilemap idle_hit_box_right g
  = ltac:(let t := eval unfold update_level in
                   (update_level load_tilemap idle_hit_box_right g) in
          exact t).
Proof. reflexivity. Qed.

Lemma on_update_unfold (f : Frame) (g : GameView) :
  on_update load_tilemap idle_hit_box_right f g
  = if reached_end_of_map g
    then update_level load_tilemap idle_hit_box_right g
    else update_play f g.
Proof. reflexivity. Qed.

Local Abbreviation load_level := (load_level load_tilemap idle_hit_box_right).
Local Abbreviation advance_level :=
  (advance_level load_tilemap idle_hit_box_right).
Local Abbreviation update_level := (update_level load_tilemap idle_hit_box_right).
Local Abbreviation on_update := (on_update load_tilemap idle_hit_box_right).
Local Abbreviation step := (step load_tilemap idle_hit_box_right).
Local Abbreviation run := (run load_tilemap idle_hit_box_right).
Local Abbreviation setup := (setup load_tilemap idle_hit_box_right).

(** [load_level] in one piece. *)
Lemma load_level_inv (lvl : Z) (g g' : GameView) :
  load_level lvl g = Some g' →
  ∃ sc e,
    py_index END_OF_MAP (lvl - 1) = Some e
    ∧ is_Some (load_tilemap lvl !! LAYER_NAME_PLATFORMS)
    ∧ (if 1 <? lvl
       then ∃ p p1 p2,
            load_tilemap lvl !! LAYER_NAME_PLATFORMS = Some p
            ∧ load_tilemap lvl !! LAYER_NAME_PLATFORMS_1 = Some p1
            ∧ load_tilemap lvl !! LAYER_NAME_PLATFORMS_2 = Some p2
            ∧ sc = <[LAYER_NAME_PLATFORMS := (p ++ p1 ++ p2)%list]>
                     (add_player_layer (load_tilemap lvl))
       else sc = add_player_layer (load_tilemap lvl))
    ∧ g' = set_camera_x_prev PLAYER_START_X_float
             (set_background_layer_names (sorted_background_layers sc)
                (set_end_of_map (e * GRID_PIXEL_SIZE)%Q
                   (set_player_sprite (start_player idle_hit_box_right)
                      (set_scene sc g)))).
Proof.
  rewrite load_level_unfold. intros H.
  destruct (py_index END_OF_MAP (lvl - 1)) as [e|]; [|done].
  cbn [mbind option_bind] in H.
  change (LAYER_NAME_PLATFORMS +:+ "_1") with LAYER_NAME_PLATFORMS_1 in H.
  change (LAYER_NAME_PLATFORMS +:+ "_2") with LAYER_NAME_PLATFORMS_2 in H.
  destruct (1 <? lvl).
  - destruct (load_tilemap lvl !! LAYER_NAME_PLATFORMS) as [p|] eqn:Hp;
      [|done].
    cbn [mbind option_bind] in H.
    destruct (load_tilemap lvl !! LAYER_NAME_PLATFORMS_1) as [p1|] eqn:Hp1;
      [|done].
    cbn [mbind option_bind] in H.
    destruct (load_tilemap lvl !! LAYER_NAME_PLATFORMS_2) as [p2|] eqn:Hp2;
      [|done].
    cbn [mbind option_bind] in H. injection H as <-.
    eexists _, e. split; [done|]. split; [done|]. split; [|done].
    by exists p, p1, p2.
  - cbn [mbind option_bind] in H.
    destruct (load_tilemap lvl !! LAYER_NAME_PLATFORMS) as [p|] eqn:Hp;
      [|done].
    cbn [mbind option_bind] in H. injection H as <-.
    eexists _, e. by repeat split.
Qed.

(** What [load_level] keeps: the input flags, the score, the level counters
    and the effect log. *)
Lemma load_level_frame (lvl : Z) (g g' : GameView) :
  load_level lvl g = Some g' →
  left_pressed g' = left_pressed g ∧ right_pressed g' = right_pressed g
  ∧ up_pressed g' = up_pressed g ∧ down_pressed g' = down_pressed g
  ∧ jump_needs_reset g' = jump_needs_reset g
  ∧ score g' = score g ∧ level g' = level g ∧ max_level g' = max_level g
  ∧ level_over g' = level_over g ∧ next_level g' = next_level g
  ∧ effects g' = effects g
  ∧ player_sprite g' = start_player idle_hit_box_right
  ∧ camera_x_prev g' = PLAYER_START_X_float
  ∧ background_layer_names g' = sorted_background_layers (scene g').
Proof.
  intros H. destruct (load_level_inv _ _ _ H) as (sc & e & _ & _ & _ & ->).
  by cbn.
Qed.

(** The advance in one piece: the level that was loaded, with the new
    player moved to the re-entry point and stopped. *)
Lemma advance_level_inv (g g' : GameView) :
  advance_level g = Some g' →
  ∃ g1,
    load_level (level g + 1)
      (set_level (level g + 1)
         (set_next_level false (set_level_over false g))) = Some g1
    ∧ g' = set_player_sprite (repositioned (player_sprite g1)) g1.
Proof.
  rewrite advance_level_unfold. cbn [level set_level].
  intros H. destruct (load_level _ _) as [g1|]; [|done].
  cbn [mbind option_bind] in H. injection H as <-.
  exists g1. split; [done|]. unfold repositioned. by destruct g1.
Qed.

Lemma advance_level_frame (g g' : GameView) :
  advance_level g = Some g' →
  left_pressed g' = left_pressed g ∧ right_pressed g' = right_pressed g
  ∧ up_pressed g' = up_pressed g ∧ down_pressed g' = down_pressed g
  ∧ jump_needs_reset g' = jump_needs_reset g
  ∧ score g' = score g ∧ level g' = level g + 1
  ∧ max_level g' = max_level g
  ∧ level_over g' = false ∧ next_level g' = false
  ∧ effects g' = effects g
  ∧ player_sprite g' = repositioned (start_player idle_hit_box_right).
Proof.
  intros H. destruct (advance_level_inv _ _ H) as (g1 & H1 & ->).
  destruct (load_level_frame _ _ _ H1)
    as (L1&L2&L3&L4&L5&L6&L7&L8&L9&L10&L11&L12&_).
  cbn. rewrite L1, L2, L3, L4, L5, L6, L7, L8, L9, L10, L11, L12. by cbn.
Qed.

(** The branch at the end of the map, case by case. *)
Lemma update_level_cases (g g' : GameView) :
  update_level g = Some g' →
  let won := (level g =? 4) && negb (level_over g) in
  let g0 := if won
            then emit (sleep 2) (emit (play_sound victory_sound false) g)
            else g in
  if level g <? max_level g then
    if next_level g
    then advance_level (set_level_over true g0) = Some g'
    else g' = set_level_over true g0
  else
    if next_level g
    then g' = emit show_view_EndView
                (set_level_over true (emit (stop_sound theme_music) g0))
    else g' = set_level_over true (emit (stop_sound theme_music) g0).
Proof.
  rewrite update_level_unfold. cbv zeta.
  set (g0 := if (level g =? 4) && negb (level_over g) then _ else g).
  assert (H0 : level g0 = level g ∧ max_level g0 = max_level g
               ∧ next_level g0 = next_level g).
  { subst g0. by destruct (_ && _). }
  destruct H0 as (-> & -> & H0).
  destruct (level g <? max_level g); cbn [next_level set_level_over emit
    set_effects]; rewrite H0; destruct (next_level g); intros H;
    try done; by injection H as <-.
Qed.

(** What the branch at the end of the map keeps and writes. *)
Lemma update_level_frame (g g' : GameView) :
  update_level g = Some g' →
  left_pressed g' = left_pressed g ∧ right_pressed g' = right_pressed g
  ∧ up_pressed g' = up_pressed g ∧ down_pressed g' = down_pressed g
  ∧ jump_needs_reset g' = jump_needs_reset g
  ∧ score g' = score g ∧ max_level g' = max_level g
  ∧ played jump_sound g' = played jump_sound g
  ∧ played collect_coin_sound g' = played collect_coin_sound g
  ∧ played victory_sound g'
    = ((if (level g =? 4)%Z && negb (level_over g) then 1 else 0)
       + played victory_sound g)%nat
  ∧ (if (level g <? max_level g) && next_level g
     then level g' = level g + 1 ∧ level_over g' = false
          ∧ next_level g' = false
          ∧ player_sprite g' = repositioned (start_player idle_hit_box_right)
     else level g' = level g ∧ level_over g' = true
          ∧ next_level g' = next_level g
          ∧ player_sprite g' = player_sprite g ∧ scene g' = scene g
          ∧ end_of_map g' = end_of_map g
          ∧ background_layer_names g' = background_layer_names g
          ∧ camera_x_prev g' = camera_x_prev g).
Proof.
  intros H. apply update_level_cases in H. cbv zeta in H.
  set (won := (level g =? 4) && negb (level_over g)) in *.
  set (g0 := if won then _ else g) in *.
  assert (H0 : left_pressed g0 = left_pressed g
               ∧ right_pressed g0 = right_pressed g
               ∧ up_pressed g0 = up_pressed g
               ∧ down_pressed g0 = down_pressed g
               ∧ jump_needs_reset g0 = jump_needs_reset g
               ∧ score g0 = score g ∧ max_level g0 = max_level g
               ∧ level g0 = level g ∧ next_level g0 = next_level g
               ∧ player_sprite g0 = player_sprite g ∧ scene g0 = scene g
               ∧ end_of_map g0 = end_of_map g
               ∧ background_layer_names g0 = background_layer_names g
               ∧ camera_x_prev g0 = camera_x_prev g
               ∧ effects g0
                 = ((if won
                     then [sleep 2; play_sound victory_sound false]
                     else []) ++ effects g)%list).
  { subst g0. by destruct won. }
  destruct H0 as (A1&A2&A3&A4&A5&A6&A7&A8&A9&A10&A11&A12&A13&A14&A15).
  destruct (level g <? max_level g), (next_level g); cbn [andb].
  - apply advance_level_frame in H
      as (L1&L2&L3&L4&L5&L6&L7&L8&L9&L10&L11&L12).
    cbn in L1, L2, L3, L4, L5, L6, L7, L8, L9, L10, L11, L12.
    unfold played.
    rewrite L1, L2, L3, L4, L5, L6, L7, L8, L9, L10, L11, L12.
    rewrite A1, A2, A3, A4, A5, A6, A7, A8, A15.
    by destruct won.
  - subst g'. unfold played. cbn.
    rewrite A1, A2, A3, A4, A5, A6, A7, A8, A9, A10, A11, A12, A13, A14, A15.
    by destruct won.
  - subst g'. unfold played. cbn.
    rewrite A1, A2, A3, A4, A5, A6, A7, A8, A9, A10, A11, A12, A13, A14, A15.
    by destruct won.
  - subst g'. unfold played. cbn.
    rewrite A1, A2, A3, A4, A5, A6, A7, A8, A9, A10, A11, A12, A13, A14, A15.
    by destruct won.
Qed.


(** ** One event *)

Lemma key_down_frame (k : key.t) (g : GameView) :
  let g' := key_down k g in
  player_sprite g' = player_sprite g ∧ scene g' = scene g
  ∧ end_of_map g' = end_of_map g ∧ score g' = score g
  ∧ level g' = level g ∧ max_level g' = max_level g
  ∧ level_over g' = level_over g ∧ camera_x_prev g' = camera_x_prev g
  ∧ background_layer_names g' = background_layer_names g
  ∧ effects g' = effects g
  ∧ jump_needs_reset g' = jump_needs_reset g
  ∧ up_pressed g' = (is_up_key k || up_pressed g)
  ∧ next_level g'
    = (next_level g
       || (match k with key.SPACE => true | _ => false end && level_over g)).
Proof.
  unfold key_down.
  destruct k; cbn; rewrite ?orb_false_r; try done;
    destruct (level_over g) eqn:Hlo; cbn;
    rewrite ?orb_true_r, ?orb_false_r, ?Hlo; done.
Qed.

Lemma key_up_frame (k : key.t) (g : GameView) :
  let g' := key_up k g in
  player_sprite g' = player_sprite g ∧ scene g' = scene g
  ∧ end_of_map g' = end_of_map g ∧ score g' = score g
  ∧ level g' = level g ∧ max_level g' = max_level g
  ∧ level_over g' = level_over g ∧ camera_x_prev g' = camera_x_prev g
  ∧ background_layer_names g' = background_layer_names g
  ∧ effects g' = effects g
  ∧ jump_needs_reset g' = (jump_needs_reset g && negb (is_up_key k))
  ∧ up_pressed g' = (up_pressed g && negb (is_up_key k))
  ∧ next_level g' = next_level g.
Proof.
  unfold key_up.
  destruct k; cbn; rewrite ?andb_true_r, ?andb_false_r; done.
Qed.

(** A key event moves nothing: the position of the player, the end of the
    map, the scene, the score and the level are as before. *)
Lemma key_event_frame (q : Physics) (g0 g : GameView) :
  player_sprite g0 = player_sprite g → scene g0 = scene g →
  end_of_map g0 = end_of_map g → score g0 = score g →
  level g0 = level g → max_level g0 = max_level g →
  level_over g0 = level_over g →
  let g' := process_keychange q g0 in
  scene g' = scene g ∧ end_of_map g' = end_of_map g ∧ score g' = score g
  ∧ level g' = level g ∧ max_level g' = max_level g
  ∧ level_over g' = level_over g ∧ next_level g' = next_level g0
  ∧ reached_end_of_map g' = reached_end_of_map g
  ∧ effects g'
    = ((if jumps q g0 then [play_sound jump_sound false] else [])
       ++ effects g0)%list.
Proof.
  intros Hp Hsc He Hs Hl Hm Hlo. cbv zeta.
  destruct (process_keychange_frame q g0)
    as (_&_&_&_&F5&F6&F7&F8&F9&F10&F11&_&_&_&F15).
  destruct (process_keychange_player q g0) as (P1&_&P3&_).
  cbv zeta in *.
  unfold reached_end_of_map, right.
  rewrite F5, F6, F7, F8, F9, F10, F11, F15, P1, P3.
  rewrite Hp, Hsc, He, Hs, Hl, Hm, Hlo. done.
Qed.

(** The level counter moves by one at a time, and only in a frame at the end
    of the map that finds [next_level] set below the last level; that frame
    clears both flags. *)
Lemma step_level (e : Event) (g g' : GameView) :
  step e g = Some g' →
  max_level g' = max_level g
  ∧ (level g' = level g
     ∨ (level g' = level g + 1 ∧ is_update e = true
        ∧ reached_end_of_map g = true ∧ next_level g = true
        ∧ level g < max_level g
        ∧ level_over g' = false ∧ next_level g' = false)).
Proof.
  destruct e as [k q | k q | f]; cbn.
  - intros H. injection H as <-. unfold on_key_press.
    destruct (key_down_frame k g) as (K1&K2&K3&K4&K5&K6&K7&_).
    destruct (key_event_frame q (key_down k g) g K1 K2 K3 K4 K5 K6 K7)
      as (_&_&_&->&->&_). auto.
  - intros H. injection H as <-. unfold on_key_release.
    destruct (key_up_frame k g) as (K1&K2&K3&K4&K5&K6&K7&_).
    destruct (key_event_frame q (key_up k g) g K1 K2 K3 K4 K5 K6 K7)
      as (_&_&_&->&->&_). auto.
  - rewrite on_update_unfold.
    destruct (reached_end_of_map g) eqn:Hr; intros H.
    + apply update_level_frame in H as (_&_&_&_&_&_&->&_&_&_&H).
      split; [done|].
      destruct (level g <? max_level g) eqn:Hlt, (next_level g);
        cbn [andb] in H; try (left; by destruct H).
      right. apply Z.ltb_lt in Hlt. by destruct H as (?&?&?&_).
    + apply update_play_frame in H as (_&_&_&_&_&->&->&_). auto.
Qed.

Lemma run_nil (g : GameView) : run [] g = Some g.
Proof. done. Qed.

Lemma run_cons (e : Event) (evs : list Event) (g : GameView) :
  run (e :: evs) g = step e g ≫= run evs.
Proof. done. Qed.

Lemma run_app (a b : list Event) (g : GameView) :
  run (a ++ b) g = run a g ≫= run b.
Proof.
  revert g. induction a as [|e a IH]; intros g; [done|].
  cbn. destruct (step e g) as [g1|]; [|done]. cbn. apply IH.
Qed.

(** The level never goes down. *)
Lemma run_level_mono (evs : list Event) (g g' : GameView) :
  run evs g = Some g' → level g ≤ level g'.
Proof.
  revert g. induction evs as [|e evs IH]; intros g H.
  - injection H as <-. lia.
  - rewrite run_cons in H. destruct (step e g) as [g1|] eqn:He; [|done].
    cbn in H. apply IH in H.
    destruct (step_level e g g1 He) as (_ & [Hl | (Hl & _)]); lia.
Qed.

Lemma step_level_run_max (evs : list Event) (g g' : GameView) :
  run evs g = Some g' → max_level g' = max_level g ∧ level g ≤ level g'.
Proof.
  intros H. split; [|by eapply run_level_mono].
  revert g H. induction evs as [|e evs IH]; intros g H.
  - by injection H as <-.
  - rewrite run_cons in H. destruct (step e g) as [g1|] eqn:He; [|done].
    cbn in H. rewrite (IH g1 H). by destruct (step_level e g g1 He).
Qed.

(** ** The end of a level (C1) *)







(** A level whose map has its platform layers loads. *)
Lemma load_level_total (lvl : Z) (g : GameView) :
  1 ≤ lvl ≤ 4 →
  is_Some (load_tilemap lvl !! LAYER_NAME_PLATFORMS) →
  (1 < lvl →
   is_Some (load_tilemap lvl !! LAYER_NAME_PLATFORMS_1)
   ∧ is_Some (load_tilemap lvl !! LAYER_NAME_PLATFORMS_2)) →
  ∃ g', load_level lvl g = Some g'.
Proof.
  intros Hl [p Hp] H12. rewrite load_level_unfold.
  change (LAYER_NAME_PLATFORMS +:+ "_1") with LAYER_NAME_PLATFORMS_1.
  change (LAYER_NAME_PLATFORMS +:+ "_2") with LAYER_NAME_PLATFORMS_2.
  assert (He : ∃ e, py_index END_OF_MAP (lvl - 1) = Some e).
  { assert (lvl = 1 ∨ lvl = 2 ∨ lvl = 3 ∨ lvl = 4) as [->|[->|[->| ->]]]
      by lia; by eexists. }
  destruct He as [e ->]. cbn [mbind option_bind]. rewrite Hp.
  destruct (Z.ltb_spec 1 lvl) as [Hlt|_].
  - destruct (H12 Hlt) as [[p1 ->] [p2 ->]]. by eexists.
  - by eexists.
Qed.





(** ** Jumping (C2) *)

(** What one event does to the jump sound, the jump latch and the up flag. *)
Lemma step_jump (e : Event) (g g' : GameView) :
  step e g = Some g' →
  played jump_sound g'
  = ((if jumped e g then 1 else 0) + played jump_sound g)%nat
  ∧ jump_needs_reset g'
    = (jumped e g || (jump_needs_reset g && negb (is_up_release e)))
  ∧ up_pressed g'
    = (is_up_press e || (up_pressed g && negb (is_up_release e))).
Proof.
  destruct e as [k q | k q | f]; cbn [step jumped is_up_release is_up_press].
  - intros H. injection H as <-. unfold on_key_press.
    destruct (key_down_frame k g) as (_&_&_&_&_&_&_&_&_&K10&K11&K12&_).
    destruct (process_keychange_frame q (key_down k g))
      as (_&_&F3&_&_&_&_&_&_&_&_&_&_&F14&F15).
    cbv zeta in *.
    rewrite (played_app _ _ _ _ F15), (played_same _ _ _ K10), F14, F3,
      K11, K12, !andb_true_r.
    by destruct (jumps q (key_down k g)).
  - intros H. injection H as <-. unfold on_key_release.
    destruct (key_up_frame k g) as (_&_&_&_&_&_&_&_&_&K10&K11&K12&_).
    destruct (process_keychange_frame q (key_up k g))
      as (_&_&F3&_&_&_&_&_&_&_&_&_&_&F14&F15).
    cbv zeta in *.
    rewrite (played_app _ _ _ _ F15), (played_same _ _ _ K10), F14, F3,
      K11, K12.
    by destruct (jumps q (key_up k g)).
  - rewrite on_update_unfold.
    rewrite !andb_true_r.
    destruct (reached_end_of_map g); cbn [negb andb orb]; intros H.
    + by apply update_level_frame in H as (_&_&->&_&->&_&_&->&_).
    + pose proof (update_play_played f g g' H) as (_ & -> & _).
      by apply update_play_frame in H as (_&_&->&_&_&_&_&_&_&_&_&->&_).
Qed.

(** The jump branch is taken only with the latch open and the up flag set
    by this event or before it, and never by a release of up. *)
Lemma jumped_needs (e : Event) (g : GameView) :
  jumped e g = true →
  jump_needs_reset g = false
  ∧ (up_pressed g = true ∨ is_up_press e = true)
  ∧ is_up_release e = false.
Proof.
  unfold jumped, jumps.
  destruct e as [k q | k q | f]; cbn [is_up_press is_up_release].
  - destruct (key_down_frame k g) as (_&_&_&_&_&_&->&_&_&_&->&->&_).
    intros H.
    repeat match goal with
           | H : _ && _ = true |- _ => apply andb_true_iff in H as [? ?]
           end.
    destruct (jump_needs_reset g); [done|].
    split; [done|]. split; [|done].
    destruct (is_up_key k); [by right|by left].
  - destruct (key_up_frame k g) as (_&_&_&_&_&_&->&_&_&_&->&->&_).
    intros H.
    repeat match goal with
           | H : _ && _ = true |- _ => apply andb_true_iff in H as [? ?]
           end.
    destruct (is_up_key k); [by rewrite andb_false_r in *|].
    rewrite !andb_true_r in *. destruct (jump_needs_reset g); [done|].
    split; [done|]. split; [by left|done].
  - intros H.
    repeat match goal with
           | H : _ && _ = true |- _ => apply andb_true_iff in H as [? ?]
           end.
    destruct (jump_needs_reset g); [done|].
    split; [done|]. split; [by left|done].
Qed.

(** While the latch is closed and up is not released, nothing jumps. *)
Lemma held_run (evs : list Event) (g g' : GameView) :
  jump_needs_reset g = true →
  Forall (λ e, is_up_release e = false) evs →
  run evs g = Some g' →
  played jump_sound g' = played jump_sound g ∧ jump_needs_reset g' = true.
Proof.
  revert g. induction evs as [|e evs IH]; intros g Hj Hall H.
  - by injection H as <-.
  - apply Forall_cons in Hall as [He Hall].
    rewrite run_cons in H. destruct (step e g) as [g1|] eqn:Hs; [|done].
    cbn in H. destruct (step_jump e g g1 Hs) as (Hp & Hr & _).
    assert (Hno : jumped e g = false).
    { destruct (jumped e g) eqn:E; [|done].
      apply jumped_needs in E as (E & _). congruence. }
    rewrite Hno, Hj, He in Hr. rewrite Hno in Hp. cbn in Hr, Hp.
    rewrite <- Hp. by apply IH.
Qed.







(** X16.  However the press went, holding up gives at most one jump: over
    any run of frames and key events without a release of [UP] or [W], the
    jump sound is played at most once. *)
Lemma jump_at_most_once_while_held (evs : list Event) (g g' : GameView) :
  Forall (λ e, is_up_release e = false) evs →
  run evs g = Some g' →
  (played jump_sound g' ≤ S (played jump_sound g))%nat.
Proof.
  revert g. induction evs as [|e evs IH]; intros g Hall H.
  - injection H as <-. lia.
  - apply Forall_cons in Hall as [He Hall].
    rewrite run_cons in H. destruct (step e g) as [g1|] eqn:Hs; [|done].
    cbn in H. destruct (step_jump e g g1 Hs) as (Hp & Hr & _).
    destruct (jumped e g).
    + cbn in Hr. destruct (held_run evs g1 g' Hr Hall H) as [-> _].
      rewrite Hp. lia.
    + cbn in Hp. rewrite <- Hp. by apply IH.
Qed.

(** ** The advance to the next level (C8) *)

(** C8, as amended.  In a frame at the end of the map that finds
    [next_level] set below the last level, and with the map of the next
    level loading, [on_update] returns; the player of the new state is a
    player newly created by [load_level] (facing right, frame counter 0, idle
    texture), put at the re-entry point [(SCREEN_WIDTH, SCREEN_HEIGHT / 2)]
    with both velocity components 0; the level number has gone up by one and
    the score is as before.  [setup] sets the score to 0. *)
Theorem advance_creates_player_at_reentry (f : Frame) (g : GameView) :
  reached_end_of_map g = true → 0 ≤ level g → level g < max_level g →
  max_level g ≤ 4 → next_level g = true →
  is_Some (load_tilemap (level g + 1) !! LAYER_NAME_PLATFORMS) →
  is_Some (load_tilemap (level g + 1) !! LAYER_NAME_PLATFORMS_1) →
  is_Some (load_tilemap (level g + 1) !! LAYER_NAME_PLATFORMS_2) →
  (∃ g', on_update f g = Some g'
     ∧ player_sprite g' = repositioned (start_player idle_hit_box_right)
     ∧ center_x (player_sprite g') = SCREEN_WIDTH
     ∧ center_y (player_sprite g') = (SCREEN_HEIGHT / 2)%Q
     ∧ change_x (player_sprite g') = 0%Q
     ∧ change_y (player_sprite g') = 0%Q
     ∧ character_face_direction (player_sprite g') = RIGHT_FACING
     ∧ cur_texture (player_sprite g') = 0
     ∧ score g' = score g ∧ level g' = level g + 1)
  ∧ (∀ g0 g1, setup g0 = Some g1 → score g1 = 0).
Proof.
  intros Hr H0 Hlt Hmax Hn Hp Hp1 Hp2. split.
  - rewrite on_update_unfold. rewrite Hr.
    assert (Ht : ∃ g', update_level g = Some g').
    { rewrite update_level_unfold. cbv zeta.
      set (g0 := if (level g =? 4) && negb (level_over g) then _ else g).
      assert (Hg0 : level g0 = level g ∧ max_level g0 = max_level g
                    ∧ next_level g0 = next_level g).
      { subst g0. by destruct (_ && _). }
      destruct Hg0 as (E1 & E2 & E3). rewrite E1, E2.
      apply Z.ltb_lt in Hlt. rewrite Hlt.
      cbn [next_level set_level_over]. rewrite E3, Hn.
      rewrite advance_level_unfold. cbn [level set_level set_next_level
        set_level_over]. rewrite E1.
      apply Z.ltb_lt in Hlt.
      match goal with
      | |- context [load_level ?l ?G] =>
          destruct (load_level_total l G) as [g1 Hg1]; [lia|done|done|]
      end.
      rewrite Hg1. by eexists. }
    destruct Ht as [g' Hg']. exists g'. split; [done|].
    apply update_level_frame in Hg' as (_&_&_&_&_&->&_&_&_&_&H).
    apply Z.ltb_lt in Hlt. rewrite Hlt, Hn in H. cbn [andb] in H.
    destruct H as (-> & _ & _ & ->). done.
  - intros g0 g1 H. rewrite setup_unfold in H.
    destruct (load_level _ _) as [g2|]; [|done]. cbn in H.
    by injection H as <-.
Qed.

(** ** The parallax (C5) *)

Lemma parallax_from_other (names : list string) (count : nat) (lvl : Z)
    (delta : float) (sc sc' : gmap string (list Sprite)) (name : string) :
  name ∉ names →
  parallax_from count names lvl delta sc = Some sc' →
  sc' !! name = sc !! name.
Proof.
  revert count sc. induction names as [|n names IH]; intros count sc Hn H.
  - cbn in H. by injection H as <-.
  - apply not_elem_of_cons in Hn as [Hne Hn]. cbn in H.
    destruct ((lvl =? 4) && (count =? 3)%nat).
    + cbn in H. by apply IH in H.
    + destruct (sc !! n) as [l|]; [|done]. cbn in H.
      apply IH in H; [|done]. by rewrite H, lookup_insert_ne.
Qed.


Lemma parallax_from_total (names : list string) (count : nat) (lvl : Z)
    (delta : float) (sc : gmap string (list Sprite)) :
  Forall (λ name, is_Some (sc !! name)) names →
  ∃ sc', parallax_from count names lvl delta sc = Some sc'.
Proof.
  revert count sc. induction names as [|n names IH]; intros count sc Hall.
  - by eexists.
  - apply Forall_cons in Hall as [[l Hl] Hall]. cbn.
    destruct ((lvl =? 4) && (count =? 3)%nat); cbn; [by apply IH|].
    rewrite Hl. cbn. apply IH.
    eapply Forall_impl; [exact Hall|]. intros name Hs. cbn in Hs.
    destruct (decide (n = name)) as [->|Hne].
    + by rewrite lookup_insert_eq.
    + by rewrite lookup_insert_ne.
Qed.

Lemma parallax_from_is_Some (names : list string) (count : nat) (lvl : Z)
    (delta : float) (sc sc' : gmap string (list Sprite)) (name : string) :
  parallax_from count names lvl delta sc = Some sc' →
  is_Some (sc' !! name) ↔ is_Some (sc !! name).
Proof.
  intros H. pose proof (parallax_from_dom _ _ _ _ _ _ name H) as Hd.
  destruct (sc' !! name), (sc !! name); cbn in Hd; try done;
    split; intros; by eexists.
Qed.

(** Removing coins leaves the other layers alone, and keeps every layer in
    the scene. *)
Lemma foldl_remove_lookup (hits : list Sprite)
    (sc : gmap string (list Sprite)) (name : string) :
  foldl (λ sc c, remove_from_sprite_lists c sc) sc hits !! name
  = if decide (name = LAYER_NAME_COINS)
    then (λ l,
            foldl (λ l c,
                     List.filter
                       (λ s, negb (sprite_id s =? sprite_id c)%nat) l)
              l hits) <$> (sc !! name)
    else sc !! name.
Proof.
  revert sc. induction hits as [|c hits IH]; intros sc.
  - cbn. destruct (decide _); [|done]. by destruct (sc !! name).
  - cbn [foldl]. rewrite IH. unfold remove_from_sprite_lists.
    destruct (decide (name = LAYER_NAME_COINS)) as [->|Hne].
    + rewrite lookup_alter_eq. by destruct (sc !! LAYER_NAME_COINS).
    + by rewrite lookup_alter_ne.
Qed.

Lemma scene_update_animation_total (names : list string) (g : GameView) :
  Forall (λ name, is_Some (scene g !! name)) names →
  0 ≤ cur_texture (player_sprite g) ≤ 7 →
  ∃ p', scene_update_animation names g = Some (set_player_sprite p' g)
        ∧ 0 ≤ cur_texture p' ≤ 7.
Proof.
  revert g. induction names as [|n names IH]; intros g Hall Hc.
  - exists (player_sprite g). split; [|done]. cbn. by destruct g.
  - apply Forall_cons in Hall as [[l Hl] Hall]. cbn. rewrite Hl. cbn.
    destruct (String.eqb n LAYER_NAME_PLAYER).
    + destruct (update_animation_step _ Hc)
        as (p1 & -> & _ & _ & _ & _ & _ & _ & _ & _ & Hc1 & _).
      cbn. destruct (IH (set_player_sprite p1 g) Hall Hc1) as (p' & -> & Hc').
      by exists p'.
    + cbn. by apply IH.
Qed.

(** A well-formed state gets through a frame before the end of the map. *)
Lemma update_play_total (f : Frame) (g : GameView) :
  well_formed g → ∃ g', update_play f g = Some g'.
Proof.
  intros (Hc & Hnd & Hbg & Han & _).
  unfold update_play. cbv zeta.
  destruct (play_moved_frame f g)
    as (_&_&_&_&Hsc&_&_&Hlv&_&_&_&Hcx&Hbgn&_).
  cbv zeta in *.
  assert (Hcm : cur_texture (player_sprite (play_moved f g))
                = cur_texture (player_sprite g)).
  { unfold play_moved. cbv zeta.
    repeat match goal with
           | |- context [if ?b then _ else _] => destruct b
           end;
      match goal with
      | |- context [process_keychange ?q ?h] =>
          by destruct (process_keychange_player q h) as (_&_&_&_&->&_)
      end. }
  set (g0 := play_moved f g) in *.
  assert (H1 : ∃ sc, (if 1 <? level g0
                      then parallax_from 0 (background_layer_names g0)
                             (level g0)
                             (fsub (camera_position_x f) (camera_x_prev g0))
                             (scene g0)
                           ≫= λ sc, Some (set_scene sc g0)
                      else Some g0) = Some (set_scene sc g0)
                     ∧ ∀ name, is_Some (sc !! name)
                               ↔ is_Some (scene g !! name)).
  { rewrite Hlv, Hbgn, Hsc. destruct (1 <? level g).
    - destruct (parallax_from_total (background_layer_names g) 0 (level g)
                  (fsub (camera_position_x f) (camera_x_prev g0)) (scene g))
        as [sc Hpar].
      { eapply Forall_impl; [exact Hbg|]. by intros ? [_ ?]. }
      exists sc. rewrite Hpar. split; [done|].
      intros name. by eapply parallax_from_is_Some.
    - exists (scene g). split; [|done]. f_equal. rewrite <- Hsc.
      by destruct g0. }
  destruct H1 as (sc & -> & Hdom). cbn [mbind option_bind].
  assert (Hal : animated_layers
                  (set_camera_x_prev (camera_position_x f) (set_scene sc g0))
                = animated_layers g).
  { unfold animated_layers. cbn. by rewrite Hlv, Hbgn. }
  rewrite Hal.
  destruct (scene_update_animation_total (animated_layers g)
              (set_camera_x_prev (camera_position_x f) (set_scene sc g0)))
    as (p' & -> & _).
  { eapply Forall_impl; [exact Han|]. intros name Hs. cbn. by apply Hdom. }
  { cbn. by rewrite Hcm. }
  cbn [mbind option_bind scene set_player_sprite set_camera_x_prev set_scene].
  assert (Hcoins : is_Some (sc !! LAYER_NAME_COINS)).
  { apply Hdom. rewrite Forall_forall in Han. apply Han.
    unfold animated_layers. destruct (level g =? 1).
    - apply list_elem_of_here.
    - apply elem_of_app. left. unfold NON_BACKGROUND_LAYERS.
      do 4 apply list_elem_of_further. apply list_elem_of_here. }
  destruct Hcoins as [cs ->]. by eexists.
Qed.


(** ** Coins and the score (C4) *)

Lemma List_filter_sublist {A : Type} (f : A → bool) (l : list A) :
  List.filter f l `sublist_of` l.
Proof.
  induction l as [|x l IH]; cbn; [done|].
  destruct (f x); by constructor.
Qed.

(** Removing the coins of a list one by one by identity removes the sprites
    whose identity is in the list. *)
Lemma foldl_remove_ids (hits l : list Sprite) :
  foldl (λ l c, List.filter (λ s, negb (sprite_id s =? sprite_id c)%nat) l)
    l hits
  = List.filter
      (λ s, negb (bool_decide (sprite_id s ∈ sprite_id <$> hits))) l.
Proof.
  revert l. induction hits as [|c hits IH]; intros l.
  - cbn. induction l as [|x l IHl]; [done|]. cbn. by rewrite <- IHl.
  - cbn [foldl]. rewrite IH. clear IH.
    induction l as [|x l IHl]; [done|]. cbn.
    destruct (Nat.eqb_spec (sprite_id x) (sprite_id c)) as [Heq|Hne]; cbn.
    + rewrite IHl. rewrite bool_decide_eq_true_2; [done|].
      rewrite Heq. apply list_elem_of_here.
    + rewrite IHl.
      destruct (decide (sprite_id x ∈ sprite_id <$> hits)) as [Hin|Hout].
      * rewrite !bool_decide_eq_true_2; [done| |done].
        by apply list_elem_of_further.
      * rewrite !bool_decide_eq_false_2; [done| |done].
        intros [?|?]%elem_of_cons; done.
Qed.

(** With distinct coins, removing the coins that are hit leaves the coins
    that are not. *)
Lemma remove_hit_coins (chk : Sprite → bool) (cs : list Sprite) :
  NoDup (sprite_id <$> cs) →
  foldl (λ l c, List.filter (λ s, negb (sprite_id s =? sprite_id c)%nat) l)
    cs (List.filter chk cs)
  = List.filter (λ s, negb (chk s)) cs.
Proof.
  intros Hnd. rewrite foldl_remove_ids.
  apply List.filter_ext_in. intros s Hs. f_equal.
  apply list_elem_of_In in Hs.
  destruct (chk s) eqn:Hc.
  - apply bool_decide_eq_true_2. apply list_elem_of_fmap.
    exists s. split; [done|]. apply list_elem_of_In, List.filter_In.
    split; [by apply list_elem_of_In|done].
  - apply bool_decide_eq_false_2.
    intros (h & Hid & Hh)%list_elem_of_fmap.
    apply list_elem_of_In, List.filter_In in Hh as [Hh Hchk].
    apply list_elem_of_In in Hh.
    assert (s = h) as ->; [|congruence].
    apply list_elem_of_lookup in Hs as [i Hi].
    apply list_elem_of_lookup in Hh as [j Hj].
    assert (i = j) as ->; [|congruence].
    eapply NoDup_lookup; [exact Hnd| |].
    + by rewrite list_lookup_fmap, Hi.
    + by rewrite list_lookup_fmap, Hj, Hid.
Qed.

(** The coins of a frame before the end of the map. *)
Lemma update_play_coins (f : Frame) (g g' : GameView) :
  coins_well_formed g → update_play f g = Some g' →
  coins g' = List.filter (λ c, negb (check_for_collision f c)) (coins g)
  ∧ score g'
    = score g
      + 10 * Z.of_nat (length (List.filter (check_for_collision f) (coins g)))
  ∧ played collect_coin_sound g'
    = (length (List.filter (check_for_collision f) (coins g))
       + played collect_coin_sound g)%nat.
Proof.
  intros [Hnot Hnd] H.
  destruct (update_play_inv f g g' H) as (sc & p' & cs & Hpar & _ & Hcs & ->).
  assert (Hsame : sc !! LAYER_NAME_COINS = scene g !! LAYER_NAME_COINS).
  { destruct (1 <? level g); [|by subst].
    by eapply parallax_from_other. }
  assert (Hcoins : coins g = cs).
  { unfold coins. by rewrite <- Hsame, Hcs. }
  rewrite Hcoins in *.
  match goal with |- context [foldl collect ?g0 ?hits] =>
    destruct (foldl_collect_frame hits g0)
      as (_&_&_&_&_&_&_&_&_&_&_&_&_&Hscore&Hef&Hscene)
  end.
  cbv zeta in *. split; [|split].
  - unfold coins at 1. rewrite Hscene.
    cbn [scene set_player_sprite set_camera_x_prev set_scene].
    rewrite foldl_remove_lookup.
    destruct (decide _); [|done]. rewrite Hcs. cbn.
    by apply remove_hit_coins.
  - rewrite Hscore. cbn. by destruct (play_moved_frame f g) as (_&_&_&_&_&_&->&_).
  - unfold played. rewrite Hef.
    cbn [effects set_player_sprite set_camera_x_prev set_scene].
    destruct (play_moved_frame f g) as (_&_&_&_&_&_&_&_&_&_&_&_&_&_&Hef0).
    cbv zeta in Hef0. rewrite Hef0.
    rewrite !List.filter_app, !length_app, filter_is_play_replicate.
    by destruct (jumps _ _).
Qed.

(** One event inside a level: coins only go, ten points and one sound for
    each coin that goes. *)
Lemma coins_step (e : Event) (g g' : GameView) :
  coins_well_formed g → step e g = Some g' → level g' = level g →
  coins_well_formed g'
  ∧ coins g' `sublist_of` coins g
  ∧ score g' + 10 * Z.of_nat (length (coins g'))
    = score g + 10 * Z.of_nat (length (coins g))
  ∧ (played collect_coin_sound g' + length (coins g')
     = played collect_coin_sound g + length (coins g))%nat.
Proof.
  intros Hwf Hs Hlv.
  assert (Hsame : ∀ h : GameView,
            scene h = scene g →
            background_layer_names h = background_layer_names g →
            score h = score g →
            played collect_coin_sound h = played collect_coin_sound g →
            coins_well_formed h
            ∧ coins h `sublist_of` coins g
            ∧ score h + 10 * Z.of_nat (length (coins h))
              = score g + 10 * Z.of_nat (length (coins g))
            ∧ (played collect_coin_sound h + length (coins h)
               = played collect_coin_sound g + length (coins g))%nat).
  { intros h Hsc Hbg Hscore Hpl. unfold coins_well_formed, coins in *.
    by rewrite Hsc, Hbg, Hscore, Hpl. }
  destruct e as [k q | k q | f]; cbn in Hs.
  - injection Hs as <-. unfold on_key_press in *.
    destruct (key_down_frame k g) as (K1&K2&K3&K4&K5&K6&K7&_&K9&K10&_).
    destruct (key_event_frame q (key_down k g) g K1 K2 K3 K4 K5 K6 K7)
      as (F1&_&F3&_&_&_&_&_&Hef).
    destruct (process_keychange_frame q (key_down k g))
      as (_&_&_&_&_&_&_&_&_&_&_&_&F13&_).
    cbv zeta in *. apply Hsame; try done; [congruence|].
    rewrite (played_app _ _ _ _ Hef), (played_same _ _ _ K10).
    by destruct (jumps _ _).
  - injection Hs as <-. unfold on_key_release in *.
    destruct (key_up_frame k g) as (K1&K2&K3&K4&K5&K6&K7&_&K9&K10&_).
    destruct (key_event_frame q (key_up k g) g K1 K2 K3 K4 K5 K6 K7)
      as (F1&_&F3&_&_&_&_&_&Hef).
    destruct (process_keychange_frame q (key_up k g))
      as (_&_&_&_&_&_&_&_&_&_&_&_&F13&_).
    cbv zeta in *. apply Hsame; try done; [congruence|].
    rewrite (played_app _ _ _ _ Hef), (played_same _ _ _ K10).
    by destruct (jumps _ _).
  - rewrite on_update_unfold in Hs.
    destruct (reached_end_of_map g).
    + apply update_level_frame in Hs as (_&_&_&_&_&Hscore&_&_&Hpl&_&H).
      destruct ((level g <? max_level g) && next_level g).
      * destruct H as (Hl & _). lia.
      * destruct H as (_&_&_&_&Hsc&_&Hbg&_). by apply Hsame.
    + destruct (update_play_coins f g g' Hwf Hs) as (Hc & Hscore & Hpl).
      apply update_play_frame in Hs as (_&_&_&_&_&_&_&_&_&Hbg&_).
      destruct Hwf as [Hnot Hnd].
      pose proof (filter_length (check_for_collision f) (coins g)) as Hlen.
      rewrite Hc, Hscore, Hpl. unfold coins_well_formed.
      rewrite Hbg, <- Hc.
      assert (Hsub : coins g' `sublist_of` coins g).
      { rewrite Hc. apply List_filter_sublist. }
      repeat split; try done.
      * eapply sublist_NoDup; [exact Hnd|]. by apply fmap_sublist.
      * rewrite Hc. lia.
      * rewrite Hc. lia.
Qed.

(** The score never goes down, in a level or across levels. *)
Lemma step_score_mono (e : Event) (g g' : GameView) :
  step e g = Some g' → score g ≤ score g'.
Proof.
  destruct e as [k q | k q | f]; cbn; intros Hs.
  - injection Hs as <-. unfold on_key_press.
    destruct (key_down_frame k g) as (K1&K2&K3&K4&K5&K6&K7&_).
    destruct (key_event_frame q (key_down k g) g K1 K2 K3 K4 K5 K6 K7)
      as (_&_&->&_). lia.
  - injection Hs as <-. unfold on_key_release.
    destruct (key_up_frame k g) as (K1&K2&K3&K4&K5&K6&K7&_).
    destruct (key_event_frame q (key_up k g) g K1 K2 K3 K4 K5 K6 K7)
      as (_&_&->&_). lia.
  - rewrite on_update_unfold in Hs. destruct (reached_end_of_map g).
    + apply update_level_frame in Hs as (_&_&_&_&_&->&_). lia.
    + apply update_play_played in Hs as (_&_&n&->&_). lia.
Qed.

Lemma run_score_mono (evs : list Event) (g g' : GameView) :
  run evs g = Some g' → score g ≤ score g'.
Proof.
  revert g. induction evs as [|e evs IH]; intros g H.
  - injection H as <-. lia.
  - rewrite run_cons in H. destruct (step e g) as [g1|] eqn:He; [|done].
    cbn in H. apply IH in H. apply step_score_mono in He. lia.
Qed.

(** C4.  With the layer [Coins] outside the background layers and its
    sprites distinct objects:
    - a frame before the end of the map takes out of the layer [Coins]
      exactly the coins the player touches, adds 10 to the score for each of
      them and plays the coin sound once for each of them;
    - through any events that stay in the level, the coins left are a
      sublist of the coins there were (a coin that is gone is not there to be
      hit again), the score has grown by exactly 10 for each coin that is
      gone, the coin sound has been played once for each, and the score has
      not gone down;
    - the score does not go down across levels either. *)
Theorem coins_scored_once (g : GameView) :
  coins_well_formed g →
  (∀ f g', reached_end_of_map g = false → on_update f g = Some g' →
     coins g' = List.filter (λ c, negb (check_for_collision f c)) (coins g)
     ∧ score g'
       = score g
         + 10 * Z.of_nat
                  (length (List.filter (check_for_collision f) (coins g)))
     ∧ played collect_coin_sound g'
       = (length (List.filter (check_for_collision f) (coins g))
          + played collect_coin_sound g)%nat)
  ∧ (∀ evs g', run evs g = Some g' → level g' = level g →
       coins g' `sublist_of` coins g
       ∧ score g'
         = score g
           + 10 * (Z.of_nat (length (coins g))
                   - Z.of_nat (length (coins g')))
       ∧ (played collect_coin_sound g' + length (coins g')
          = played collect_coin_sound g + length (coins g))%nat
       ∧ score g ≤ score g')
  ∧ (∀ evs g', run evs g = Some g' → score g ≤ score g').
Proof.
  intros Hwf. split; [|split].
  - intros f g' Hr H. rewrite on_update_unfold in H. rewrite Hr in H.
    by apply update_play_coins.
  - intros evs. revert g Hwf.
    induction evs as [|e evs IH]; intros g Hwf g' H Hlv.
    + injection H as <-. repeat split; try done; lia.
    + rewrite run_cons in H. destruct (step e g) as [g1|] eqn:He; [|done].
      cbn in H.
      assert (Hl1 : level g1 = level g).
      { pose proof (run_level_mono evs g1 g' H).
        destruct (step_level e g g1 He) as (_ & [?|[? _]]); lia. }
      destruct (coins_step e g g1 Hwf He Hl1) as (Hwf1 & Hsub1 & Hs1 & Hp1).
      destruct (IH g1 Hwf1 g' H) as (Hsub & Hs & Hp & Hm); [congruence|].
      repeat split.
      * by etrans.
      * lia.
      * lia.
      * apply step_score_mono in He. lia.
  - intros evs g'. apply run_score_mono.
Qed.

End Frames.

(** * The theorems on a small game *)



(** C4 on level 1: the player touches the coin 10 of the two coins. *)
Lemma coins_scored_once_witness :
  ∃ g', on_update Demo.tilemap Demo.hit_box (Demo.frame 300 0 [10%nat])
          (Demo.playing 1 300) = Some g'
        ∧ coins g' = [mkSprite 11 900] ∧ score g' = 10.
Proof.
  destruct (on_update Demo.tilemap Demo.hit_box (Demo.frame 300 0 [10%nat])
              (Demo.playing 1 300))
    as [g'|] eqn:H; [|vm_compute in H; discriminate].
  exists g'. split; [reflexivity|].
  assert (Hwf : coins_well_formed (Demo.playing 1 300)).
  { split; compute_done. }
  destruct (proj1 (coins_scored_once Demo.tilemap Demo.hit_box
                     (Demo.playing 1 300) Hwf)
              (Demo.frame 300 0 [10%nat]) g' eq_refl H) as (Hc & Hs & _).
  split; [exact Hc | exact Hs].
Defined.


(** C8 on level 1: a frame at the end of the map with the advance
    requested. *)
Lemma advance_creates_player_at_reentry_witness :
  ∃ g', on_update Demo.tilemap Demo.hit_box (Demo.frame 7000 0 [])
          (set_next_level true (set_level_over true (Demo.playing 1 7000)))
        = Some g'
        ∧ center_x (player_sprite g') = SCREEN_WIDTH
        ∧ level g' = 2 ∧ score g' = 0.
Proof.
  destruct (proj1 (advance_creates_player_at_reentry Demo.tilemap
                     Demo.hit_box (Demo.frame 7000 0 [])
                     (set_next_level true
                        (set_level_over true (Demo.playing 1 7000)))
                     eq_refl ltac:(cbn; lia) ltac:(cbn; lia)
                     ltac:(cbn; lia) eq_refl
                     ltac:(by eexists) ltac:(by eexists) ltac:(by eexists)))
    as (g' & Hg' & _ & Hx & _ & _ & _ & _ & _ & Hs & Hl).
  exists g'. split; [exact Hg'|]. split; [exact Hx|].
  split; [exact Hl | exact Hs].
Defined.



(** C8, the claim as stated fails.  The player walks left past the end of
    the first map, so it faces left with the frame counter at 1, and the
    advance is requested.  The player after the advance faces right with the
    frame counter at 0: it is not the player of before moved to the re-entry
    point, but a new one. *)
Lemma advance_recreates_player :
  ∃ g g',
    (GameView_init Demo.tilemap Demo.hit_box
     ≫= run Demo.tilemap Demo.hit_box
          [KeyPress key.LEFT Demo.grounded; Update (Demo.frame 4000 0 []);
           Update (Demo.frame 4000 0 []); KeyPress key.SPACE Demo.grounded])
    = Some g
    ∧ character_face_direction (player_sprite g) = LEFT_FACING
    ∧ cur_texture (player_sprite g) = 1
    ∧ next_level g = true
    ∧ on_update Demo.tilemap Demo.hit_box (Demo.frame 4000 0 []) g = Some g'
    ∧ level g' = level g + 1
    ∧ character_face_direction (player_sprite g') = RIGHT_FACING
    ∧ cur_texture (player_sprite g') = 0
    ∧ player_sprite g' ≠ repositioned (player_sprite g)
    ∧ player_sprite g' = repositioned (start_player Demo.hit_box).
Proof.
  eexists _, _.
  split; [vm_compute; reflexivity|].
  split; [vm_compute; reflexivity|].
  split; [vm_compute; reflexivity|].
  split; [vm_compute; reflexivity|].
  split; [vm_compute; reflexivity|].
  split; [vm_compute; reflexivity|].
  split; [vm_compute; reflexivity|].
  split; [vm_compute; reflexivity|].
  split; [vm_compute; discriminate|].
  vm_compute; reflexivity.
Qed.

(** * Further properties of the game *)

(** ** The image of the player *)

Lemma py_index_elem_of {A : Type} (l : list A) (i : Z) (x : A) :
  py_index l i = Some x → x ∈ l.
Proof.
  unfold py_index. destruct (0 <=? i).
  - apply list_elem_of_lookup_2.
  - destruct (_ <=? i); [apply list_elem_of_lookup_2|done].
Qed.

Lemma climbing_textures_not_flipped (t : Texture) :
  t ∈ climbing_textures → flipped_horizontally t = false.
Proof.
  unfold climbing_textures. rewrite !elem_of_cons, elem_of_nil.
  by intros [-> | [-> | []]].
Qed.

Lemma walk_textures_flipped (pr : Texture * Texture) (d : Facing) :
  pr ∈ walk_textures →
  flipped_horizontally (pair_at pr d) = Facing_eqb d LEFT_FACING.
Proof.
  unfold walk_textures. rewrite list_elem_of_fmap.
  intros (i & -> & _). by destruct d.
Qed.

(** X14.  The image [update_animation] selects is mirrored exactly when the
    character faces left, except on a ladder, where the climbing image is
    never mirrored. *)
Theorem texture_faces_direction (p p' : PlayerCharacter) :
  update_animation p = Some p' →
  flipped_horizontally (texture p')
  = (if climbing p' then false
     else Facing_eqb (character_face_direction p') LEFT_FACING).
Proof.
  unfold update_animation.
  set (p3 := if climbing (update_climbing (update_facing p))
                && Qlt_bool 1 (Qabs (change_y (update_climbing
                                                 (update_facing p))))
             then advance_texture (update_climbing (update_facing p))
             else update_climbing (update_facing p)).
  destruct (advance_texture_fields p3) as (Bc & _ & _ & _ & Bf & _).
  destruct (climbing p3) eqn:Hc.
  - destruct (py_index climbing_textures (cur_texture p3 / 4)) as [t|] eqn:Ht;
      [|done].
    cbn. intros H. injection H as <-. cbn. rewrite Hc.
    by apply py_index_elem_of, climbing_textures_not_flipped in Ht.
  - intros H.
    repeat match type of H with
           | (if ?b then _ else _) = _ => destruct b
           end;
      try (injection H as <-; cbn; rewrite Hc;
           by destruct (character_face_direction p3)).
    destruct (py_index walk_textures (cur_texture (advance_texture p3)))
      as [pr|] eqn:Hpr; [|done].
    cbn in H. injection H as <-. cbn. rewrite Bc.
    apply py_index_elem_of in Hpr.
    by apply walk_textures_flipped.
Qed.

(** ** The camera *)

(** X15.  The point the camera is sent to is never left of or below the origin;
    it puts the player at the middle of the viewport along each axis on
    which the player is at least half a viewport away from the origin, and
    is 0 along the others. *)
Theorem center_camera_to_player_clamped (w h : Q) (g : GameView) :
  let target := center_camera_to_player w h g in
  let p := player_sprite g in
  (0 <= fst target)%Q ∧ (0 <= snd target)%Q
  ∧ (if Qle_bool (w / 2) (center_x p)
     then (fst target + w / 2 == center_x p)%Q else fst target = 0%Q)
  ∧ (if Qle_bool (h / 2) (center_y p)
     then (snd target + h / 2 == center_y p)%Q else snd target = 0%Q).
Proof.
  cbv zeta. unfold center_camera_to_player. cbn [fst snd].
  assert (Hax : ∀ c v : Q,
    let t := if Qlt_bool (c - v / 2) 0 then 0%Q else (c - v / 2)%Q in
    (0 <= t)%Q
    ∧ (if Qle_bool (v / 2) c then (t + v / 2 == c)%Q else t = 0%Q)).
  { intros c v. cbv zeta.
    destruct (Qlt_bool (c - v / 2) 0) eqn:Hlt.
    - apply Qlt_bool_iff in Hlt. split; [apply Qle_refl|].
      destruct (Qle_bool (v / 2) c) eqn:Hle; [|done].
      apply Qle_bool_iff, Qle_minus_iff in Hle. exfalso.
      exact (Qlt_not_le _ _ Hlt Hle).
    - apply Qlt_bool_false_iff in Hlt. split; [done|].
      destruct (Qle_bool (v / 2) c) eqn:Hle; [ring|].
      exfalso. assert (Qle_bool (v / 2) c = true); [|congruence].
      by apply Qle_bool_iff, Qle_minus_iff. }
  destruct (Hax (center_x (player_sprite g)) w) as [X1 X2].
  destruct (Hax (center_y (player_sprite g)) h) as [Y1 Y2].
  done.
Qed.

(** ** The fading views *)

(** One call of [update_fade] with a next view: the fade-in alpha goes down
    by [FADE_RATE] and is dropped at 0, the fade-out alpha goes up by
    [FADE_RATE], and the next view is made and shown once that is above
    255. *)
Lemma update_fade_cases {V : Type} (make : option V) (v v' : FadingView)
    (shown : option V) :
  update_fade (Some make) v = Some (v', shown) →
  fade_in v'
  = (i ← fade_in v;
     if i - FADE_RATE <=? 0 then None else Some (i - FADE_RATE))
  ∧ fade_out v' = (λ o, o + FADE_RATE) <$> fade_out v
  ∧ ((shown = None ∧ ∀ o, fade_out v = Some o → o + FADE_RATE ≤ 255)
     ∨ ∃ o x, fade_out v = Some o ∧ 255 < o + FADE_RATE
              ∧ make = Some x ∧ shown = Some x).
Proof.
  unfold update_fade. destruct v as [[o|] fi]; cbn.
  - destruct (Z.ltb_spec 255 (o + FADE_RATE)) as [Hlt | Hle].
    + destruct make as [x|]; [|done]. cbn.
      intros H. injection H as <- <-.
      split; [by destruct fi as [i|]; cbn; [destruct (_ <=? 0)|]|].
      split; [by destruct fi as [i|]; cbn; [destruct (_ <=? 0)|]|].
      right. by exists o, x.
    + cbn. intros H. injection H as <- <-.
      split; [by destruct fi as [i|]; cbn; [destruct (_ <=? 0)|]|].
      split; [by destruct fi as [i|]; cbn; [destruct (_ <=? 0)|]|].
      left. split; [done|]. intros ? [= <-]. done.
  - intros H. injection H as <- <-.
    split; [by destruct fi as [i|]; cbn; [destruct (_ <=? 0)|]|].
    split; [by destruct fi as [i|]; cbn; [destruct (_ <=? 0)|]|].
    left. split; [done|]. intros ? [=].
Qed.

(** A view that is not fading out: [n] calls of [update_fade] take
    [FADE_RATE] times [n] off the fade-in alpha, which is dropped when
    nothing is left. *)
Lemma update_fade_times_fade_in {V : Type} (next_view : option (option V))
    (n : nat) (fi : option Z) :
  (∀ i, fi = Some i → 0 < i) →
  update_fade_times next_view n (mkFadingView None fi)
  = Some (mkFadingView None
            (i ← fi;
             if FADE_RATE * Z.of_nat n <? i
             then Some (i - FADE_RATE * Z.of_nat n) else None)).
Proof.
  revert fi. induction n as [|n IH]; intros fi Hpos.
  - cbn [update_fade_times]. f_equal. f_equal.
    destruct fi as [i|]; [|done]. cbn. specialize (Hpos i eq_refl).
    unfold FADE_RATE.
    destruct (Z.ltb_spec (5 * Z.of_nat 0) i); [|lia]. f_equal. lia.
  - cbn [update_fade_times]. unfold update_fade at 1.
    cbn [fade_out fade_in mbind option_bind].
    destruct fi as [i|]; cbn [mbind option_bind fade_out fade_in].
    + unfold FADE_RATE in *.
      destruct (Z.leb_spec (i - 5) 0) as [Hle | Hgt].
      * rewrite IH by done. cbn [mbind option_bind].
        by destruct (Z.ltb_spec (5 * Z.of_nat (S n)) i); [lia|].
      * rewrite IH by (intros ? [= <-]; lia). cbn [mbind option_bind].
        f_equal. f_equal.
        destruct (Z.ltb_spec (5 * Z.of_nat n) (i - 5)),
          (Z.ltb_spec (5 * Z.of_nat (S n)) i); try lia; [|done].
        f_equal. lia.
    + by rewrite IH.
Qed.

(** X13.  A view fades in over exactly 51 updates: after [n] calls of
    [update_fade] a new view that is not fading out draws its rectangle with
    alpha 255 - 5 n while [n] is below 51, and draws none from the 51st call
    on, whatever the next view is. *)
Theorem fade_in_lasts_51_updates {V : Type} (next_view : option (option V))
    (n : nat) :
  ∃ v, update_fade_times next_view n FadingView_init = Some v
       ∧ draw_fading v
         = if (n <? 51)%nat then [255 - 5 * Z.of_nat n] else [].
Proof.
  unfold FadingView_init.
  rewrite update_fade_times_fade_in by (intros ? [= <-]; lia).
  eexists. split; [done|]. unfold draw_fading, FADE_RATE.
  cbn [fade_out fade_in mbind option_bind app].
  destruct (Z.ltb_spec (5 * Z.of_nat n) 255), (Nat.ltb_spec n 51);
    try lia; done.
Qed.

(** ** Velocities from the keys *)

(** X1.  With the level not over, [process_keychange] sets the horizontal
    velocity from the left and right flags alone: [PLAYER_MOVEMENT_SPEED]
    for right without left, its opposite for left without right, 0
    otherwise.  Off a ladder the vertical velocity is set to
    [PLAYER_JUMP_SPEED] when the jump branch is taken and is left as it is in
    every other case, whatever the down key. *)
Theorem velocities_from_keys (q : Physics) (g : GameView) :
  level_over g = false →
  change_x (player_sprite (process_keychange q g))
  = (if right_pressed g && negb (left_pressed g) then PLAYER_MOVEMENT_SPEED
     else if left_pressed g && negb (right_pressed g)
          then (- PLAYER_MOVEMENT_SPEED)%Q
          else 0%Q)
  ∧ (phys_is_on_ladder q = false →
     change_y (player_sprite (process_keychange q g))
     = (if jumps q g then PLAYER_JUMP_SPEED
        else change_y (player_sprite g))).
Proof.
  intros Hlo. rewrite process_keychange_eq, Hlo. cbn.
  split; [done|]. intros Hl. unfold keychange_change_y. by rewrite Hl.
Qed.


(** ** The background layers *)

Lemma String_leb_Total : Total (λ a b : string, Is_true (String.leb a b)).
Proof.
  intros a b. destruct (String.leb_total a b) as [H | H]; rewrite H; by auto.
Qed.

Lemma sorted_background_layers_facts (sc : gmap string (list Sprite)) :
  Sorted (λ a b, Is_true (String.leb a b)) (sorted_background_layers sc)
  ∧ NoDup (sorted_background_layers sc)
  ∧ ∀ name, name ∈ sorted_background_layers sc
            ↔ is_Some (sc !! name) ∧ name ∉ NON_BACKGROUND_LAYERS.
Proof.
  unfold sorted_background_layers.
  set (l := filter _ _).
  pose proof (merge_sort_Permutation
                (λ a b : string, Is_true (String.leb a b)) l) as Hperm.
  split; [|split].
  - exact (@Sorted_merge_sort _
             (λ a b : string, Is_true (String.leb a b)) _
             String_leb_Total l).
  - rewrite Hperm. subst l. apply NoDup_filter, NoDup_fst_map_to_list.
  - intros name. rewrite Hperm. subst l.
    rewrite list_elem_of_filter, list_elem_of_fmap. split.
    + intros [Hn ([k v] & -> & Hkv)]. split; [|done].
      apply elem_of_map_to_list in Hkv. by exists v.
    + intros [[v Hv] Hn]. split; [done|]. exists (name, v). split; [done|].
      by apply elem_of_map_to_list.
Qed.

(** ** Layers of a loaded level *)

Lemma add_player_layer_lookup (sc : gmap string (list Sprite))
    (name : string) :
  name ≠ LAYER_NAME_PLAYER → add_player_layer sc !! name = sc !! name.
Proof.
  intros Hne. unfold add_player_layer.
  destruct (sc !! LAYER_NAME_PLAYER); [done|]. by rewrite lookup_insert_ne.
Qed.

Lemma add_player_layer_player (sc : gmap string (list Sprite)) :
  is_Some (add_player_layer sc !! LAYER_NAME_PLAYER).
Proof.
  unfold add_player_layer.
  destruct (sc !! LAYER_NAME_PLAYER) eqn:E; [by rewrite E|].
  by rewrite lookup_insert_eq.
Qed.

(** [well_formed] reads the frame counter, the scene, the background layers
    and the level only. *)
Lemma well_formed_ext (g h : GameView) :
  cur_texture (player_sprite h) = cur_texture (player_sprite g) →
  scene h = scene g →
  background_layer_names h = background_layer_names g →
  level h = level g →
  well_formed g → well_formed h.
Proof.
  intros Hc Hs Hb Hl. unfold well_formed, animated_layers, coins.
  by rewrite Hc, Hs, Hb, Hl.
Qed.


(** ** The game as a whole *)

Section More.

Variable load_tilemap : Z → gmap string (list Sprite).
Variable idle_hit_box_right : Q.

Lemma GameView_init_unfold :
  GameView_init load_tilemap idle_hit_box_right
  = ltac:(let t := eval unfold GameView_init in
                   (GameView_init load_tilemap idle_hit_box_right) in
          exact t).
Proof. reflexivity. Qed.

Local Abbreviation load_level := (load_level load_tilemap idle_hit_box_right).
Local Abbreviation advance_level :=
  (advance_level load_tilemap idle_hit_box_right).
Local Abbreviation update_level :=
  (update_level load_tilemap idle_hit_box_right).
Local Abbreviation on_update := (on_update load_tilemap idle_hit_box_right).
Local Abbreviation step := (step load_tilemap idle_hit_box_right).
Local Abbreviation run := (run load_tilemap idle_hit_box_right).
Local Abbreviation setup := (setup load_tilemap idle_hit_box_right).
Local Abbreviation GameView_init :=
  (GameView_init load_tilemap idle_hit_box_right).

(** A new game: the first level as [load_level] leaves it, no key held,
    score 0, and the theme music started. *)
Lemma GameView_init_frame (g : GameView) :
  GameView_init = Some g →
  left_pressed g = false ∧ right_pressed g = false
  ∧ up_pressed g = false ∧ down_pressed g = false
  ∧ jump_needs_reset g = false
  ∧ score g = 0 ∧ level g = 1 ∧ max_level g = 4
  ∧ level_over g = false ∧ next_level g = false
  ∧ effects g = [play_sound theme_music true]
  ∧ player_sprite g = start_player idle_hit_box_right
  ∧ camera_x_prev g = PLAYER_START_X_float
  ∧ background_layer_names g = sorted_background_layers (scene g).
Proof.
  rewrite GameView_init_unfold, setup_unfold. cbn [level].
  destruct (load_level 1 _) as [g1|] eqn:H1; [|done].
  cbn [mbind option_bind]. intros H. injection H as <-.
  apply load_level_frame in H1
    as (L1&L2&L3&L4&L5&L6&L7&L8&L9&L10&L11&L12&L13&L14).
  cbn in *. by rewrite L1, L2, L3, L4, L5, L7, L8, L9, L10, L11, L12, L13, L14.
Qed.

(** *** The flags stay consistent *)

Lemma consistent_step (e : Event) (g g' : GameView) :
  consistent g → step e g = Some g' → consistent g'.
Proof.
  intros (Hn & Hlo & Hj & Hlv) Hs. unfold consistent.
  destruct (step_jump _ _ e g g' Hs) as (_ & Hjr & Hup).
  assert (Hjump : jump_needs_reset g' = true → up_pressed g' = true).
  { rewrite Hjr, Hup. intros H.
    destruct (jumped e g) eqn:Ej.
    - apply jumped_needs in Ej as (_ & [Eu | Ep] & Er).
      + rewrite Eu, Er. by rewrite orb_true_r.
      + by rewrite Ep.
    - cbn in H. apply andb_true_iff in H as [H1 H2].
      rewrite (Hj H1), H2. by rewrite orb_true_r. }
  destruct e as [k q | k q | f]; cbn in Hs.
  - injection Hs as <-. unfold on_key_press in *.
    destruct (key_down_frame k g)
      as (K1&K2&K3&K4&K5&K6&K7&_&_&_&_&_&K13).
    destruct (key_event_frame q (key_down k g) g K1 K2 K3 K4 K5 K6 K7)
      as (_&_&_&->&->&->&->&->&_).
    cbv zeta in K13. rewrite K13. repeat split; try done; try lia.
    intros [H | H]%orb_true_iff; [by apply Hn|].
    by apply andb_true_iff in H as [_ H].
  - injection Hs as <-. unfold on_key_release in *.
    destruct (key_up_frame k g)
      as (K1&K2&K3&K4&K5&K6&K7&_&_&_&_&_&K13).
    destruct (key_event_frame q (key_up k g) g K1 K2 K3 K4 K5 K6 K7)
      as (_&_&_&->&->&->&->&->&_).
    cbv zeta in K13. rewrite K13. repeat split; try done; lia.
  - rewrite on_update_unfold in Hs.
    destruct (reached_end_of_map g) eqn:Hr.
    + apply update_level_frame in Hs as (_&_&_&_&_&_&->&_&_&_&H).
      destruct (level g <? max_level g) eqn:Hlt, (next_level g) eqn:Hnl;
        cbn [andb] in H.
      * destruct H as (->&->&->&_). apply Z.ltb_lt in Hlt.
        repeat split; try done; lia.
      * destruct H as (->&->&->&Hp&_&He&_).
        unfold reached_end_of_map in *. rewrite Hp, He.
        repeat split; try done; lia.
      * destruct H as (->&->&->&Hp&_&He&_).
        unfold reached_end_of_map in *. rewrite Hp, He.
        repeat split; try done; lia.
      * destruct H as (->&->&->&Hp&_&He&_).
        unfold reached_end_of_map in *. rewrite Hp, He.
        repeat split; try done; lia.
    + assert (Hlo0 : level_over g = false).
      { destruct (level_over g); [|done]. specialize (Hlo eq_refl). congruence. }
      assert (Hn0 : next_level g = false).
      { destruct (next_level g); [|done]. specialize (Hn eq_refl). congruence. }
      apply update_play_frame in Hs as (_&_&_&_&_&->&->&->&->&_).
      rewrite Hlo0, Hn0. repeat split; try done; lia.
Qed.


Lemma consistent_step_run (evs : list Event) (g g' : GameView) :
  consistent g → run evs g = Some g' → consistent g'.
Proof.
  revert g. induction evs as [|e evs IH]; intros g Hc H.
  - by injection H as <-.
  - rewrite run_cons in H. destruct (step e g) as [g1|] eqn:He; [|done].
    cbn in H. eapply IH; [|exact H]. by eapply consistent_step.
Qed.

(** X2.  The flags of the game are consistent in a new game and stay so along
    every run: an advance is requested only while the level is over, the
    level is over only with the player at the end of the map, the jump latch
    is closed only while up is held, and the level number stays between 1
    and the last level. *)
Theorem consistent_run (evs : list Event) (g g' : GameView) :
  consistent g ∨ GameView_init = Some g →
  run evs g = Some g' → consistent g'.
Proof.
  intros Hc. apply consistent_step_run.
  destruct Hc as [Hc | Hi]; [done|].
  apply GameView_init_frame in Hi as (_&_&U&_&J&_&L&M&LO&NL&_).
  unfold consistent. rewrite U, J, L, M, LO, NL. repeat split; done.
Qed.

(** *** Frames and key events never raise *)

(** A map that has the layers loads, and leaves a well-formed state. *)
Lemma load_level_well_formed (g : GameView) :
  1 ≤ level g ≤ 4 → map_loads (load_tilemap (level g)) (level g) →
  ∃ g', load_level (level g) g = Some g' ∧ well_formed g'.
Proof.
  intros Hl (Hp & Hc & Hd & H12 & Hnd).
  destruct (load_level_total load_tilemap idle_hit_box_right (level g) g
              Hl Hp H12) as [g' Hg'].
  exists g'. split; [done|].
  destruct (load_level_inv _ _ _ _ _ Hg') as (sc & e & _ & _ & Hsc & ->).
  destruct (sorted_background_layers_facts sc) as (_ & Hnodup & Hmem).
  assert (Hlook : ∀ name, name ≠ LAYER_NAME_PLAYER →
                          name ≠ LAYER_NAME_PLATFORMS →
                          sc !! name = load_tilemap (level g) !! name).
  { intros name H1 H2. destruct (1 <? level g).
    - destruct Hsc as (p & p1 & p2 & _ & _ & _ & ->).
      rewrite lookup_insert_ne by done. by apply add_player_layer_lookup.
    - subst sc. by apply add_player_layer_lookup. }
  assert (Hplayer : is_Some (sc !! LAYER_NAME_PLAYER)).
  { destruct (1 <? level g).
    - destruct Hsc as (p & p1 & p2 & _ & _ & _ & ->).
      rewrite lookup_insert_ne by done. apply add_player_layer_player.
    - subst sc. apply add_player_layer_player. }
  assert (Hplat : is_Some (sc !! LAYER_NAME_PLATFORMS)).
  { destruct (1 <? level g).
    - destruct Hsc as (p & p1 & p2 & _ & _ & _ & ->).
      by rewrite lookup_insert_eq.
    - subst sc. by rewrite add_player_layer_lookup. }
  unfold well_formed, animated_layers, coins.
  cbn [player_sprite scene background_layer_names level set_camera_x_prev
       set_background_layer_names set_end_of_map set_player_sprite
       set_scene].
  split; [cbn; lia|]. split; [done|]. split; [|split].
  - apply Forall_forall. intros name Hin. apply Hmem in Hin as [? ?]. done.
  - destruct (Z.eqb_spec (level g) 1) as [H1|H1].
    + repeat (apply Forall_cons; split); try apply Forall_nil;
        rewrite ?Hlook by done; done.
    + apply Forall_app. split.
      * assert (Hlt : 1 < level g) by lia.
        destruct (H12 Hlt) as [Hp1 Hp2].
        unfold NON_BACKGROUND_LAYERS.
        repeat (apply Forall_cons; split); try apply Forall_nil;
          rewrite ?Hlook by done; done.
      * apply Forall_forall. intros name Hin. by apply Hmem in Hin as [? ?].
  - by rewrite Hlook.
Qed.

(** A frame before the end of the map keeps a state well formed. *)
Lemma update_play_well_formed (f : Frame) (g g' : GameView) :
  well_formed g → update_play f g = Some g' → well_formed g'.
Proof.
  intros Hwf H.
  assert (Hcw : coins_well_formed g).
  { destruct Hwf as (_ & _ & Hbg & _ & Hnd). split; [|done].
    intros Hin. rewrite Forall_forall in Hbg.
    destruct (Hbg _ Hin) as [Hnot _]. apply Hnot.
    unfold NON_BACKGROUND_LAYERS.
    do 4 apply list_elem_of_further. apply list_elem_of_here. }
  destruct (update_play_coins f g g' Hcw H) as (Hcoins & _).
  pose proof (update_play_frame f g g' H)
    as (_&_&_&_&_&Hlv&_&_&_&Hbgn&_).
  destruct (update_play_inv f g g' H) as (sc & p' & cs & Hpar & Hsua & _ & ->).
  destruct Hwf as (Hc & Hnd & Hbg & Han & Hndc).
  destruct (play_moved_frame f g)
    as (_&_&_&_&Hsc0&_&_&Hlv0&_&_&_&_&Hbg0&_).
  cbv zeta in *.
  assert (Hcm : cur_texture (player_sprite (play_moved f g))
                = cur_texture (player_sprite g)).
  { unfold play_moved. cbv zeta.
    repeat match goal with
           | |- context [if ?b then _ else _] => destruct b
           end;
      match goal with
      | |- context [process_keychange ?q ?h] =>
          by destruct (process_keychange_player q h) as (_&_&_&_&->&_)
      end. }
  assert (Hdom : ∀ name, is_Some (sc !! name) ↔ is_Some (scene g !! name)).
  { intros name. destruct (1 <? level g); [|by subst].
    by eapply parallax_from_is_Some. }
  set (g0 := set_camera_x_prev (camera_position_x f)
               (set_scene sc (play_moved f g))) in *.
  destruct (scene_update_animation_total (animated_layers g) g0)
    as (p'' & Hsua' & Hc'').
  { eapply Forall_impl; [exact Han|]. intros name Hs. cbn. by apply Hdom. }
  { subst g0. cbn. by rewrite Hcm. }
  rewrite Hsua in Hsua'. injection Hsua' as Hp.
  assert (p' = p'') as ->.
  { change p' with (player_sprite (set_player_sprite p' g0)).
    by rewrite Hp. }
  match goal with |- context [foldl collect ?h ?hits] =>
    destruct (foldl_collect_frame hits h)
      as (_&_&_&_&_&Fp&_&Flv&_&_&_&_&Fbg&_&_&Fsc);
    set (g' := foldl collect h hits) in *
  end.
  cbv zeta in *.
  assert (Hdom' : ∀ name, is_Some (scene g' !! name)
                          ↔ is_Some (scene g !! name)).
  { intros name. rewrite Fsc, foldl_remove_lookup. cbn.
    rewrite <- Hdom. destruct (decide _); [|done].
    by rewrite fmap_is_Some. }
  unfold well_formed, animated_layers. rewrite Fp, Fbg, Flv.
  cbn [player_sprite background_layer_names level set_player_sprite g0
       set_camera_x_prev set_scene].
  rewrite Hbg0, Hlv0.
  split; [done|]. split; [done|]. split; [|split].
  - eapply Forall_impl; [exact Hbg|]. intros name [? ?]. split; [done|].
    by apply Hdom'.
  - eapply Forall_impl; [exact Han|]. intros name ?. by apply Hdom'.
  - rewrite Hcoins. eapply sublist_NoDup; [exact Hndc|].
    apply fmap_sublist, List_filter_sublist.
Qed.

(** One event on a playable state, with maps that load. *)
Lemma playable_step (e : Event) (g : GameView) :
  (∀ lvl, 1 ≤ lvl ≤ 4 → map_loads (load_tilemap lvl) lvl) →
  playable g → ∃ g', step e g = Some g' ∧ playable g'.
Proof.
  intros Hmaps (Hwf & Hlv & Hmax). unfold playable.
  destruct e as [k q | k q | f]; cbn [step].
  - eexists. split; [done|]. unfold on_key_press.
    destruct (key_down_frame k g) as (K1&K2&K3&K4&K5&K6&K7&_&K9&_).
    destruct (key_event_frame q (key_down k g) g K1 K2 K3 K4 K5 K6 K7)
      as (F1&_&_&F4&F5&_).
    destruct (process_keychange_frame q (key_down k g))
      as (_&_&_&_&_&_&_&_&_&_&_&_&F13&_).
    destruct (process_keychange_player q (key_down k g)) as (_&_&_&_&P5&_).
    cbv zeta in *. rewrite F4, F5. split; [|done].
    eapply well_formed_ext; [| | | |exact Hwf]; congruence.
  - eexists. split; [done|]. unfold on_key_release.
    destruct (key_up_frame k g) as (K1&K2&K3&K4&K5&K6&K7&_&K9&_).
    destruct (key_event_frame q (key_up k g) g K1 K2 K3 K4 K5 K6 K7)
      as (F1&_&_&F4&F5&_).
    destruct (process_keychange_frame q (key_up k g))
      as (_&_&_&_&_&_&_&_&_&_&_&_&F13&_).
    destruct (process_keychange_player q (key_up k g)) as (_&_&_&_&P5&_).
    cbv zeta in *. rewrite F4, F5. split; [|done].
    eapply well_formed_ext; [| | | |exact Hwf]; congruence.
  - rewrite on_update_unfold. destruct (reached_end_of_map g).
    + rewrite update_level_unfold. cbv zeta.
      set (g0 := if (level g =? 4) && negb (level_over g) then _ else g).
      assert (H0 : level g0 = level g ∧ max_level g0 = max_level g
                   ∧ next_level g0 = next_level g
                   ∧ scene g0 = scene g
                   ∧ player_sprite g0 = player_sprite g
                   ∧ background_layer_names g0 = background_layer_names g).
      { subst g0. by destruct (_ && _). }
      destruct H0 as (E1 & E2 & E3 & E4 & E5 & E6). rewrite E1, E2.
      cbn [next_level set_level_over emit set_effects]. rewrite E3.
      destruct (level g <? max_level g) eqn:Hlt, (next_level g).
      * apply Z.ltb_lt in Hlt. rewrite advance_level_unfold.
        cbn [level set_level set_next_level set_level_over]. rewrite E1.
        set (h := set_level (level g + 1) _).
        destruct (load_level_well_formed h) as (g1 & Hg1 & Hwf1).
        { subst h. cbn. lia. }
        { subst h. cbn. apply Hmaps. lia. }
        assert (Hh : level h = level g + 1) by done.
        rewrite Hh in Hg1. rewrite Hg1. cbn [mbind option_bind].
        eexists. split; [done|].
        destruct (load_level_frame _ _ _ _ _ Hg1)
          as (_&_&_&_&_&_&L7&L8&_).
        cbn [level max_level set_player_sprite]. rewrite L7, L8.
        subst h. cbn [level max_level set_level set_next_level
          set_level_over]. rewrite E2.
        split; [|lia].
        eapply well_formed_ext; [| | | |exact Hwf1]; done.
      * eexists. split; [done|]. cbn. rewrite E1, E2. split; [|done].
        eapply well_formed_ext; [| | | |exact Hwf]; cbn; congruence.
      * eexists. split; [done|]. cbn. rewrite E1, E2. split; [|done].
        eapply well_formed_ext; [| | | |exact Hwf]; cbn; congruence.
      * eexists. split; [done|]. cbn. rewrite E1, E2. split; [|done].
        eapply well_formed_ext; [| | | |exact Hwf]; cbn; congruence.
    + destruct (update_play_total f g Hwf) as [g' Hg'].
      exists g'. split; [done|].
      split; [by eapply update_play_well_formed|].
      by apply update_play_frame in Hg' as (_&_&_&_&_&->&->&_).
Qed.


Lemma playable_run (evs : list Event) (g : GameView) :
  (∀ lvl, 1 ≤ lvl ≤ 4 → map_loads (load_tilemap lvl) lvl) →
  playable g → ∃ g', run evs g = Some g' ∧ playable g'.
Proof.
  intros Hmaps. revert g. induction evs as [|e evs IH]; intros g Hp.
  - by exists g.
  - destruct (playable_step e g Hmaps Hp) as (g1 & Hs & Hp1).
    destruct (IH g1 Hp1) as (g' & Hrun & Hp').
    exists g'. split; [|done]. by rewrite run_cons, Hs.
Qed.

Lemma GameView_init_playable :
  (∀ lvl, 1 ≤ lvl ≤ 4 → map_loads (load_tilemap lvl) lvl) →
  ∃ g0, GameView_init = Some g0 ∧ playable g0.
Proof.
  intros Hmaps. rewrite GameView_init_unfold, setup_unfold.
  match goal with |- context [load_level _ ?g] => set (g0 := g) end.
  destruct (load_level_well_formed g0) as (g1 & Hg1 & Hwf1);
    [done | by apply Hmaps |].
  change (level g0) with 1 in *. rewrite Hg1. cbn [mbind option_bind].
  eexists. split; [done|].
  destruct (load_level_frame _ _ _ _ _ Hg1) as (_&_&_&_&_&_&L7&L8&_).
  split; [by eapply well_formed_ext; [| | | |exact Hwf1]|].
  cbn. by rewrite L7, L8.
Qed.

(** X3.  With maps that have the layers the code names, nothing ever raises: a
    new game loads into a playable state, and from a playable state every
    sequence of frames and key events runs to the end and leaves a playable
    state (frame counter in [0,7], every layer that is looked up present,
    level between 1 and 4). *)
Theorem run_never_raises :
  (∀ lvl, 1 ≤ lvl ≤ 4 → map_loads (load_tilemap lvl) lvl) →
  (∃ g0, GameView_init = Some g0 ∧ playable g0)
  ∧ ∀ evs g, playable g → ∃ g', run evs g = Some g' ∧ playable g'.
Proof.
  intros Hmaps. split.
  - by apply GameView_init_playable.
  - intros evs g. by apply playable_run.
Qed.

(** *** The player in a frame before the end of the map *)

(** X4.  In a frame before the end of the map the player is where the physics
    engine left it; its [can_jump] attribute is the negation of what
    [physics_engine.can_jump()] answers; it is on a ladder when the engine
    says so and [can_jump()] is false, and climbs exactly then; the camera
    position is remembered; and with the level not over the horizontal
    velocity is the one the left and right keys give, whatever the engine
    left. *)
Theorem play_frame_player (f : Frame) (g g' : GameView) :
  reached_end_of_map g = false →
  on_update f g = Some g' →
  center_x (player_sprite g') = moved_center_x f
  ∧ center_y (player_sprite g') = moved_center_y f
  ∧ can_jump (player_sprite g')
    = Some (negb (phys_can_jump (frame_physics f) 5))
  ∧ is_on_ladder (player_sprite g')
    = phys_is_on_ladder (frame_physics f)
      && negb (phys_can_jump (frame_physics f) 5)
  ∧ climbing (player_sprite g') = is_on_ladder (player_sprite g')
  ∧ camera_x_prev g' = camera_position_x f
  ∧ change_x (player_sprite g')
    = (if level_over g then moved_change_x f else keychange_change_x g).
Proof.
  intros Hr. rewrite on_update_unfold.
  fold (reached_end_of_map g). rewrite Hr. intros H.
  pose proof (update_play_frame f g g' H) as (_&_&_&_&_&_&_&_&_&_&Hcam&_).
  destruct (update_play_inv f g g' H) as (sc & p' & cs & _ & Hsua & _ & ->).
  match goal with |- context [foldl collect ?h ?hits] =>
    destruct (foldl_collect_frame hits h) as (_&_&_&_&_&Fp&_)
  end.
  cbv zeta in Fp. rewrite Fp in *. clear Fp.
  cbn [player_sprite set_player_sprite].
  apply scene_update_animation_keeps in Hsua
    as (K1&K2&K3&K4&K5&K6&K7&K8&K9).
  cbn [player_sprite set_player_sprite set_camera_x_prev set_scene] in *.
  assert (Hcl : climbing p' = is_on_ladder p').
  { destruct K9 as [[K9 _] | K9]; [|by rewrite K9, K8].
    exfalso. apply K9. unfold animated_layers.
    destruct (level g =? 1); cbn;
      repeat first [apply list_elem_of_here | apply list_elem_of_further]. }
  destruct (play_moved_player f g) as (M1&M2&M3&M4&M5&_).
  cbv zeta in *.
  rewrite Hcl, K1, K2, K4, K6, K8, M1, M2, M3, M4, M5. by split_and!.
Qed.

(** *** What [load_level] takes from the map *)

(** X5.  The background layers [load_level] records are the layers of the tile
    map that are not foreground layers, each once, in the order of their
    names; the layer [Player] that is added and the merged platforms do not
    show among them. *)
Theorem load_level_background_layers (lvl : Z) (g g' : GameView) :
  load_level lvl g = Some g' →
  Sorted (λ a b, Is_true (String.leb a b)) (background_layer_names g')
  ∧ NoDup (background_layer_names g')
  ∧ ∀ name, name ∈ background_layer_names g'
            ↔ is_Some (load_tilemap lvl !! name)
              ∧ name ∉ NON_BACKGROUND_LAYERS.
Proof.
  intros H.
  destruct (load_level_inv _ _ _ _ _ H) as (sc & e & _ & _ & Hsc & ->).
  cbn [background_layer_names set_camera_x_prev set_background_layer_names].
  destruct (sorted_background_layers_facts sc) as (Hs & Hnd & Hmem).
  split; [done|]. split; [done|].
  intros name. rewrite Hmem.
  assert (Hfg : LAYER_NAME_PLAYER ∈ NON_BACKGROUND_LAYERS
                ∧ LAYER_NAME_PLATFORMS ∈ NON_BACKGROUND_LAYERS).
  { unfold NON_BACKGROUND_LAYERS.
    split; repeat first [apply list_elem_of_here | apply list_elem_of_further]. }
  destruct Hfg as [Hpl Hpf].
  split; intros [Hin Hbg]; (split; [|done]).
  - assert (name ≠ LAYER_NAME_PLAYER) by (by intros ->).
    assert (name ≠ LAYER_NAME_PLATFORMS) by (by intros ->).
    destruct (1 <? lvl).
    + destruct Hsc as (p & p1 & p2 & _ & _ & _ & ->).
      rewrite lookup_insert_ne in Hin by done.
      by rewrite add_player_layer_lookup in Hin.
    + subst sc. by rewrite add_player_layer_lookup in Hin.
  - assert (name ≠ LAYER_NAME_PLAYER) by (by intros ->).
    assert (name ≠ LAYER_NAME_PLATFORMS) by (by intros ->).
    destruct (1 <? lvl).
    + destruct Hsc as (p & p1 & p2 & _ & _ & _ & ->).
      rewrite lookup_insert_ne by done.
      by rewrite add_player_layer_lookup.
    + subst sc. by rewrite add_player_layer_lookup.
Qed.

(** X6.  [load_level] raises in these cases and no other: the level number has
    no entry in [END_OF_MAP], which Python indexes from -4 to 3; the map has
    no layer [Platforms]; or, above level 1, the map lacks [Platforms_1] or
    [Platforms_2]. *)
Theorem load_level_raises_iff (lvl : Z) (g : GameView) :
  load_level lvl g = None
  ↔ (lvl < -3 ∨ 4 < lvl)
    ∨ load_tilemap lvl !! LAYER_NAME_PLATFORMS = None
    ∨ (1 < lvl ∧ (load_tilemap lvl !! LAYER_NAME_PLATFORMS_1 = None
                  ∨ load_tilemap lvl !! LAYER_NAME_PLATFORMS_2 = None)).
Proof.
  rewrite load_level_unfold.
  change (LAYER_NAME_PLATFORMS +:+ "_1") with LAYER_NAME_PLATFORMS_1.
  change (LAYER_NAME_PLATFORMS +:+ "_2") with LAYER_NAME_PLATFORMS_2.
  assert (He : (lvl < -3 ∨ 4 < lvl) ∧ py_index END_OF_MAP (lvl - 1) = None
               ∨ (-3 ≤ lvl ≤ 4) ∧ is_Some (py_index END_OF_MAP (lvl - 1))).
  { destruct (Z_lt_le_dec lvl (-3)) as [Hlo | Hlo].
    - left. split; [lia|]. unfold py_index.
      destruct (Z.leb_spec 0 (lvl - 1)); [lia|].
      by destruct (Z.leb_spec (- Z.of_nat (length END_OF_MAP)) (lvl - 1));
        [cbn in *; lia|].
    - destruct (Z_lt_le_dec 4 lvl) as [Hhi | Hhi].
      + left. split; [lia|]. unfold py_index.
        destruct (Z.leb_spec 0 (lvl - 1)); [|lia].
        apply lookup_ge_None. cbn. lia.
      + right. split; [lia|].
        assert (lvl = -3 ∨ lvl = -2 ∨ lvl = -1 ∨ lvl = 0 ∨ lvl = 1
                ∨ lvl = 2 ∨ lvl = 3 ∨ lvl = 4)
          as [->|[->|[->|[->|[->|[->|[->| ->]]]]]]] by lia; by eexists. }
  destruct He as [[Hout ->] | [Hin [e ->]]]; cbn [mbind option_bind].
  { split; [by left|done]. }
  destruct (Z.ltb_spec 1 lvl) as [Hlt | Hle].
  - destruct (load_tilemap lvl !! LAYER_NAME_PLATFORMS) as [p|] eqn:Hp;
      cbn [mbind option_bind]; [|split; [by right; left|done]].
    destruct (load_tilemap lvl !! LAYER_NAME_PLATFORMS_1) as [p1|] eqn:Hp1;
      cbn [mbind option_bind];
      [|split; [by right; right; split; [|left]|done]].
    destruct (load_tilemap lvl !! LAYER_NAME_PLATFORMS_2) as [p2|] eqn:Hp2;
      cbn [mbind option_bind];
      [|split; [by right; right; split; [|right]|done]].
    split; [done|]. intros [?|[?|[_ [?|?]]]]; try done; lia.
  - cbn [mbind option_bind].
    destruct (load_tilemap lvl !! LAYER_NAME_PLATFORMS) as [p|] eqn:Hp;
      cbn [mbind option_bind]; [|split; [by right; left|done]].
    split; [done|]. intros [?|[?|[? _]]]; try done; lia.
Qed.

(** *** The end view *)

Lemma shown_EndView_app (l : list Effect) (g g' : GameView) :
  effects g' = (l ++ effects g)%list →
  shown_EndView g'
  = (length (List.filter is_show_view l) + shown_EndView g)%nat.
Proof.
  intros H. unfold shown_EndView.
  by rewrite H, List.filter_app, length_app.
Qed.

Lemma filter_is_show_view_replicate (n : nat) (e : Effect) :
  is_show_view e = false →
  List.filter is_show_view (replicate n e) = [].
Proof. intros H. induction n as [|n IH]; [done|]. cbn. by rewrite H. Qed.

Lemma existsb_is_show_view_replicate (n : nat) (e : Effect) :
  is_show_view e = false → existsb is_show_view (replicate n e) = false.
Proof. intros H. induction n as [|n IH]; [done|]. cbn. by rewrite H. Qed.

(** The calls an event adds to the effect log: [show_view] is among them,
    once, in a frame at the end of the map of the last level that finds
    [next_level] set, and in no other event. *)
Lemma step_effects (e : Event) (g g' : GameView) :
  step e g = Some g' →
  let shows := is_update e && reached_end_of_map g
               && negb (level g <? max_level g) && next_level g in
  ∃ l, effects g' = (l ++ effects g)%list
       ∧ length (List.filter is_show_view l) = (if shows then 1 else 0)%nat
       ∧ existsb is_show_view l = shows.
Proof.
  cbv zeta. destruct e as [k q | k q | f]; cbn [step is_update andb].
  - intros H. injection H as <-. unfold on_key_press.
    destruct (key_down_frame k g) as (K1&K2&K3&K4&K5&K6&K7&_&_&K10&_).
    destruct (key_event_frame q (key_down k g) g K1 K2 K3 K4 K5 K6 K7)
      as (_&_&_&_&_&_&_&_&Hef).
    cbv zeta in *. rewrite K10 in Hef. eexists. split; [exact Hef|].
    by destruct (jumps _ _).
  - intros H. injection H as <-. unfold on_key_release.
    destruct (key_up_frame k g) as (K1&K2&K3&K4&K5&K6&K7&_&_&K10&_).
    destruct (key_event_frame q (key_up k g) g K1 K2 K3 K4 K5 K6 K7)
      as (_&_&_&_&_&_&_&_&Hef).
    cbv zeta in *. rewrite K10 in Hef. eexists. split; [exact Hef|].
    by destruct (jumps _ _).
  - rewrite on_update_unfold. fold (reached_end_of_map g).
    destruct (reached_end_of_map g); cbn [andb]; intros H.
    + apply update_level_cases in H. cbv zeta in H.
      set (won := (level g =? 4) && negb (level_over g)) in *.
      destruct (level g <? max_level g), (next_level g); cbn [andb negb].
      * apply advance_level_frame in H as (_&_&_&_&_&_&_&_&_&_&Hef&_).
        cbn in Hef.
        exists (if won then [sleep 2; play_sound victory_sound false]
                else []).
        rewrite Hef. by destruct won.
      * subst g'.
        exists (if won then [sleep 2; play_sound victory_sound false]
                else []).
        by destruct won.
      * subst g'.
        exists (show_view_EndView :: stop_sound theme_music
                :: if won then [sleep 2; play_sound victory_sound false]
                   else []).
        by destruct won.
      * subst g'.
        exists (stop_sound theme_music
                :: if won then [sleep 2; play_sound victory_sound false]
                   else []).
        by destruct won.
    + apply update_play_frame in H
        as (_&_&_&_&_&_&_&_&_&_&_&_&hits&_&Hef).
      rewrite app_assoc in Hef. eexists. split; [exact Hef|].
      rewrite List.filter_app, length_app, existsb_app.
      rewrite filter_is_show_view_replicate,
        existsb_is_show_view_replicate by done.
      by destruct (jumps _ _).
Qed.

Lemma step_shown_EndView (e : Event) (g g' : GameView) :
  step e g = Some g' →
  shown_EndView g'
  = ((if is_update e && reached_end_of_map g
         && negb (level g <? max_level g)%Z && next_level g
      then 1 else 0) + shown_EndView g)%nat.
Proof.
  intros H. destruct (step_effects e g g' H) as (l & Hef & Hn & _).
  by rewrite (shown_EndView_app _ _ _ Hef), Hn.
Qed.

Lemma step_shows_EndView (e : Event) (g g' : GameView) :
  step e g = Some g' →
  shows_EndView g g'
  = is_update e && reached_end_of_map g
    && negb (level g <? max_level g) && next_level g.
Proof.
  intros H. destruct (step_effects e g g' H) as (l & Hef & _ & Hx).
  unfold shows_EndView. rewrite Hef, length_app.
  replace (length l + length (effects g) - length (effects g))%nat
    with (length l) by lia.
  by rewrite take_app_length.
Qed.

(** X7.  The end view is never shown while a level below the last is played, and
    never without a press of the space key: over any run that ends below
    the last level, and over any run without a space press from a state in
    which no advance is requested, [window.show_view] is not called. *)
Theorem end_view_needs_last_level_and_space (evs : list Event)
    (g g' : GameView) :
  run evs g = Some g' →
  (level g' < max_level g'
   ∨ (next_level g = false ∧ Forall (λ e, is_space_press e = false) evs)) →
  shown_EndView g' = shown_EndView g.
Proof.
  revert g. induction evs as [|e evs IH]; intros g H Hc.
  - by injection H as <-.
  - rewrite run_cons in H. destruct (step e g) as [g1|] eqn:He; [|done].
    cbn in H. rewrite (IH g1 H).
    + rewrite (step_shown_EndView e g g1 He).
      destruct Hc as [Hlt | [Hn Hall]].
      * pose proof (step_level_run_max _ _ evs g1 g' H) as [Hm Hl].
        destruct (step_level _ _ e g g1 He) as (Hm1 & Hl1).
        destruct (Z.ltb_spec (level g) (max_level g)) as [_ | Hge].
        -- by rewrite !andb_false_r.
        -- exfalso. destruct Hl1 as [Hl1 | (Hl1 & _)]; lia.
      * by rewrite Hn, andb_false_r.
    + destruct Hc as [Hlt | [Hn Hall]]; [by left|right].
      apply Forall_cons in Hall as [Hsp Hall]. split; [|done].
      clear IH H. destruct e as [k q | k q | f]; cbn in He.
      * injection He as <-. unfold on_key_press.
        destruct (key_down_frame k g)
          as (K1&K2&K3&K4&K5&K6&K7&_&_&_&_&_&K13).
        destruct (key_event_frame q (key_down k g) g K1 K2 K3 K4 K5 K6 K7)
          as (_&_&_&_&_&_&->&_).
        cbv zeta in K13. rewrite K13, Hn. by destruct k.
      * injection He as <-. unfold on_key_release.
        destruct (key_up_frame k g)
          as (K1&K2&K3&K4&K5&K6&K7&_&_&_&_&_&K13).
        destruct (key_event_frame q (key_up k g) g K1 K2 K3 K4 K5 K6 K7)
          as (_&_&_&_&_&_&->&_).
        cbv zeta in K13. by rewrite K13.
      * rewrite on_update_unfold in He. fold (reached_end_of_map g) in He.
        destruct (reached_end_of_map g).
        -- apply update_level_frame in He as (_&_&_&_&_&_&_&_&_&_&Hx).
           rewrite Hn, andb_false_r in Hx. by destruct Hx as (_&_&->&_).
        -- by apply update_play_frame in He as (_&_&_&_&_&_&_&_&->&_).
Qed.

(** *** The direction keys *)

Lemma step_pressed (d : Direction) (e : Event) (g g' : GameView) :
  step e g = Some g' → pressed d g' = held_after d [e] (pressed d g).
Proof.
  destruct e as [k q | k q | f]; cbn [step held_after].
  - intros H. injection H as <-. unfold on_key_press.
    destruct (process_keychange_frame q (key_down k g)) as (F1&F2&F3&F4&_).
    cbv zeta in *. unfold pressed, moves.
    destruct d; rewrite ?F1, ?F2, ?F3, ?F4; destruct k; cbn; try done;
      by destruct (level_over g).
  - intros H. injection H as <-. unfold on_key_release.
    destruct (process_keychange_frame q (key_up k g)) as (F1&F2&F3&F4&_).
    cbv zeta in *. unfold pressed, moves.
    destruct d; rewrite ?F1, ?F2, ?F3, ?F4; by destruct k.
  - rewrite on_update_unfold. fold (reached_end_of_map g).
    destruct (reached_end_of_map g); intros H.
    + apply update_level_frame in H as (F1&F2&F3&F4&_).
      unfold pressed. by destruct d.
    + apply update_play_frame in H as (F1&F2&F3&F4&_).
      unfold pressed. by destruct d.
Qed.

(** X8.  Each of the four direction flags follows the last event of its pair of
    keys: set when that was a press of either key, clear when it was a
    release of either key, and as before when the run had neither.  So with
    both keys of a pair held, releasing one clears the flag; frames and the
    other keys leave it alone. *)
Theorem direction_flag_follows_last_key_event (d : Direction)
    (evs : list Event) (g g' : GameView) :
  run evs g = Some g' → pressed d g' = held_after d evs (pressed d g).
Proof.
  revert g. induction evs as [|e evs IH]; intros g H.
  - by injection H as <-.
  - rewrite run_cons in H. destruct (step e g) as [g1|] eqn:He; [|done].
    cbn in H. rewrite (IH g1 H), (step_pressed d e g g1 He).
    by destruct e.
Qed.

(** *** Drawing a running game *)

(** In a game of four levels the victory sound has been played exactly when
    the fourth level is over. *)
Lemma step_victory_played (e : Event) (g g' : GameView) :
  step e g = Some g' →
  max_level g = 4 →
  played victory_sound g
  = (if (level g =? 4)%Z && level_over g then 1 else 0)%nat →
  played victory_sound g'
  = (if (level g' =? 4)%Z && level_over g' then 1 else 0)%nat.
Proof.
  intros Hs Hm Hv. destruct e as [k q | k q | f]; cbn in Hs.
  - injection Hs as <-. unfold on_key_press.
    destruct (key_down_frame k g) as (K1&K2&K3&K4&K5&K6&K7&_&_&K10&_).
    destruct (key_event_frame q (key_down k g) g K1 K2 K3 K4 K5 K6 K7)
      as (_&_&_&->&_&->&_&_&Hef).
    rewrite (played_app _ _ _ _ Hef), (played_same _ _ _ K10), Hv.
    by destruct (jumps q (key_down k g)).
  - injection Hs as <-. unfold on_key_release.
    destruct (key_up_frame k g) as (K1&K2&K3&K4&K5&K6&K7&_&_&K10&_).
    destruct (key_event_frame q (key_up k g) g K1 K2 K3 K4 K5 K6 K7)
      as (_&_&_&->&_&->&_&_&Hef).
    rewrite (played_app _ _ _ _ Hef), (played_same _ _ _ K10), Hv.
    by destruct (jumps q (key_up k g)).
  - rewrite on_update_unfold in Hs. fold (reached_end_of_map g) in Hs.
    destruct (reached_end_of_map g).
    + apply update_level_frame in Hs as (_&_&_&_&_&_&_&_&_&->&H).
      rewrite Hv, Hm in *.
      destruct (Z.ltb_spec (level g) 4) as [Hlt | Hge]; cbn [andb] in H.
      * destruct (Z.eqb_spec (level g) 4) as [?|_]; [lia|]. cbn [andb].
        destruct (next_level g).
        -- destruct H as (-> & -> & _). by rewrite andb_false_r.
        -- destruct H as (-> & -> & _).
           by destruct (Z.eqb_spec (level g) 4) as [?|_]; [lia|].
      * destruct H as (-> & -> & _).
        destruct (level g =? 4), (level_over g); done.
    + pose proof (update_play_played f g g' Hs) as (-> & _).
      by apply update_play_frame in Hs as (_&_&_&_&_&->&_&->&_).
Qed.

Lemma run_victory_played (evs : list Event) (g g' : GameView) :
  run evs g = Some g' →
  max_level g = 4 →
  played victory_sound g
  = (if (level g =? 4)%Z && level_over g then 1 else 0)%nat →
  played victory_sound g'
  = (if (level g' =? 4)%Z && level_over g' then 1 else 0)%nat.
Proof.
  revert g. induction evs as [|e evs IH]; intros g H Hm Hv.
  - by injection H as <-.
  - rewrite run_cons in H. destruct (step e g) as [g1|] eqn:He; [|done].
    cbn in H. apply (IH g1 H).
    + destruct (step_level _ _ e g g1 He) as [-> _]. done.
    + by eapply step_victory_played.
Qed.

Lemma mapM_draw_map_text (f : TiledObject → option Drawn)
    (objs : list TiledObject) (texts : list Drawn) (test : Drawn → bool) :
  (∀ o d, f o = Some d → test d = false) →
  mapM f objs = Some texts → existsb test texts = false.
Proof.
  intros Hf H. apply mapM_Some in H.
  induction H as [|o d objs texts Ho _ IH]; [done|].
  cbn. by rewrite (Hf o d Ho).
Qed.

(** What [on_draw] shows, whenever it returns: the prompt for the space key
    exactly while the level is over, the congratulation exactly while level
    4 is over, and the score of the state in every text that displays a
    score. *)
Lemma on_draw_shows (objs : list TiledObject) (g : GameView)
    (l : list Drawn) :
  on_draw objs g = Some l →
  draws_press_space l = level_over g
  ∧ draws_well_done l = (level g =? 4) && level_over g
  ∧ Forall (λ s, s = score g) (drawn_scores l).
Proof.
  unfold on_draw. cbv zeta.
  destruct (mapM _ objs) as [texts|] eqn:Ht; [|done].
  cbn [mbind option_bind]. intros H. injection H as <-.
  assert (Hf : ∀ test : Drawn → bool,
             (∀ t x y ft, test (draw_map_text t x y ft) = false) →
             existsb test texts = false).
  { intros test Htest. eapply mapM_draw_map_text; [|exact Ht].
    intros o d Ho. cbn in Ho.
    destruct (py_index y_scale (level g - 1)); [|done].
    cbn in Ho. injection Ho as <-. apply Htest. }
  assert (Hs : drawn_scores texts = []).
  { apply mapM_Some in Ht. clear Hf.
    induction Ht as [|o d objs texts Ho _ IH]; [done|].
    cbn in Ho. destruct (py_index y_scale (level g - 1)); [|done].
    cbn in Ho. injection Ho as <-. exact IH. }
  split_and!.
  - unfold draws_press_space. cbn [existsb orb].
    rewrite existsb_app, Hf by done.
    by destruct (level_over g), (level g =? 4).
  - unfold draws_well_done. cbn [existsb orb].
    rewrite existsb_app, Hf by done.
    by destruct (level_over g), (level g =? 4).
  - unfold drawn_scores.
    change (omap ?F (scene_draw :: ?l)) with (omap F l).
    rewrite omap_app. fold (drawn_scores texts). rewrite Hs.
    destruct (level_over g), (level g =? 4); cbn; repeat constructor.
Qed.

(** X9.  Drawing never raises in a running game, and the texts follow what was
    heard and what the keys do: in every state a new game reaches,
    [on_draw] returns whatever text objects the map has; it shows the
    congratulation exactly when the victory sound has been played, and the
    prompt for the space key exactly when a press of space would request
    the next level; every score it displays is the score of the state. *)
Theorem on_draw_of_a_running_game (objs : list TiledObject)
    (evs : list Event) (q : Physics) (g0 g : GameView) :
  GameView_init = Some g0 → run evs g0 = Some g →
  ∃ l, on_draw objs g = Some l
       ∧ draws_well_done l = (0 <? played victory_sound g)%nat
       ∧ next_level (on_key_press key.SPACE q g)
         = next_level g || draws_press_space l
       ∧ Forall (λ s, s = score g) (drawn_scores l).
Proof.
  intros Hi Hrun.
  pose proof (GameView_init_frame g0 Hi)
    as (_&_&U&_&J&_&L&M&LO&NL&Ef&_).
  assert (Hc : consistent g).
  { apply (consistent_step_run evs g0 g); [|done].
    unfold consistent. rewrite U, J, L, M, LO, NL. repeat split; done. }
  pose proof (step_level_run_max _ _ evs g0 g Hrun) as [Hm _].
  rewrite M in Hm.
  assert (Hv : played victory_sound g
               = (if (level g =? 4)%Z && level_over g then 1 else 0)%nat).
  { apply (run_victory_played evs g0 g Hrun M).
    unfold played. by rewrite Ef, L, LO. }
  destruct Hc as (_ & _ & _ & Hlv). rewrite Hm in Hlv.
  assert (Hd : is_Some (on_draw objs g)).
  { unfold on_draw. cbv zeta.
    match goal with
    | |- is_Some (mapM ?F objs ≫= _) =>
        assert (is_Some (mapM F objs)) as [texts ->]; [|done]
    end.
    apply mapM_is_Some, Forall_forall. intros o _. cbn.
    assert (level g = 1 ∨ level g = 2 ∨ level g = 3 ∨ level g = 4)
      as [->|[->|[->| ->]]] by lia; by eexists. }
  destruct Hd as [l Hl]. exists l. split; [done|].
  destruct (on_draw_shows objs g l Hl) as (Hp & Hw & Hs).
  rewrite Hw, Hp, Hv. split; [by destruct (_ && _)|]. split; [|done].
  unfold on_key_press.
  destruct (key_down_frame key.SPACE g)
    as (K1&K2&K3&K4&K5&K6&K7&_&_&_&_&_&K13).
  destruct (key_event_frame q (key_down key.SPACE g) g
              K1 K2 K3 K4 K5 K6 K7) as (_&_&_&_&_&_&->&_).
  cbv zeta in K13. by rewrite K13.
Qed.

(** *** The score and the coin sound *)

Lemma step_score_coin_sound (e : Event) (g g' : GameView) :
  step e g = Some g' →
  score g' - 10 * Z.of_nat (played collect_coin_sound g')
  = score g - 10 * Z.of_nat (played collect_coin_sound g).
Proof.
  destruct e as [k q | k q | f]; cbn [step].
  - intros H. injection H as <-. unfold on_key_press.
    destruct (key_down_frame k g) as (K1&K2&K3&K4&K5&K6&K7&_&_&K10&_).
    destruct (key_event_frame q (key_down k g) g K1 K2 K3 K4 K5 K6 K7)
      as (_&_&->&_&_&_&_&_&Hef).
    rewrite (played_app _ _ _ _ Hef), (played_same _ _ _ K10).
    by destruct (jumps _ _).
  - intros H. injection H as <-. unfold on_key_release.
    destruct (key_up_frame k g) as (K1&K2&K3&K4&K5&K6&K7&_&_&K10&_).
    destruct (key_event_frame q (key_up k g) g K1 K2 K3 K4 K5 K6 K7)
      as (_&_&->&_&_&_&_&_&Hef).
    rewrite (played_app _ _ _ _ Hef), (played_same _ _ _ K10).
    by destruct (jumps _ _).
  - rewrite on_update_unfold. fold (reached_end_of_map g).
    destruct (reached_end_of_map g); intros H.
    + by apply update_level_frame in H as (_&_&_&_&_&->&_&_&->&_).
    + apply update_play_played in H as (_ & _ & n & -> & ->). lia.
Qed.

(** X10.  The score is ten times the number of coin sounds: over any run the
    score grows by exactly 10 for each time the coin sound is played, and
    by nothing else; an advance to the next level keeps it.  A new game
    starts with score 0 and no coin sound, so there the score is ten times
    the coin sounds heard. *)
Theorem score_counts_coin_sounds (evs : list Event) (g g' : GameView) :
  run evs g = Some g' →
  score g' - score g
  = 10 * (Z.of_nat (played collect_coin_sound g')
          - Z.of_nat (played collect_coin_sound g))
  ∧ (GameView_init = Some g →
     score g' = 10 * Z.of_nat (played collect_coin_sound g')).
Proof.
  intros H.
  assert (Hd : score g' - 10 * Z.of_nat (played collect_coin_sound g')
               = score g - 10 * Z.of_nat (played collect_coin_sound g)).
  { revert g H. induction evs as [|e evs IH]; intros g H.
    - by injection H as <-.
    - rewrite run_cons in H. destruct (step e g) as [g1|] eqn:He; [|done].
      cbn in H. rewrite (IH g1 H). by apply (step_score_coin_sound e). }
  split; [lia|]. intros Hi.
  apply GameView_init_frame in Hi as (_&_&_&_&_&S&_&_&_&_&Ef&_).
  unfold played in Hd at 2. rewrite Ef, S in Hd. cbn in Hd. lia.
Qed.

(** *** The window *)

Local Abbreviation View_on_update :=
  (View_on_update load_tilemap idle_hit_box_right).
Local Abbreviation window_step :=
  (window_step load_tilemap idle_hit_box_right).
Local Abbreviation window_run :=
  (window_run load_tilemap idle_hit_box_right).

Lemma window_run_cons (e : Event) (evs : list Event) (w : View) :
  window_run (e :: evs) w = window_step e w ≫= window_run evs.
Proof. reflexivity. Qed.

Lemma window_run_app (a b : list Event) (w : View) :
  window_run (a ++ b) w = window_run a w ≫= window_run b.
Proof.
  revert w. induction a as [|e a IH]; intros w; [done|].
  cbn. destruct (window_step e w) as [w1|]; [|done]. cbn. apply IH.
Qed.

(** The window while the game is shown: the event goes to the game, and the
    end view replaces it in a frame at the end of the map of the last level
    that finds [next_level] set. *)
Lemma window_step_Game (e : Event) (g : GameView) (w' : View) :
  window_step e (Game g) = Some w' →
  ∃ g', step e g = Some g'
        ∧ w' = if is_update e && reached_end_of_map g
                  && negb (level g <? max_level g) && next_level g
               then EndView FadingView_init else Game g'.
Proof.
  destruct e as [k q | k q | f]; cbn.
  - intros H. injection H as <-. by eexists.
  - intros H. injection H as <-. by eexists.
  - destruct (on_update f g) as [g'|] eqn:Hu; [|done]. cbn.
    intros H. injection H as <-. exists g'. split; [done|].
    by rewrite (step_shows_EndView (Update f) g g' Hu).
Qed.

Lemma menu_on_key_press_ok (k : key.t) (v : FadingView) :
  Forall (λ a, 0 ≤ a ≤ 255) (draw_fading v) →
  Forall (λ a, 0 ≤ a ≤ 255) (draw_fading (menu_on_key_press k v)).
Proof.
  unfold menu_on_key_press, draw_fading.
  destruct v as [[o|] fi]; cbn; [done|].
  destruct k; cbn; try done. intros H. by apply Forall_cons.
Qed.

Lemma update_fade_ok {V : Type} (make : option V) (v v' : FadingView)
    (shown : option V) :
  update_fade (Some make) v = Some (v', shown) →
  Forall (λ a, 0 ≤ a ≤ 255) (draw_fading v) →
  shown = None →
  Forall (λ a, 0 ≤ a ≤ 255) (draw_fading v').
Proof.
  intros H Hok ->.
  apply update_fade_cases in H as (Hi & Ho & [[_ Hb] | (o & x & _ & _ & _ & ?)]);
    [|done].
  unfold draw_fading in *. rewrite Hi, Ho. unfold FADE_RATE in *.
  destruct v as [[o|] [i|]]; cbn in *.
  - apply Forall_cons in Hok as [Ho1 Hok].
    apply Forall_cons in Hok as [Hi1 _].
    specialize (Hb o eq_refl).
    destruct (Z.leb_spec (i - 5) 0); repeat constructor; lia.
  - apply Forall_cons in Hok as [Ho1 _]. specialize (Hb o eq_refl).
    repeat constructor; lia.
  - apply Forall_cons in Hok as [Hi1 _].
    destruct (Z.leb_spec (i - 5) 0); repeat constructor; lia.
  - done.
Qed.

Lemma window_ok_init : window_ok (StartView FadingView_init).
Proof. cbn. by repeat constructor. Qed.

Lemma window_ok_new_game (g : GameView) :
  GameView_init = Some g → window_ok (Game g).
Proof.
  intros H. apply GameView_init_frame in H
    as (_&_&U&_&J&S&L&M&LO&NL&Ef&_).
  cbn. unfold consistent, shown_EndView.
  rewrite U, J, S, L, M, LO, NL, Ef. by repeat split.
Qed.

Lemma window_ok_step (e : Event) (w w' : View) :
  window_step e w = Some w' → window_ok w → window_ok w'.
Proof.
  intros H Hok. destruct w as [v | g | v | v].
  - destruct e as [k q | k q | f]; cbn in H.
    + injection H as <-. by apply menu_on_key_press_ok.
    + by injection H as <-.
    + destruct (update_fade _ v) as [[v1 shown]|] eqn:Hu; [|done].
      cbn in H. injection H as <-.
      destruct shown as [x|]; cbn.
      * apply update_fade_cases in Hu
          as (_ & _ & [[? _] | (o & y & _ & _ & Hm & [= <-])]); [done|].
        destruct GameView_init as [g0|] eqn:Hi; [|done].
        cbn in Hm. injection Hm as <-. by apply window_ok_new_game.
      * by eapply update_fade_ok.
  - apply window_step_Game in H as (g' & Hs & ->).
    destruct Hok as (Hc & Hm & Hsc & Hsh).
    pose proof (step_shown_EndView e g g' Hs) as Hn.
    destruct (_ && _); [by repeat constructor|].
    cbn. split; [by eapply consistent_step|].
    split; [by destruct (step_level _ _ e g g' Hs) as [-> _]|].
    split; [|by rewrite Hn, Hsh].
    pose proof (step_score_mono _ _ e g g' Hs). lia.
  - destruct e as [k q | k q | f]; cbn in H.
    + injection H as <-. by apply menu_on_key_press_ok.
    + by injection H as <-.
    + destruct (update_fade _ v) as [[v1 shown]|] eqn:Hu; [|done].
      cbn in H. injection H as <-.
      destruct shown as [x|]; cbn.
      * apply update_fade_cases in Hu
          as (_ & _ & [[? _] | (o & y & _ & _ & Hm & [= <-])]); [done|].
        injection Hm as <-. by repeat constructor.
      * by eapply update_fade_ok.
  - destruct e as [k q | k q | f]; cbn in H.
    + injection H as <-. by apply menu_on_key_press_ok.
    + by injection H as <-.
    + destruct (update_fade _ v) as [[v1 shown]|] eqn:Hu; [|done].
      cbn in H. injection H as <-.
      destruct shown as [x|]; cbn.
      * apply update_fade_cases in Hu
          as (_ & _ & [[? _] | (o & y & _ & _ & Hm & [= <-])]); [done|].
        injection Hm as <-. by repeat constructor.
      * by eapply update_fade_ok.
Qed.

(** X11.  Whatever the keys and however long the window runs from [main]: a menu
    view draws its fading rectangles with alpha values between 0 and 255;
    a game that is shown is a game of four levels in a consistent state,
    its score is not negative, and it has not shown the end view, so the
    game never runs on behind the end view. *)
Theorem window_keeps_ok (evs : list Event) (w : View) :
  window_run evs main = Some w → window_ok w.
Proof.
  assert (H : ∀ w0, window_ok w0 → window_run evs w0 = Some w → window_ok w).
  { induction evs as [|e evs IH]; intros w0 Hok H.
    - by injection H as <-.
    - rewrite window_run_cons in H.
      destruct (window_step e w0) as [w1|] eqn:He; [|done].
      cbn in H. apply (IH w1); [|done]. by eapply window_ok_step. }
  apply H, window_ok_init.
Qed.

(** One update of a menu view that is fading out. *)
Lemma window_step_menu_update (f : Frame) (w : View) (v : FadingView)
    (o : Z) :
  fading w = Some v → fade_out v = Some o →
  (o + FADE_RATE ≤ 255 →
   ∃ v1, window_step (Update f) w = Some (with_fading v1 w)
         ∧ fade_out v1 = Some (o + FADE_RATE))
  ∧ (255 < o + FADE_RATE →
     window_step (Update f) w
     = match w with
       | StartView _ => Game <$> GameView_init
       | EndView _ => Some (EndView2 FadingView_init)
       | EndView2 _ => Some (StartView FadingView_init)
       | Game _ => None
       end).
Proof.
  intros Hw Ho.
  destruct w as [v0 | g | v0 | v0]; cbn in Hw; try done;
    injection Hw as ->; cbn; unfold update_fade; rewrite Ho;
    cbn [fade_out fade_in]; (split; intros Hb).
  all: destruct (Z.ltb_spec 255 (o + FADE_RATE)); try lia.
  all: cbn [mbind option_bind].
  all: try (eexists; split; [reflexivity|];
            by destruct (fade_in v) as [i|]; cbn; [destruct (_ <=? 0)|]).
  all: try done.
  by destruct GameView_init.
Qed.

Lemma with_fading_fading (v v' : FadingView) (w : View) :
  fading w = Some v → fading (with_fading v' w) = Some v'
  ∧ with_fading v' (with_fading v w) = with_fading v' w.
Proof. by destruct w. Qed.

(** A menu view that is fading out stays, whatever the keys, for as many
    updates as keep the alpha at 255 or below. *)
Lemma window_run_fading_out (evs : list Event) (w : View) (v : FadingView)
    (o : Z) :
  fading w = Some v → fade_out v = Some o →
  o + FADE_RATE * Z.of_nat (count_updates evs) ≤ 255 →
  ∃ v', window_run evs w = Some (with_fading v' w)
        ∧ fade_out v' = Some (o + FADE_RATE * Z.of_nat (count_updates evs)).
Proof.
  revert w v o. induction evs as [|e evs IH]; intros w v o Hw Ho Hb.
  - exists v. split; [by destruct w; cbn in *; simplify_eq|].
    rewrite Ho. f_equal. cbn. unfold FADE_RATE. lia.
  - rewrite window_run_cons. destruct e as [k q | k q | f].
    + assert (window_step (KeyPress k q) w = Some w) as ->.
      { destruct w; cbn in *; simplify_eq; try done;
          unfold menu_on_key_press; by rewrite Ho. }
      cbn [mbind option_bind]. by apply (IH w v o).
    + assert (window_step (KeyRelease k q) w = Some w) as ->
        by (by destruct w; cbn in *; simplify_eq).
      cbn [mbind option_bind]. by apply (IH w v o).
    + unfold count_updates in *. cbn [List.filter is_update length] in *.
      destruct (window_step_menu_update f w v o Hw Ho) as [Hstay _].
      destruct Hstay as (v1 & -> & Ho1); [unfold FADE_RATE in *; lia|].
      cbn [mbind option_bind].
      destruct (with_fading_fading v v1 w Hw) as [Hw1 _].
      destruct (IH (with_fading v1 w) v1 (o + FADE_RATE) Hw1 Ho1)
        as (v' & Hrun & Ho'); [unfold FADE_RATE in *; lia|].
      exists v'. rewrite Hrun.
      destruct (with_fading_fading v1 v' (with_fading v1 w) Hw1) as [_ E].
      split.
      * f_equal. by destruct w.
      * rewrite Ho'. f_equal. unfold FADE_RATE. lia.
Qed.

(** X12.  A menu view leaves at the 52nd update after the space key: once space
    is pressed on a view that is not fading out, the view stays through 51
    updates whatever keys are pressed or released meanwhile, its fade-out
    alpha rising by 5 with each, and the next update shows the next view:
    a new game after the start view (or raises when its first level does
    not load), the second end view after the first, the start view after
    the second. *)
Theorem menu_leaves_at_52nd_update (w : View) (v : FadingView) (q : Physics)
    (evs : list Event) (f : Frame) :
  fading w = Some v → fade_out v = None →
  (count_updates evs ≤ 51)%nat →
  (∃ v', window_run (KeyPress key.SPACE q :: evs) w
         = Some (with_fading v' w)
         ∧ fade_out v' = Some (5 * Z.of_nat (count_updates evs)))
  ∧ (count_updates evs = 51%nat →
     window_run (KeyPress key.SPACE q :: evs ++ [Update f]) w
     = match w with
       | StartView _ => Game <$> GameView_init
       | EndView _ => Some (EndView2 FadingView_init)
       | EndView2 _ => Some (StartView FadingView_init)
       | Game _ => None
       end).
Proof.
  intros Hw Ho Hn.
  set (v0 := mkFadingView (Some 0) (fade_in v)).
  assert (Hsp : window_step (KeyPress key.SPACE q) w
                = Some (with_fading v0 w)).
  { destruct w; cbn in *; simplify_eq; try done;
      unfold menu_on_key_press; by rewrite Ho. }
  destruct (with_fading_fading v v0 w Hw) as [Hw0 _].
  destruct (window_run_fading_out evs (with_fading v0 w) v0 0 Hw0 eq_refl)
    as (v' & Hrun & Ho'); [unfold FADE_RATE; lia|].
  destruct (with_fading_fading v0 v' (with_fading v0 w) Hw0) as [Hw' _].
  assert (E : with_fading v' (with_fading v0 w) = with_fading v' w)
    by (by destruct w).
  rewrite E in *. unfold FADE_RATE in Ho'. rewrite Z.add_0_l in Ho'.
  split.
  - exists v'. split; [|done].
    rewrite window_run_cons, Hsp. cbn [mbind option_bind]. done.
  - intros H51. rewrite app_comm_cons, window_run_app, window_run_cons, Hsp.
    cbn [mbind option_bind]. rewrite Hrun. cbn [mbind option_bind].
    rewrite window_run_cons.
    destruct (window_step_menu_update f (with_fading v' w) v'
                (5 * Z.of_nat (count_updates evs)) Hw' Ho') as [_ Hgo].
    rewrite Hgo by (unfold FADE_RATE; lia).
    destruct w; cbn in *; try done. by destruct GameView_init.
Qed.

End More.

(** * The further properties on the small game *)

Lemma Demo_map_loads (lvl : Z) :
  1 ≤ lvl ≤ 4 → map_loads (Demo.tilemap lvl) lvl.
Proof.
  intros _. unfold map_loads.
  split; [by eexists|]. split; [by eexists|]. split; [by eexists|].
  split; [intros _; split; by eexists|]. compute_done.
Qed.

Lemma Demo_playing_consistent : consistent (Demo.playing 1 300).
Proof. unfold consistent. cbn. repeat split; done. Qed.

(** Left held without right on level 1: the player is sent left. *)
Lemma velocities_from_keys_witness :
  change_x (player_sprite
              (process_keychange Demo.grounded
                 (set_left_pressed true (Demo.playing 1 300))))
  = (- PLAYER_MOVEMENT_SPEED)%Q.
Proof.
  apply (velocities_from_keys Demo.grounded
           (set_left_pressed true (Demo.playing 1 300))).
  reflexivity.
Defined.

(** Up is pressed on the ground of level 1 and a frame follows: the jump
    latch is closed and up is held. *)
Lemma consistent_run_witness :
  ∃ g', run Demo.tilemap Demo.hit_box
          [KeyPress key.UP Demo.grounded; Update (Demo.frame 300 0 [])]
          (Demo.playing 1 300) = Some g'
        ∧ consistent g'.
Proof.
  destruct (run Demo.tilemap Demo.hit_box
              [KeyPress key.UP Demo.grounded; Update (Demo.frame 300 0 [])]
              (Demo.playing 1 300))
    as [g'|] eqn:Hrun; [|vm_compute in Hrun; discriminate].
  exists g'. split; [reflexivity|].
  exact (consistent_run Demo.tilemap Demo.hit_box _ _ g'
           (or_introl Demo_playing_consistent) Hrun).
Defined.

(** A new game on the small maps, a jump and a coin. *)
Lemma run_never_raises_witness :
  ∃ g0 g', GameView_init Demo.tilemap Demo.hit_box = Some g0
           ∧ run Demo.tilemap Demo.hit_box
               [KeyPress key.UP Demo.grounded;
                Update (Demo.frame 600 350 [10%nat])] g0 = Some g'
           ∧ playable g'.
Proof.
  destruct (run_never_raises Demo.tilemap Demo.hit_box Demo_map_loads)
    as [(g0 & H0 & Hp0) Hrun].
  destruct (Hrun [KeyPress key.UP Demo.grounded;
                  Update (Demo.frame 600 350 [10%nat])] g0 Hp0)
    as (g' & Hg' & Hp').
  by exists g0, g'.
Defined.

(** A frame on the ground of level 1: the engine says the player can jump,
    and the attribute of the player says it cannot. *)
Lemma play_frame_player_witness :
  ∃ g', on_update Demo.tilemap Demo.hit_box (Demo.frame 320 0 [])
          (Demo.playing 1 300) = Some g'
        ∧ center_x (player_sprite g') = 320%Q
        ∧ can_jump (player_sprite g') = Some false.
Proof.
  destruct (on_update Demo.tilemap Demo.hit_box (Demo.frame 320 0 [])
              (Demo.playing 1 300))
    as [g'|] eqn:H; [|vm_compute in H; discriminate].
  exists g'. split; [reflexivity|].
  destruct (play_frame_player Demo.tilemap Demo.hit_box
              (Demo.frame 320 0 []) (Demo.playing 1 300) g' eq_refl H)
    as (Hx & _ & Hj & _).
  split; [exact Hx | exact Hj].
Defined.

(** Level 2 of the small game: the clouds are a background layer, the
    coins are not. *)
Lemma load_level_background_layers_witness :
  ∃ g', load_level Demo.tilemap Demo.hit_box 2 (Demo.playing 1 300)
        = Some g'
        ∧ "Clouds" ∈ background_layer_names g'
        ∧ ("Coins" ∈ background_layer_names g' → False).
Proof.
  destruct (load_level Demo.tilemap Demo.hit_box 2 (Demo.playing 1 300))
    as [g'|] eqn:H; [|vm_compute in H; discriminate].
  exists g'. split; [reflexivity|].
  destruct (load_level_background_layers Demo.tilemap Demo.hit_box 2
              (Demo.playing 1 300) g' H) as (_ & _ & Hmem).
  split.
  - apply Hmem. split; [by eexists|]. compute_done.
  - intros Hin. apply Hmem in Hin as [_ Hn]. apply Hn. compute_done.
Defined.

(** Waiting at the end of the first map without the space key. *)
Lemma end_view_needs_last_level_and_space_witness :
  ∃ g', run Demo.tilemap Demo.hit_box
          [Update (Demo.frame 7000 0 []); KeyPress key.LEFT Demo.grounded]
          (Demo.playing 1 7000) = Some g'
        ∧ shown_EndView g' = shown_EndView (Demo.playing 1 7000).
Proof.
  destruct (run Demo.tilemap Demo.hit_box
              [Update (Demo.frame 7000 0 []); KeyPress key.LEFT Demo.grounded]
              (Demo.playing 1 7000))
    as [g'|] eqn:Hrun; [|vm_compute in Hrun; discriminate].
  exists g'. split; [reflexivity|].
  apply (end_view_needs_last_level_and_space Demo.tilemap Demo.hit_box
           _ _ g' Hrun).
  right. split; [reflexivity|]. repeat constructor.
Defined.

(** Up and W are pressed, then W alone is released: the flag is clear
    although up is still held down. *)
Lemma direction_flag_follows_last_key_event_witness :
  ∃ g', run Demo.tilemap Demo.hit_box
          [KeyPress key.UP Demo.grounded; KeyPress key.W Demo.grounded;
           KeyRelease key.W Demo.grounded]
          (Demo.playing 1 300) = Some g'
        ∧ up_pressed g' = false.
Proof.
  destruct (run Demo.tilemap Demo.hit_box
              [KeyPress key.UP Demo.grounded; KeyPress key.W Demo.grounded;
               KeyRelease key.W Demo.grounded]
              (Demo.playing 1 300))
    as [g'|] eqn:Hrun; [|vm_compute in Hrun; discriminate].
  exists g'. split; [reflexivity|].
  exact (direction_flag_follows_last_key_event Demo.tilemap Demo.hit_box
           dir_up _ _ g' Hrun).
Defined.

(** A new game with one text object on the map, after a frame. *)
Lemma on_draw_of_a_running_game_witness :
  ∃ g0 g l,
    GameView_init Demo.tilemap Demo.hit_box = Some g0
    ∧ run Demo.tilemap Demo.hit_box [Update (Demo.frame 300 0 [])] g0
      = Some g
    ∧ on_draw [mkTiledObject "Welcome" "Chalkduster" (64, 96)%Q] g = Some l
    ∧ draws_well_done l = (0 <? played victory_sound g)%nat.
Proof.
  destruct (GameView_init_playable Demo.tilemap Demo.hit_box Demo_map_loads)
    as (g0 & H0 & Hp0).
  destruct (playable_run Demo.tilemap Demo.hit_box
              [Update (Demo.frame 300 0 [])] g0 Demo_map_loads Hp0)
    as (g & Hg & _).
  destruct (on_draw_of_a_running_game Demo.tilemap Demo.hit_box
              [mkTiledObject "Welcome" "Chalkduster" (64, 96)%Q]
              [Update (Demo.frame 300 0 [])] Demo.grounded g0 g H0 Hg)
    as (l & Hl & Hw & _).
  by exists g0, g, l.
Defined.

(** One coin is collected on level 1. *)
Lemma score_counts_coin_sounds_witness :
  ∃ g', run Demo.tilemap Demo.hit_box [Update (Demo.frame 300 0 [10%nat])]
          (Demo.playing 1 300) = Some g'
        ∧ score g' - score (Demo.playing 1 300)
          = 10 * (Z.of_nat (played collect_coin_sound g')
                  - Z.of_nat (played collect_coin_sound (Demo.playing 1 300))).
Proof.
  destruct (run Demo.tilemap Demo.hit_box
              [Update (Demo.frame 300 0 [10%nat])] (Demo.playing 1 300))
    as [g'|] eqn:Hrun; [|vm_compute in Hrun; discriminate].
  exists g'. split; [reflexivity|].
  exact (proj1 (score_counts_coin_sounds Demo.tilemap Demo.hit_box
                  _ _ g' Hrun)).
Defined.

(** The start view after the space key and one update. *)
Lemma window_keeps_ok_witness :
  ∃ w, window_run Demo.tilemap Demo.hit_box
         [KeyPress key.SPACE Demo.grounded; Update (Demo.frame 0 0 [])]
         main = Some w
       ∧ window_ok w.
Proof.
  destruct (window_run Demo.tilemap Demo.hit_box
              [KeyPress key.SPACE Demo.grounded; Update (Demo.frame 0 0 [])]
              main)
    as [w|] eqn:Hrun; [|vm_compute in Hrun; discriminate].
  exists w. split; [reflexivity|].
  exact (window_keeps_ok Demo.tilemap Demo.hit_box _ w Hrun).
Defined.

(** From the start view: space, 51 updates, and the update that starts the
    game. *)
Lemma menu_leaves_at_52nd_update_witness :
  window_run Demo.tilemap Demo.hit_box
    (KeyPress key.SPACE Demo.grounded
     :: replicate 51 (Update (Demo.frame 0 0 []))
        ++ [Update (Demo.frame 0 0 [])]) main
  = Game <$> GameView_init Demo.tilemap Demo.hit_box.
Proof.
  apply (menu_leaves_at_52nd_update Demo.tilemap Demo.hit_box main
           FadingView_init Demo.grounded
           (replicate 51 (Update (Demo.frame 0 0 [])))
           (Demo.frame 0 0 []) eq_refl eq_refl).
  - vm_compute. lia.
  - vm_compute. reflexivity.
Defined.

(** The player walks left: the image is mirrored. *)
Lemma texture_faces_direction_witness :
  ∃ p', update_animation (set_change_x (-7) (start_player Demo.hit_box))
        = Some p'
        ∧ flipped_horizontally (texture p')
          = (if climbing p' then false
             else Facing_eqb (character_face_direction p') LEFT_FACING).
Proof.
  destruct (update_animation (set_change_x (-7) (start_player Demo.hit_box)))
    as [p'|] eqn:H; [|vm_compute in H; discriminate].
  exists p'. split; [reflexivity|].
  exact (texture_faces_direction _ p' H).
Defined.

(** Up is pressed on the ground and held through two frames. *)
Lemma jump_at_most_once_while_held_witness :
  ∃ g', run Demo.tilemap Demo.hit_box
          [KeyPress key.UP Demo.grounded; Update (Demo.frame 300 0 []);
           Update (Demo.frame 300 0 [])]
          (Demo.playing 1 300) = Some g'
        ∧ (played jump_sound g'
           ≤ S (played jump_sound (Demo.playing 1 300)))%nat.
Proof.
  destruct (run Demo.tilemap Demo.hit_box
              [KeyPress key.UP Demo.grounded; Update (Demo.frame 300 0 []);
               Update (Demo.frame 300 0 [])]
              (Demo.playing 1 300))
    as [g'|] eqn:Hrun; [|vm_compute in Hrun; discriminate].
  exists g'. split; [reflexivity|].
  eapply (jump_at_most_once_while_held Demo.tilemap Demo.hit_box);
    [|exact Hrun]. repeat constructor.
Defined.
